(** * A shallow embedding of the bytecode runner (src/main.py)

    The engine of [src/main.py] is a stack machine interpreting CPython word
    code: a [VirtualMachine] owns a call stack of [Frame]s, decodes one
    instruction per cycle ([parse_inst_and_args]) and executes it through
    [dispatch], which converts every host exception raised by a handler
    into the control signal ["exception"].

    Python objects that are mutable and can be aliased (name spaces, lists,
    iterators) live in an explicit heap and are referred to by location;
    immutable values are ordinary terms.  Handlers are written in a state
    and exception monad whose failures keep the state, as a Python
    exception keeps the mutations made before it was raised. *)

From Stdlib Require Import ZArith Ascii.
From stdpp Require Import gmap strings list pretty.

Set Warnings "-register-all".

Open Scope Z_scope.

(** ** Exceptions *)

(** The host exception classes the engine can meet (the last one is the
    class [VirtualMachineError] declared by the engine itself). *)
Inductive ExcKind :=
| NameError | UnboundLocalError | TypeError | ValueError | IndexError
| KeyError | AttributeError | ZeroDivisionError | VirtualMachineError.

(** An exception instance: [NewExc k msg] is [k(msg)]; [ReExc k e] is the
    instance [k(e)] that [run_frame] builds from the recorded value. *)
Inductive PyExc :=
| NewExc (k : ExcKind) (msg : string)
| ReExc (k : ExcKind) (inner : PyExc).

Definition exc_kind (e : PyExc) : ExcKind :=
  match e with NewExc k _ => k | ReExc k _ => k end.

(** A traceback chain would be a list of (frame name, instruction offset). *)
Definition Traceback : Type := list (string * Z).

(** ** Values, code objects and functions *)

Definition loc : Type := nat.
Bind Scope nat_scope with loc.

Inductive Value :=
| VNone
| VBool (b : bool)
| VInt (n : Z)
| VStr (s : string)
| VTuple (vs : list Value)
| VList (l : loc)
| VIter (l : loc)
| VDict (l : loc)
| VModule (d : loc)
| VHost (name : string)
| VCode (c : Code)
| VFunction (f : Function)
with Code :=
| mkCode (co_name : string) (co_argcount : nat) (co_code : list Z)
         (co_consts : list Value) (co_names co_varnames co_cellvars
          co_freevars : list string)
with Function :=
| mkFunction (func_name : Value) (func_code : Code)
             (func_defaults : list Value) (func_globals func_locals : loc)
             (func_closure : list (string * Value)).

Definition co_name (c : Code) : string :=
  match c with mkCode n _ _ _ _ _ _ _ => n end.
Definition co_argcount (c : Code) : nat :=
  match c with mkCode _ n _ _ _ _ _ _ => n end.
Definition co_code (c : Code) : list Z :=
  match c with mkCode _ _ b _ _ _ _ _ => b end.
Definition co_consts (c : Code) : list Value :=
  match c with mkCode _ _ _ k _ _ _ _ => k end.
Definition co_names (c : Code) : list string :=
  match c with mkCode _ _ _ _ n _ _ _ => n end.
Definition co_varnames (c : Code) : list string :=
  match c with mkCode _ _ _ _ _ v _ _ => v end.
Definition co_cellvars (c : Code) : list string :=
  match c with mkCode _ _ _ _ _ _ cv _ => cv end.
Definition co_freevars (c : Code) : list string :=
  match c with mkCode _ _ _ _ _ _ _ fv => fv end.

Definition func_name (f : Function) : Value :=
  match f with mkFunction n _ _ _ _ _ => n end.
Definition func_code (f : Function) : Code :=
  match f with mkFunction _ c _ _ _ _ => c end.
Definition func_defaults (f : Function) : list Value :=
  match f with mkFunction _ _ d _ _ _ => d end.
Definition func_globals (f : Function) : loc :=
  match f with mkFunction _ _ _ g _ _ => g end.
Definition func_locals (f : Function) : loc :=
  match f with mkFunction _ _ _ _ l _ => l end.
Definition func_closure (f : Function) : list (string * Value) :=
  match f with mkFunction _ _ _ _ _ c => c end.

(** ** Heap, frames and the machine *)

(** State of an iterator object: over a tuple (immutable, so the items
    and a position), over a list object (read live at every step), or
    exhausted for good. *)
Inductive IterState :=
| ITuple (items : list Value) (pos : nat)
| IList (src : loc) (pos : nat)
| IDone.

Inductive HeapObj :=
| HDict (d : gmap string Value)
| HList (vs : list Value)
| HIter (it : IterState).

(** [prev_frame] is the frame below in [frames]; it is read only when a
    frame is built, to inherit [builtin_names]. *)
Record Frame := mkFrame {
  code_obj : Code;
  f_globals : loc;
  f_locals : loc;
  builtin_names : Value;
  cells : list (string * Value);
  stack : list Value;
  last_instruction : Z
}.

(** [self.frame] always aliases the last element of [self.frames]
    ([push_frame], [pop_frame]); the machine keeps the single copy. *)
Record VirtualMachine := mkVM {
  frames : list Frame;
  return_value : Value;
  last_exception : option (ExcKind * PyExc * option Traceback);
  heap : list HeapObj;
  stdout : list string
}.

Definition vm_frame (vm : VirtualMachine) : option Frame := last (frames vm).

(** ** The monad of handlers

    A computation reads and writes the machine and ends with a value, a
    raised host exception, a behaviour of the host that this embedding
    does not cover ([Unmodelled]), or exhausted fuel.  The machine reached
    is returned in every case. *)

Inductive Res (A : Type) :=
| Ok (a : A)
| Raise (e : PyExc)
| Unmodelled (what : string)
| OutOfFuel.
Arguments Ok {A} a.
Arguments Raise {A} e.
Arguments Unmodelled {A} what.
Arguments OutOfFuel {A}.

Definition M (A : Type) : Type := VirtualMachine -> Res A * VirtualMachine.

Definition ret {A} (a : A) : M A := fun vm => (Ok a, vm).

Definition bind {A B} (m : M A) (k : A -> M B) : M B :=
  fun vm =>
    match m vm with
    | (Ok a, vm') => k a vm'
    | (Raise e, vm') => (Raise e, vm')
    | (Unmodelled w, vm') => (Unmodelled w, vm')
    | (OutOfFuel, vm') => (OutOfFuel, vm')
    end.

Notation "x <- m ;; k" := (bind m (fun x => k))
  (at level 100, m at next level, right associativity).
Notation "m ;;; k" := (bind m (fun _ => k))
  (at level 100, right associativity).

Definition raise {A} (k : ExcKind) (msg : string) : M A :=
  fun vm => (Raise (NewExc k msg), vm).
Definition unmodelled {A} (what : string) : M A :=
  fun vm => (Unmodelled what, vm).
Definition out_of_fuel {A} : M A := fun vm => (OutOfFuel, vm).
Definition get_vm : M VirtualMachine := fun vm => (Ok vm, vm).

Definition of_option {A} (o : option A) (k : ExcKind) (msg : string) : M A :=
  match o with Some a => ret a | None => raise k msg end.

(** ** Python sequence indexing *)

(** [l[i]] with Python's negative indices; [None] is IndexError. *)
Definition py_index {A} (l : list A) (i : Z) : option A :=
  if bool_decide (0 <= i) then l !! Z.to_nat i
  else if bool_decide (- Z.of_nat (length l) <= i)
       then l !! Z.to_nat (Z.of_nat (length l) + i)
       else None.

(** The position at which the slice [l[start:]] begins. *)
Definition slice_start {A} (l : list A) (start : Z) : nat :=
  let len := Z.of_nat (length l) in
  if bool_decide (start < 0) then Z.to_nat (Z.max 0 (len + start))
  else Z.to_nat (Z.min start len).

(** ** Access to the active frame and the heap *)

Definition get_frame (attr : string) : M Frame :=
  fun vm =>
    match vm_frame vm with
    | Some f => (Ok f, vm)
    | None =>
        (Raise (NewExc AttributeError
                  ("'NoneType' object has no attribute '" +:+ attr +:+ "'")), vm)
    end.

Definition set_top_frame (f : Frame) (vm : VirtualMachine) : VirtualMachine :=
  mkVM (<[pred (length (frames vm)) := f]> (frames vm))
       (return_value vm) (last_exception vm) (heap vm) (stdout vm).

Definition put_frame (f : Frame) : M unit :=
  fun vm => (Ok tt, set_top_frame f vm).

Definition set_stack (s : list Value) (f : Frame) : Frame :=
  mkFrame (code_obj f) (f_globals f) (f_locals f) (builtin_names f)
          (cells f) s (last_instruction f).

Definition set_last_instruction (pc : Z) (f : Frame) : Frame :=
  mkFrame (code_obj f) (f_globals f) (f_locals f) (builtin_names f)
          (cells f) (stack f) pc.

Definition set_heap (h : list HeapObj) (vm : VirtualMachine) : VirtualMachine :=
  mkVM (frames vm) (return_value vm) (last_exception vm) h (stdout vm).

Definition alloc (o : HeapObj) : M loc :=
  fun vm => (Ok (length (heap vm)), set_heap (heap vm ++ [o]) vm).

Definition heap_get (l : loc) : M HeapObj :=
  fun vm =>
    match heap vm !! l with
    | Some o => (Ok o, vm)
    | None => (Unmodelled "dangling reference", vm)
    end.

Definition heap_set (l : loc) (o : HeapObj) : M unit :=
  fun vm => (Ok tt, set_heap (<[l := o]> (heap vm)) vm).

Definition dict_at (l : loc) : M (gmap string Value) :=
  o <- heap_get l ;;
  match o with
  | HDict d => ret d
  | _ => unmodelled "name space that is not a dict"
  end.

Definition list_at (l : loc) : M (list Value) :=
  o <- heap_get l ;;
  match o with
  | HList vs => ret vs
  | _ => unmodelled "list reference to another object"
  end.

(** [d[name] = v] on the dict object at [l]. *)
Definition dict_store (l : loc) (name : string) (v : Value) : M unit :=
  d <- dict_at l ;; heap_set l (HDict (<[name := v]> d)).

(** [d.update(pairs)]: later pairs override earlier ones. *)
Fixpoint dict_update (l : loc) (pairs : list (string * Value)) : M unit :=
  match pairs with
  | [] => ret tt
  | (k, v) :: rest => dict_store l k v ;;; dict_update l rest
  end.

(** A Python dict that is built once and never aliased, kept in insertion
    order: [alist_set] is [d[k] = v]. *)
Fixpoint alist_set (k : string) (v : Value) (d : list (string * Value))
  : list (string * Value) :=
  match d with
  | [] => [(k, v)]
  | (k', v') :: rest =>
      if String.eqb k k' then (k', v) :: rest else (k', v') :: alist_set k v rest
  end.

Fixpoint alist_get (k : string) (d : list (string * Value)) : option Value :=
  match d with
  | [] => None
  | (k', v') :: rest => if String.eqb k k' then Some v' else alist_get k rest
  end.

(** ** Operand-stack helpers ([top], [pop], [push], [popn]) *)

Definition top : M Value :=
  f <- get_frame "stack" ;;
  of_option (py_index (stack f) (-1)) IndexError "list index out of range".

Definition pop : M Value :=
  f <- get_frame "stack" ;;
  match last (stack f) with
  | Some v => put_frame (set_stack (removelast (stack f)) f) ;;; ret v
  | None => raise IndexError "pop from empty list"
  end.

Definition push (vals : list Value) : M unit :=
  f <- get_frame "stack" ;;
  put_frame (set_stack (stack f ++ vals) f).

Definition popn (n : Z) : M (list Value) :=
  if bool_decide (n = 0) then ret []
  else
    f <- get_frame "stack" ;;
    let i := slice_start (stack f) (- n) in
    put_frame (set_stack (take i (stack f)) f) ;;;
    ret (drop i (stack f)).

(** Tuple assignment [x, y = vals] and [x, y, z = vals]. *)
Definition unpack2 (vals : list Value) : M (Value * Value) :=
  match vals with
  | [x; y] => ret (x, y)
  | [] => raise ValueError "not enough values to unpack (expected 2, got 0)"
  | [_] => raise ValueError "not enough values to unpack (expected 2, got 1)"
  | _ => raise ValueError "too many values to unpack (expected 2)"
  end.

Definition unpack3 (vals : list Value) : M (Value * Value * Value) :=
  match vals with
  | [x; y; z] => ret (x, y, z)
  | [] => raise ValueError "not enough values to unpack (expected 3, got 0)"
  | [_] => raise ValueError "not enough values to unpack (expected 3, got 1)"
  | [_; _] => raise ValueError "not enough values to unpack (expected 3, got 2)"
  | _ => raise ValueError "too many values to unpack (expected 3)"
  end.

(** ** Host primitives on the embedded values

    [iter], [next], truth testing, [tuple], [str] and the operator tables
    are supplied by the host.  They are modelled on the value kinds above;
    what Python does on a combination that is not written out here is
    [Unmodelled], never guessed.  The class of every exception is the
    host's.  The messages are those of CPython 3.8 for the faults of
    unpacking, of the operators and of argument binding (the type of an
    iterator object being named [iterator]); elsewhere a message of the
    host may be abbreviated. *)

Definition type_name (v : Value) : string :=
  match v with
  | VNone => "NoneType" | VBool _ => "bool" | VInt _ => "int"
  | VStr _ => "str" | VTuple _ => "tuple" | VList _ => "list"
  | VIter _ => "iterator" | VDict _ => "dict" | VModule _ => "module"
  | VHost n => n | VCode _ => "code" | VFunction _ => "Function"
  end.

Definition py_truth (v : Value) : M bool :=
  match v with
  | VNone => ret false
  | VBool b => ret b
  | VInt n => ret (negb (Z.eqb n 0))
  | VStr s => ret (negb (String.eqb s ""))
  | VTuple vs => ret (negb (bool_decide (length vs = 0%nat)))
  | VList l => vs <- list_at l ;; ret (negb (bool_decide (length vs = 0%nat)))
  | VDict l => d <- dict_at l ;; ret (negb (bool_decide (size d = 0%nat)))
  | VIter _ | VModule _ | VCode _ | VFunction _ => ret true
  | VHost _ => unmodelled "truth value of a host object"
  end.

Definition not_iterable {A} (v : Value) : M A :=
  raise TypeError ("'" +:+ type_name v +:+ "' object is not iterable").

Definition py_iter (v : Value) : M Value :=
  match v with
  | VTuple vs => l <- alloc (HIter (ITuple vs 0)) ;; ret (VIter l)
  | VList src => l <- alloc (HIter (IList src 0)) ;; ret (VIter l)
  | VIter l => ret (VIter l)
  | VStr _ | VDict _ | VHost _ => unmodelled "iter() of str, dict or host object"
  | _ => not_iterable v
  end.

(** [next(it)]: [None] stands for StopIteration. *)
Definition py_next (v : Value) : M (option Value) :=
  match v with
  | VIter l =>
      o <- heap_get l ;;
      match o with
      | HIter (ITuple items pos) =>
          match items !! pos with
          | Some x => heap_set l (HIter (ITuple items (S pos))) ;;; ret (Some x)
          | None => ret None
          end
      | HIter (IList src pos) =>
          vs <- list_at src ;;
          match vs !! pos with
          | Some x => heap_set l (HIter (IList src (S pos))) ;;; ret (Some x)
          | None => heap_set l (HIter IDone) ;;; ret None
          end
      | HIter IDone => ret None
      | _ => unmodelled "iterator reference to another object"
      end
  | _ => raise TypeError ("'" +:+ type_name v +:+ "' object is not an iterator")
  end.

(** [tuple(v)] *)
Definition py_tuple (v : Value) : M (list Value) :=
  match v with
  | VTuple vs => ret vs
  | VList l => list_at l
  | VStr _ | VDict _ | VIter _ | VHost _ =>
      unmodelled "tuple() of str, dict, iterator or host object"
  | _ => not_iterable v
  end.

Definition py_str (v : Value) : M string :=
  match v with
  | VStr s => ret s
  | VInt n => ret (pretty n)
  | VNone => ret "None"
  | VBool true => ret "True"
  | VBool false => ret "False"
  | _ => unmodelled "str() of a composite or host object"
  end.

Inductive BinOp :=
| POWER | MULTIPLY | FLOOR_DIVIDE | TRUE_DIVIDE | MODULO | ADD | SUBTRACT
| SUBSCR | LSHIFT | RSHIFT | AND | XOR | OR.

(** The operator as the host writes it in the message of a TypeError: the
    in-place statement appends [=], and [pow] and [**=] share one
    wording. *)
Definition op_symbol (inplace : bool) (op : BinOp) : string :=
  match op with
  | POWER => "** or pow()"
  | SUBSCR => "[]"
  | _ =>
      match op with
      | MULTIPLY => "*" | FLOOR_DIVIDE => "//" | TRUE_DIVIDE => "/"
      | MODULO => "%" | ADD => "+" | SUBTRACT => "-" | LSHIFT => "<<"
      | RSHIFT => ">>" | AND => "&" | XOR => "^" | _ => "|"
      end +:+ (if inplace then "=" else "")
  end.

Definition unsupported_operands {A} (symbol : string) (x y : Value) : M A :=
  raise TypeError ("unsupported operand type(s) for " +:+ symbol +:+ ": '"
                   +:+ type_name x +:+ "' and '" +:+ type_name y +:+ "'").

(** The objects with a concatenation and a repetition of their own, and
    those whose type has a table of sequence methods at all: the
    sequences, dict, and the instances of the class [Function], as of
    every class defined in Python. *)
Definition is_sequence (v : Value) : bool :=
  match v with VStr _ | VTuple _ | VList _ => true | _ => false end.

Definition has_sequence_methods (v : Value) : bool :=
  match v with
  | VStr _ | VTuple _ | VList _ | VDict _ | VFunction _ => true
  | _ => false
  end.

Definition dquote : string := String "034"%char EmptyString.

(** The TypeError of the operator [op], binary or in-place, on operands
    that do not support it: a sequence on the left answers for [+] and a
    sequence on either side for [*] (in [x *= y] the right operand is
    asked only when the type of [x] has no sequence methods); [x[y]] has
    messages of its own. *)
Definition operand_fault {A} (inplace : bool) (op : BinOp) (x y : Value) : M A :=
  match op with
  | SUBSCR =>
      raise TypeError
        match x with
        | VStr _ => "string indices must be integers"
        | VTuple _ | VList _ =>
            type_name x +:+ " indices must be integers or slices, not "
            +:+ type_name y
        | _ => "'" +:+ type_name x +:+ "' object is not subscriptable"
        end
  | ADD =>
      if is_sequence x
      then raise TypeError ("can only concatenate " +:+ type_name x +:+ " (not "
                            +:+ dquote +:+ type_name y +:+ dquote +:+ ") to "
                            +:+ type_name x)
      else unsupported_operands (op_symbol inplace op) x y
  | MULTIPLY =>
      if is_sequence x
      then raise TypeError ("can't multiply sequence by non-int of type '"
                            +:+ type_name y +:+ "'")
      else if is_sequence y && negb (inplace && has_sequence_methods x)
      then raise TypeError ("can't multiply sequence by non-int of type '"
                            +:+ type_name x +:+ "'")
      else unsupported_operands (op_symbol inplace op) x y
  | _ => unsupported_operands (op_symbol inplace op) x y
  end.

Definition int_binop (op : BinOp) (a b : Z) : M Value :=
  match op with
  | POWER => if bool_decide (0 <= b) then ret (VInt (a ^ b))
             else unmodelled "negative power (float)"
  | MULTIPLY => ret (VInt (a * b))
  | FLOOR_DIVIDE =>
      if bool_decide (b = 0)
      then raise ZeroDivisionError "integer division or modulo by zero"
      else ret (VInt (a `div` b))
  | TRUE_DIVIDE =>
      if bool_decide (b = 0) then raise ZeroDivisionError "division by zero"
      else unmodelled "true division (float)"
  | MODULO =>
      if bool_decide (b = 0)
      then raise ZeroDivisionError "integer division or modulo by zero"
      else ret (VInt (a `mod` b))
  | ADD => ret (VInt (a + b))
  | SUBTRACT => ret (VInt (a - b))
  | SUBSCR => raise TypeError "'int' object is not subscriptable"
  | LSHIFT => if bool_decide (b < 0) then raise ValueError "negative shift count"
              else ret (VInt (Z.shiftl a b))
  | RSHIFT => if bool_decide (b < 0) then raise ValueError "negative shift count"
              else ret (VInt (Z.shiftr a b))
  | AND => ret (VInt (Z.land a b))
  | XOR => ret (VInt (Z.lxor a b))
  | OR => ret (VInt (Z.lor a b))
  end.

Fixpoint repeat_list {A} (n : nat) (l : list A) : list A :=
  match n with O => [] | S k => l ++ repeat_list k l end.

(** The primitive behind an operator, on two operands; [inplace] tells
    the statement [x op= y] from the call of the binary primitive, which
    differ, on the operands written out here, by the wording of the
    TypeError alone. *)
Definition py_operator (inplace : bool) (op : BinOp) (x y : Value) : M Value :=
  match x, y with
  | VHost _, _ | _, VHost _ => unmodelled "operator on a host object"
  | VBool _, _ | _, VBool _ => unmodelled "operator on bool"
  | VInt a, VInt b => int_binop op a b
  | VStr a, VStr b =>
      match op with
      | ADD => ret (VStr (a +:+ b))
      | MODULO => unmodelled "string formatting"
      | _ => operand_fault inplace op x y
      end
  | VStr _, _ =>
      match op with
      | MODULO | MULTIPLY | SUBSCR => unmodelled "str formatting, repeat, index"
      | _ => operand_fault inplace op x y
      end
  | VTuple a, VTuple b =>
      match op with
      | ADD => ret (VTuple (a ++ b))
      | _ => operand_fault inplace op x y
      end
  | VTuple a, VInt n =>
      match op with
      | MULTIPLY => ret (VTuple (repeat_list (Z.to_nat n) a))
      | SUBSCR => of_option (py_index a n) IndexError "tuple index out of range"
      | _ => operand_fault inplace op x y
      end
  | VInt n, VTuple a =>
      match op with
      | MULTIPLY => ret (VTuple (repeat_list (Z.to_nat n) a))
      | _ => operand_fault inplace op x y
      end
  | VInt _, VStr _ | VInt _, VList _ =>
      match op with
      | MULTIPLY => unmodelled "repeat of str or list"
      | _ => operand_fault inplace op x y
      end
  | VList l, VInt n =>
      match op with
      | SUBSCR => vs <- list_at l ;;
                  of_option (py_index vs n) IndexError "list index out of range"
      | MULTIPLY => unmodelled "repeat of str or list"
      | _ => operand_fault inplace op x y
      end
  | VList a, VList b =>
      match op with
      | ADD => va <- list_at a ;; vb <- list_at b ;;
               l <- alloc (HList (va ++ vb)) ;; ret (VList l)
      | _ => operand_fault inplace op x y
      end
  | VDict l, VStr k =>
      match op with
      | SUBSCR => d <- dict_at l ;;
                  of_option (d !! k) KeyError ("'" +:+ k +:+ "'")
      | _ => operand_fault inplace op x y
      end
  | VDict _, _ | _, VDict _ => unmodelled "dict operators and keys"
  | _, _ => operand_fault inplace op x y
  end.

(** The primitive behind a binary operator: an entry of
    [BINARY_OPERATORS] applied to two operands. *)
Definition py_binop (op : BinOp) (x y : Value) : M Value :=
  py_operator false op x y.

(** The class attribute [BINARY_OPERATORS], keyed by operator name. *)
Definition BINARY_OPERATORS (op : string) : option BinOp :=
  if String.eqb op "POWER" then Some POWER
  else if String.eqb op "MULTIPLY" then Some MULTIPLY
  else if String.eqb op "FLOOR_DIVIDE" then Some FLOOR_DIVIDE
  else if String.eqb op "TRUE_DIVIDE" then Some TRUE_DIVIDE
  else if String.eqb op "MODULO" then Some MODULO
  else if String.eqb op "ADD" then Some ADD
  else if String.eqb op "SUBTRACT" then Some SUBTRACT
  else if String.eqb op "SUBSCR" then Some SUBSCR
  else if String.eqb op "LSHIFT" then Some LSHIFT
  else if String.eqb op "RSHIFT" then Some RSHIFT
  else if String.eqb op "AND" then Some AND
  else if String.eqb op "XOR" then Some XOR
  else if String.eqb op "OR" then Some OR
  else None.

(** The statement [x op= y] of [inplaceOperator]: a list is extended in
    place, an immutable operand falls back on the operator's primitive. *)
Definition py_iop (op : BinOp) (x y : Value) : M Value :=
  match x with
  | VList l =>
      match op with
      | ADD => vs <- list_at l ;; ys <- py_tuple y ;;
               heap_set l (HList (vs ++ ys)) ;;; ret x
      | MULTIPLY => unmodelled "repeat of str or list"
      | _ => py_operator true op x y
      end
  | _ => py_operator true op x y
  end.

Definition py_imatmul (x y : Value) : M Value :=
  match x, y with
  | VHost _, _ | _, VHost _ => unmodelled "operator on a host object"
  | _, _ => unsupported_operands "@=" x y
  end.

(** The if/elif chain of [inplaceOperator]; [None] is its final [else]. *)
Definition inplace_statement (op : string) : option (Value -> Value -> M Value) :=
  if String.eqb op "POWER" then Some (py_iop POWER)
  else if String.eqb op "MULTIPLY" then Some (py_iop MULTIPLY)
  else if String.eqb op "MATRIX_MULTIPLY" then Some py_imatmul
  else if String.eqb op "FLOOR_DIVIDE" then Some (py_iop FLOOR_DIVIDE)
  else if String.eqb op "TRUE_DIVIDE" then Some (py_iop TRUE_DIVIDE)
  else if String.eqb op "MODULO" then Some (py_iop MODULO)
  else if String.eqb op "ADD" then Some (py_iop ADD)
  else if String.eqb op "SUBTRACT" then Some (py_iop SUBTRACT)
  else if String.eqb op "LSHIFT" then Some (py_iop LSHIFT)
  else if String.eqb op "RSHIFT" then Some (py_iop RSHIFT)
  else if String.eqb op "AND" then Some (py_iop AND)
  else if String.eqb op "XOR" then Some (py_iop XOR)
  else if String.eqb op "OR" then Some (py_iop OR)
  else None.

Inductive CmpOp :=
| LT | LE | EQ | NE | GT | GE | IN | NOT_IN | IS | IS_NOT | EXC_MATCH.

(** The class attribute [COMPARE_OPERATORS], in its fixed order. *)
Definition COMPARE_OPERATORS : list CmpOp :=
  [LT; LE; EQ; NE; GT; GE; IN; NOT_IN; IS; IS_NOT; EXC_MATCH].

Definition kind_tag (v : Value) : nat :=
  match v with
  | VNone => 0 | VBool _ => 1 | VInt _ => 2 | VStr _ => 3 | VTuple _ => 4
  | VList _ => 5 | VIter _ => 6 | VDict _ => 7 | VModule _ => 8
  | VHost _ => 9 | VCode _ => 10 | VFunction _ => 11
  end%nat.

Definition py_order (op : CmpOp) (a b : Z) : bool :=
  match op with
  | LT => bool_decide (a < b) | LE => bool_decide (a <= b)
  | GT => bool_decide (b < a) | _ => bool_decide (b <= a)
  end.

Definition is_host (v : Value) : bool :=
  match v with VHost _ => true | _ => false end.
Definition is_bool (v : Value) : bool :=
  match v with VBool _ => true | _ => false end.
Definition same_kind (x y : Value) : bool :=
  bool_decide (kind_tag x = kind_tag y).

(** [x < y] and the like *)
Definition py_ordering (op : CmpOp) (x y : Value) : M Value :=
  match x, y with
  | VInt a, VInt b => ret (VBool (py_order op a b))
  | _, _ =>
      if is_bool x || is_bool y then unmodelled "bool as a number"
      else if same_kind x y
              && bool_decide (kind_tag x ∈ [3; 4; 5]%nat)
      then unmodelled "ordering of str and sequences"
      else raise TypeError
             ("ordering not supported between instances of '"
              +:+ type_name x +:+ "' and '" +:+ type_name y +:+ "'")
  end.

(** [x == y]; [negate] gives [x != y] *)
Definition py_equal (negate : bool) (x y : Value) : M Value :=
  let answer (b : bool) : M Value := ret (VBool (xorb negate b)) in
  if is_bool x || is_bool y then unmodelled "bool as a number"
  else
    match x, y with
    | VNone, VNone => answer true
    | VInt a, VInt b => answer (Z.eqb a b)
    | VStr a, VStr b => answer (String.eqb a b)
    | _, _ => if same_kind x y then unmodelled "equality of composite objects"
              else answer false
    end.

(** [x in y] *)
Definition py_membership (x y : Value) : M Value :=
  if bool_decide (kind_tag y ∈ [3; 4; 5; 6; 7]%nat)
  then unmodelled "membership test"
  else raise TypeError ("argument of type '" +:+ type_name y
                        +:+ "' is not iterable").

Definition ref_of (v : Value) : option loc :=
  match v with
  | VList l | VIter l | VDict l | VModule l => Some l
  | _ => None
  end.

(** [x is y]; [negate] gives [x is not y] *)
Definition py_identity (negate : bool) (x y : Value) : M Value :=
  let answer (b : bool) : M Value := ret (VBool (xorb negate b)) in
  if negb (same_kind x y) then answer false
  else
    match x, y with
    | VNone, _ => answer true
    | VBool a, VBool b => answer (Bool.eqb a b)
    | _, _ =>
        match ref_of x, ref_of y with
        | Some a, Some b => answer (bool_decide (a = b))
        | _, _ => unmodelled "identity of immutable objects"
        end
    end.

Definition py_compare (op : CmpOp) (x y : Value) : M Value :=
  if is_host x || is_host y then unmodelled "comparison with a host object"
  else
    match op with
    | LT | LE | GT | GE => py_ordering op x y
    | EQ => py_equal false x y
    | NE => py_equal true x y
    | IN | NOT_IN => py_membership x y
    | IS => py_identity false x y
    | IS_NOT => py_identity true x y
    | EXC_MATCH => raise TypeError "issubclass() arg 1 must be a class"
    end.

(** ** [inspect.getcallargs]

    The host binds the call's arguments to the parameters of the native
    function built from the code object.  The model follows the library's
    algorithm for the signatures [Code] can express: [co_argcount]
    positional-or-keyword parameters, the last ones defaulted. *)

Definition py_contains (k : string) (d : list (string * Value)) : bool :=
  bool_decide (is_Some (alist_get k d)).

Fixpoint bind_named (f_name : string) (args : list string)
    (named arg2value : list (string * Value)) : M (list (string * Value)) :=
  match named with
  | [] => ret arg2value
  | (kw, value) :: rest =>
      if negb (bool_decide (kw ∈ args))
      then raise TypeError (f_name +:+ "() got an unexpected keyword argument '"
                            +:+ kw +:+ "'")
      else if py_contains kw arg2value
      then raise TypeError (f_name +:+ "() got multiple values for argument '"
                            +:+ kw +:+ "'")
      else bind_named f_name args rest (alist_set kw value arg2value)
  end.

(** [repr] of a parameter name (an identifier holds neither quote nor
    escape). *)
Definition repr_name (s : string) : string := "'" +:+ s +:+ "'".

Fixpoint join (sep : string) (l : list string) : string :=
  match l with
  | [] => ""
  | [x] => x
  | x :: rest => x +:+ sep +:+ join sep rest
  end.

(** The library's [_missing_arguments], for positional parameters: the
    message counts and lists every parameter of [argnames] left unbound. *)
Definition missing_arguments {A} (f_name : string) (argnames : list string)
    (values : list (string * Value)) : M A :=
  let names :=
    repr_name <$> List.filter (fun name => negb (py_contains name values)) argnames in
  let missing := length names in
  s <- match names with
       | [x] => ret x
       | [x; y] => ret (x +:+ " and " +:+ y)
       | _ =>
           match reverse names with
           | y :: x :: rest =>
               ret (join ", " (reverse rest) +:+ ", " +:+ x +:+ " and " +:+ y)
           | _ => raise IndexError "tuple index out of range"
           end
       end ;;
  raise TypeError (f_name +:+ "() missing " +:+ pretty missing
                   +:+ " required positional argument"
                   +:+ (if bool_decide (missing = 1%nat) then "" else "s")
                   +:+ ": " +:+ s).

(** The library's [_too_many], for a function without [*args] and
    without keyword-only parameters. *)
Definition too_many {A} (f_name : string) (num_args num_defaults given : nat)
  : M A :=
  let defaulted := negb (bool_decide (num_defaults = 0%nat)) in
  let plural := defaulted || negb (bool_decide (num_args = 1%nat)) in
  let sig :=
    if defaulted
    then "from " +:+ pretty (Z.of_nat num_args - Z.of_nat num_defaults)
         +:+ " to " +:+ pretty num_args
    else pretty num_args in
  raise TypeError (f_name +:+ "() takes " +:+ sig +:+ " positional argument"
                   +:+ (if plural then "s" else "") +:+ " but " +:+ pretty given
                   +:+ (if bool_decide (given = 1%nat) then " was" else " were")
                   +:+ " given").

(** [for arg in req: if arg not in arg2value: _missing_arguments(...)] *)
Fixpoint check_required_in (f_name : string) (req rest : list string)
    (arg2value : list (string * Value)) : M unit :=
  match rest with
  | [] => ret tt
  | arg :: rest =>
      if py_contains arg arg2value
      then check_required_in f_name req rest arg2value
      else missing_arguments f_name req arg2value
  end.

Definition check_required (f_name : string) (req : list string)
    (arg2value : list (string * Value)) : M unit :=
  check_required_in f_name req req arg2value.

Fixpoint fill_defaults (args : list string) (defaults : list Value)
    (arg2value : list (string * Value)) : M (list (string * Value)) :=
  match args with
  | [] => ret arg2value
  | arg :: rest =>
      if py_contains arg arg2value
      then fill_defaults rest (tail defaults) arg2value
      else d <- of_option (head defaults) IndexError "tuple index out of range" ;;
           fill_defaults rest (tail defaults) (alist_set arg d arg2value)
  end.

Definition getcallargs (code : Code) (defaults : list Value)
    (positional : list Value) (named : list (string * Value))
  : M (list (string * Value)) :=
  let args := take (co_argcount code) (co_varnames code) in
  let f_name := co_name code in
  let num_pos := length positional in
  let num_args := length args in
  let num_defaults := length defaults in
  let arg2value := zip args positional in
  arg2value <- bind_named f_name args named arg2value ;;
  if bool_decide (num_args < num_pos)%nat
  then too_many f_name num_args num_defaults num_pos
  else if bool_decide (num_pos < num_args)%nat
  then
    let split := slice_start args (Z.of_nat num_args - Z.of_nat num_defaults) in
    check_required f_name (take split args) arg2value ;;;
    fill_defaults (drop split args) defaults arg2value
  else ret arg2value.

(** ** Function objects: [Function.__init__] *)

(** The host's builtins module is the object whose [__dict__] sits at
    location 0 of every heap. *)
Definition builtins : Value := VModule 0.

Definition as_code (v : Value) (attr : string) : M Code :=
  match v with
  | VCode c => ret c
  | VHost _ => unmodelled "attribute of a host object"
  | _ => raise AttributeError ("'" +:+ type_name v
                               +:+ "' object has no attribute '" +:+ attr +:+ "'")
  end.

(** [closure[i]] on a truthy [closure] *)
Definition closure_getitem (closure : Value) (i : nat) : M Value :=
  match closure with
  | VTuple vs => of_option (vs !! i) IndexError "tuple index out of range"
  | VList l => vs <- list_at l ;;
               of_option (vs !! i) IndexError "list index out of range"
  | VStr _ | VDict _ | VIter _ | VHost _ =>
      unmodelled "closure that is not a tuple or list"
  | _ => raise TypeError ("'" +:+ type_name closure
                          +:+ "' object is not subscriptable")
  end.

(** The number of native cells that the generator
    [true_cell(0) for _ in closure] yields. *)
Definition closure_length (closure : Value) : M nat :=
  match closure with
  | VTuple vs => ret (length vs)
  | VList l => vs <- list_at l ;; ret (length vs)
  | VStr _ | VDict _ | VIter _ | VHost _ =>
      unmodelled "closure that is not a tuple or list"
  | _ => not_iterable closure
  end.

(** The loop [for i in range(len(co_freevars)): func_closure[...] = closure[i]] *)
Fixpoint bind_closure (freevars : list string) (closure : Value) (i : nat)
    (acc : list (string * Value)) : M (list (string * Value)) :=
  match freevars with
  | [] => ret acc
  | name :: rest =>
      v <- closure_getitem closure i ;;
      bind_closure rest closure (S i) (alist_set name v acc)
  end.

(** [Function(name, code_obj, defaults, closure, vm)].  The native
    function [_func] is used by [__call__] only through [getcallargs],
    which reads the code object and the defaults: the checks that
    [types.FunctionType] makes when it is built are kept, the object is
    not. *)
Definition Function_init (name code_v defaults closure : Value) : M Function :=
  named <- py_truth name ;;
  fname <- (if named : bool then ret name
            else c <- as_code code_v "co_name" ;; ret (VStr (co_name c))) ;;
  fdefaults <- py_tuple defaults ;;
  fr <- get_frame "f_globals" ;;
  captured <- py_truth closure ;;
  fclosure <- (if captured : bool
               then c <- as_code code_v "co_freevars" ;;
                    bind_closure (co_freevars c) closure 0 []
               else ret []) ;;
  ncells <- (if captured : bool
             then n <- closure_length closure ;; ret (Some n)
             else ret None) ;;
  match code_v with
  | VCode c =>
      let nfree := length (co_freevars c) in
      match ncells with
      | None =>
          if bool_decide (nfree = 0%nat)
          then ret (mkFunction fname c fdefaults (f_globals fr) (f_locals fr) fclosure)
          else raise TypeError "arg 5 (closure) must be tuple"
      | Some n =>
          if bool_decide (nfree = n)
          then ret (mkFunction fname c fdefaults (f_globals fr) (f_locals fr) fclosure)
          else raise ValueError (co_name c +:+ " requires closure of length "
                                 +:+ pretty nfree +:+ ", not " +:+ pretty n)
      end
  | VHost _ => unmodelled "attribute of a host object"
  | _ => raise TypeError "function() argument 'code' must be code"
  end.

(** ** Frames: [Frame.__init__], [make_frame], [push_frame], [pop_frame] *)

(** [self.cells[i] = local_names[i]] for each name, in order. *)
Fixpoint bind_cells (names : list string) (local_names : gmap string Value)
    (acc : list (string * Value)) : M (list (string * Value)) :=
  match names with
  | [] => ret acc
  | i :: rest =>
      v <- of_option (local_names !! i) KeyError ("'" +:+ i +:+ "'") ;;
      bind_cells rest local_names (alist_set i v acc)
  end.

Definition Frame_init (code : Code) (global_names local_names : loc)
    (prev_frame : option Frame) : M Frame :=
  bn <- match prev_frame with
        | Some prev => ret (builtin_names prev)
        | None =>
            d <- dict_at local_names ;;
            b <- of_option (d !! "__builtins__") KeyError "'__builtins__'" ;;
            match b with
            | VModule m => ret (VDict m)
            | VHost _ => unmodelled "attribute of a host object"
            | _ => ret b
            end
        end ;;
  d <- dict_at local_names ;;
  cs <- bind_cells (co_cellvars code) d [] ;;
  cs <- bind_cells (co_freevars code) d cs ;;
  ret (mkFrame code global_names local_names bn cs [] 0).

(** The name space that [make_frame] builds when none is given. *)
Definition seed_names : gmap string Value :=
  <["__package__" := VNone]> (<["__doc__" := VNone]>
    (<["__name__" := VStr "__main__"]> (<["__builtins__" := builtins]> ∅))).

Definition make_frame (code : Code) (closure call_args : list (string * Value))
    (global_names local_names : option loc) : M Frame :=
  vm <- get_vm ;;
  names <-
    match global_names with
    | Some g =>
        match local_names with
        | None => ret (g, g)
        | Some l => ret (g, l)
        end
    | None =>
        if negb (bool_decide (length (frames vm) = 0%nat))
        then
          _ <- get_frame "global_names" ;;
          raise AttributeError "'Frame' object has no attribute 'global_names'"
        else
          l <- alloc (HDict seed_names) ;; ret (l, l)
    end ;;
  let g := fst names in
  let l := snd names in
  dict_update l call_args ;;;
  dict_update l closure ;;;
  vm <- get_vm ;;
  Frame_init code g l (vm_frame vm).

Definition push_frame (frame : Frame) : M unit :=
  fun vm => (Ok tt, mkVM (frames vm ++ [frame]) (return_value vm)
                         (last_exception vm) (heap vm) (stdout vm)).

Definition pop_frame : M unit :=
  fun vm =>
    match frames vm with
    | [] => (Raise (NewExc IndexError "pop from empty list"), vm)
    | _ => (Ok tt, mkVM (removelast (frames vm)) (return_value vm)
                        (last_exception vm) (heap vm) (stdout vm))
    end.

(** ** Instruction handlers *)

Definition as_name (v : Value) : M string :=
  match v with
  | VStr s => ret s
  | _ => unmodelled "name operand that is not a str"
  end.

Definition as_int (v : Value) : M Z :=
  match v with
  | VInt n => ret n
  | _ => unmodelled "integer operand that is not an int"
  end.

Definition none : M (option string) := ret None.

Definition inst_LOAD_CONST (val : Value) : M (option string) :=
  push [val] ;;; none.

Definition inst_POP_TOP : M (option string) :=
  pop ;;; none.

Definition inst_DUP_TOP : M (option string) :=
  v <- top ;; push [v] ;;; none.

Definition inst_DUP_TOP_TWO : M (option string) :=
  vals <- popn 2 ;;
  xy <- unpack2 vals ;;
  push [fst xy; snd xy; fst xy; snd xy] ;;; none.

(** [name in frame.builtin_names] and [frame.builtin_names[name]] *)
Definition builtin_lookup (bn : Value) (name : string) : M (option Value) :=
  match bn with
  | VDict l => d <- dict_at l ;; ret (d !! name)
  | _ => unmodelled "builtin name space that is not a dict"
  end.

Definition inst_LOAD_NAME (name : Value) : M (option string) :=
  name <- as_name name ;;
  frame <- get_frame "f_locals" ;;
  locals <- dict_at (f_locals frame) ;;
  val <- match locals !! name with
         | Some val => ret val
         | None =>
             globals <- dict_at (f_globals frame) ;;
             match globals !! name with
             | Some val => ret val
             | None =>
                 b <- builtin_lookup (builtin_names frame) name ;;
                 match b with
                 | Some val => ret val
                 | None => raise NameError
                             ("name '" +:+ name +:+ "' is not defined")
                 end
             end
         end ;;
  push [val] ;;; none.

Definition inst_STORE_NAME (name : Value) : M (option string) :=
  name <- as_name name ;;
  v <- pop ;;
  frame <- get_frame "f_locals" ;;
  dict_store (f_locals frame) name v ;;; none.

(** [d.pop(name)] on the dict object at [l] *)
Definition dict_pop (l : loc) (name : string) : M Value :=
  d <- dict_at l ;;
  match d !! name with
  | Some v => heap_set l (HDict (delete name d)) ;;; ret v
  | None => raise KeyError ("'" +:+ name +:+ "'")
  end.

Definition inst_DELETE_NAME (name : Value) : M (option string) :=
  name <- as_name name ;;
  frame <- get_frame "f_locals" ;;
  dict_pop (f_locals frame) name ;;; none.

Definition inst_LOAD_FAST (name : Value) : M (option string) :=
  name <- as_name name ;;
  let name := match name with
              | String "."%char rest => "implicit" +:+ rest
              | _ => name
              end in
  frame <- get_frame "f_locals" ;;
  locals <- dict_at (f_locals frame) ;;
  val <- match locals !! name with
         | Some val => ret val
         | None => raise UnboundLocalError
                     ("local variable '" +:+ name
                      +:+ "' referenced before assignment")
         end ;;
  push [val] ;;; none.

Definition inst_STORE_FAST (name : Value) : M (option string) :=
  name <- as_name name ;;
  v <- pop ;;
  frame <- get_frame "f_locals" ;;
  dict_store (f_locals frame) name v ;;; none.

Definition inst_GET_ITER : M (option string) :=
  v <- pop ;; it <- py_iter v ;; push [it] ;;; none.

Definition jump (target : Value) : M unit :=
  frame <- get_frame "last_instruction" ;;
  pc <- as_int target ;;
  put_frame (set_last_instruction pc frame).

Definition inst_FOR_ITER (target : Value) : M (option string) :=
  v <- top ;;
  TOS <- py_iter v ;;
  nxt <- py_next TOS ;;
  match nxt with
  | Some x => push [x] ;;; none
  | None =>
      pop ;;;
      j <- as_int target ;;
      jump (VInt (j + 1)) ;;; none
  end.

Definition inst_LOAD_GLOBAL (name : Value) : M (option string) :=
  name <- as_name name ;;
  f <- get_frame "f_globals" ;;
  globals <- dict_at (f_globals f) ;;
  val <- match globals !! name with
         | Some val => ret val
         | None =>
             b <- builtin_lookup (builtin_names f) name ;;
             match b with
             | Some val => ret val
             | None => raise NameError
                         ("global name '" +:+ name +:+ "' is not defined")
             end
         end ;;
  push [val] ;;; none.

Definition py_reversed (v : Value) : M (list Value) :=
  match v with
  | VTuple vs => ret (reverse vs)
  | VList l => vs <- list_at l ;; ret (reverse vs)
  | VStr _ | VDict _ | VHost _ => unmodelled "reversed() of str, dict or host object"
  | _ => raise TypeError ("'" +:+ type_name v +:+ "' object is not reversible")
  end.

Fixpoint push_each (vals : list Value) : M unit :=
  match vals with
  | [] => ret tt
  | x :: rest => push [x] ;;; push_each rest
  end.

Definition inst_UNPACK_SEQUENCE (count : Value) : M (option string) :=
  args <- pop ;;
  vals <- py_reversed args ;;
  push_each vals ;;; none.

Definition inst_STORE_GLOBAL (name : Value) : M (option string) :=
  name <- as_name name ;;
  v <- pop ;;
  frame <- get_frame "f_globals" ;;
  dict_store (f_globals frame) name v ;;; none.

Definition inst_DELETE_GLOBAL (name : Value) : M (option string) :=
  name <- as_name name ;;
  frame <- get_frame "f_globals" ;;
  dict_pop (f_globals frame) name ;;; none.

Definition inst_LOAD_METHOD (name : Value) : M (option string) :=
  pop ;;; unmodelled "getattr".

(** [obj[key] = val] *)
Definition py_setitem (obj key val : Value) : M unit :=
  match obj, key with
  | VList l, VInt i =>
      vs <- list_at l ;;
      let len := Z.of_nat (length vs) in
      if bool_decide (- len <= i < len)
      then heap_set l (HList (<[Z.to_nat (if bool_decide (i < 0) then len + i else i)
                                 := val]> vs))
      else raise IndexError "list assignment index out of range"
  | VDict l, VStr k => dict_store l k val
  | VList _, _ | VDict _, _ | VHost _, _ => unmodelled "item assignment"
  | _, _ => raise TypeError ("'" +:+ type_name obj
                             +:+ "' object does not support item assignment")
  end.

Definition inst_STORE_SUBSCR : M (option string) :=
  vals <- popn 3 ;;
  t <- unpack3 vals ;;
  py_setitem (snd (fst t)) (snd t) (fst (fst t)) ;;; none.

Definition inst_LOAD_ATTR (attr : Value) : M (option string) :=
  pop ;;; unmodelled "getattr".

Definition inst_STORE_ATTR (name : Value) : M (option string) :=
  vals <- popn 2 ;; unpack2 vals ;;; unmodelled "setattr".

Definition inst_DELETE_ATTR (name : Value) : M (option string) :=
  pop ;;; unmodelled "delattr".

Definition inst_BUILD_LIST (count : Value) : M (option string) :=
  n <- as_int count ;;
  args <- popn n ;;
  l <- alloc (HList args) ;;
  push [VList l] ;;; none.

Definition inst_BUILD_TUPLE (count : Value) : M (option string) :=
  n <- as_int count ;;
  args <- popn n ;;
  push [VTuple args] ;;; none.

Definition inst_BUILD_SET (count : Value) : M (option string) :=
  n <- as_int count ;;
  popn n ;;; unmodelled "set".

Definition inst_BUILD_MAP (size : Value) : M (option string) :=
  l <- alloc (HDict ∅) ;;
  push [VDict l] ;;; none.

Definition inst_LOAD_BUILD_CLASS : M (option string) :=
  push [VHost "__build_class__"] ;;; none.

Definition inst_STORE_MAP : M (option string) :=
  vals <- popn 3 ;;
  t <- unpack3 vals ;;
  py_setitem (fst (fst t)) (snd t) (snd (fst t)) ;;;
  push [fst (fst t)] ;;; none.

Definition inst_LIST_APPEND (count : Value) : M (option string) :=
  val <- pop ;;
  n <- as_int count ;;
  frame <- get_frame "stack" ;;
  tar_list <- of_option (py_index (stack frame) (- n))
                        IndexError "list index out of range" ;;
  match tar_list with
  | VList l => vs <- list_at l ;; heap_set l (HList (vs ++ [val])) ;;; none
  | VHost _ => unmodelled "attribute of a host object"
  | _ => raise AttributeError ("'" +:+ type_name tar_list
                               +:+ "' object has no attribute 'append'")
  end.

Definition inst_IMPORT_NAME (name : Value) : M (option string) :=
  vals <- popn 2 ;; unpack2 vals ;;; unmodelled "__import__".

Definition inst_IMPORT_FROM (name : Value) : M (option string) :=
  top ;;; unmodelled "getattr".

Definition binaryOperator (op : string) : M unit :=
  vals <- popn 2 ;;
  xy <- unpack2 vals ;;
  match BINARY_OPERATORS op with
  | Some f => v <- py_binop f (fst xy) (snd xy) ;; push [v]
  | None => raise KeyError ("'" +:+ op +:+ "'")
  end.

Definition inst_COMPARE_OP (op : Value) : M (option string) :=
  vals <- popn 2 ;;
  xy <- unpack2 vals ;;
  i <- as_int op ;;
  f <- of_option (py_index COMPARE_OPERATORS i)
                 IndexError "list index out of range" ;;
  v <- py_compare f (fst xy) (snd xy) ;;
  push [v] ;;; none.

Definition inplaceOperator (op : string) : M unit :=
  vals <- popn 2 ;;
  xy <- unpack2 vals ;;
  match inplace_statement op with
  | Some f => x <- f (fst xy) (snd xy) ;; push [x]
  | None => raise VirtualMachineError ("Unknown in-place operator: '" +:+ op +:+ "'")
  end.

Definition inst_JUMP_FORWARD (target : Value) : M (option string) :=
  jump target ;;; none.

Definition inst_JUMP_ABSOLUTE (target : Value) : M (option string) :=
  jump target ;;; none.

Definition inst_POP_JUMP_IF_TRUE (target : Value) : M (option string) :=
  val <- pop ;;
  b <- py_truth val ;;
  if b : bool then jump target ;;; none else none.

Definition inst_POP_JUMP_IF_FALSE (target : Value) : M (option string) :=
  val <- pop ;;
  b <- py_truth val ;;
  if b : bool then none else jump target ;;; none.

(** [flags == 0x08] *)
Definition is_closure_flag (flags : Value) : bool :=
  match flags with VInt n => Z.eqb n 8 | _ => false end.

(** The fresh list [[]] bound to [defaults] is only ever read by
    [tuple(defaults)]; the empty tuple stands for it. *)
Definition inst_MAKE_FUNCTION (flags : Value) : M (option string) :=
  name <- pop ;;
  code <- pop ;;
  cd <- (if is_host flags then unmodelled "comparison with a host object"
         else if is_closure_flag flags
         then closure <- pop ;; ret (closure, VTuple [])
         else
           given <- py_truth flags ;;
           if given : bool
           then defaults <- pop ;; ret (VNone, defaults)
           else ret (VNone, VTuple [])) ;;
  fn <- Function_init name code (snd cd) (fst cd) ;;
  push [VFunction fn] ;;; none.

Definition inst_LOAD_CLOSURE (i : Value) : M (option string) :=
  i <- as_int i ;;
  frame <- get_frame "code_obj" ;;
  let code := code_obj frame in
  let ncell := Z.of_nat (length (co_cellvars code)) in
  name <- (if bool_decide (i < ncell)
           then of_option (py_index (co_cellvars code) i)
                          IndexError "tuple index out of range"
           else of_option (py_index (co_freevars code) (i - ncell))
                          IndexError "tuple index out of range") ;;
  locals <- dict_at (f_locals frame) ;;
  val <- of_option (locals !! name) KeyError ("'" +:+ name +:+ "'") ;;
  push [val] ;;; none.

Definition inst_LOAD_DEREF (i : Value) : M (option string) :=
  i <- as_int i ;;
  frame <- get_frame "code_obj" ;;
  name <- of_option (py_index (co_freevars (code_obj frame)) i)
                    IndexError "tuple index out of range" ;;
  val <- of_option (alist_get name (cells frame)) KeyError ("'" +:+ name +:+ "'") ;;
  push [val] ;;; none.

Definition set_return_value (v : Value) : M unit :=
  fun vm => (Ok tt, mkVM (frames vm) v (last_exception vm) (heap vm) (stdout vm)).

Definition inst_RETURN_VALUE : M (option string) :=
  v <- pop ;;
  set_return_value v ;;;
  ret (Some "return").

Definition write_stdout (s : string) : M unit :=
  fun vm => (Ok tt, mkVM (frames vm) (return_value vm) (last_exception vm)
                         (heap vm) (stdout vm ++ [s])).

Definition inst_PRINT_ITEM : M (option string) :=
  item <- pop ;;
  s <- py_str item ;;
  write_stdout s ;;; none.

Definition newline : string := String "010"%char "".

Definition inst_PRINT_NEWLINE : M (option string) :=
  write_stdout newline ;;; none.

Section Dispatch.

(** The call [func(args..., kwargs...)] of a value of the operand stack: calling a
    [Function] re-enters [run_frame], so the handlers that call are
    written against this entry point. *)
Variable invoke : Value -> list Value -> list (string * Value) -> M Value.

Definition inst_CALL_METHOD (arg : Value) : M (option string) :=
  n <- as_int arg ;;
  pos_args <- popn n ;;
  func <- pop ;;
  retval <- invoke func pos_args [] ;;
  push [retval] ;;; none.

Definition inst_CALL_FUNCTION (arg : Value) : M (option string) :=
  name <- pop ;;
  arg_func <- pop ;;
  func <- pop ;;
  retval <- invoke func [arg_func; name] [] ;;
  push [retval] ;;; none.

(** [for i in names: kwargs[i] = self.pop()] *)
Fixpoint pop_kwargs (names : list Value) (kwargs : list (string * Value))
  : M (list (string * Value)) :=
  match names with
  | [] => ret kwargs
  | i :: rest =>
      v <- pop ;;
      k <- as_name i ;;
      pop_kwargs rest (alist_set k v kwargs)
  end.

(** The slice [v[::-1]] *)
Definition py_reverse_slice (v : Value) : M (list Value) :=
  match v with
  | VTuple vs => ret (reverse vs)
  | VList l => vs <- list_at l ;; ret (reverse vs)
  | VStr _ | VDict _ | VHost _ => unmodelled "slice of str, dict or host object"
  | _ => raise TypeError ("'" +:+ type_name v +:+ "' object is not subscriptable")
  end.

Definition inst_CALL_FUNCTION_KW (argc : Value) : M (option string) :=
  kwargs_name <- pop ;;
  names <- py_reverse_slice kwargs_name ;;
  kwargs <- pop_kwargs names [] ;;
  n <- as_int argc ;;
  posargs <- popn (n - Z.of_nat (length kwargs)) ;;
  func <- pop ;;
  retval <- invoke func posargs kwargs ;;
  push [retval] ;;; none.

(** A bound method [inst_X] of the machine, by the number of operands
    it takes. *)
Inductive Handler :=
| Nullary (h : M (option string))
| Unary (h : Value -> M (option string)).

(** [getattr(self, 'inst_%s' % inst_name, None)] *)
Definition handlers : list (string * Handler) :=
  [ ("LOAD_CONST", Unary inst_LOAD_CONST); ("POP_TOP", Nullary inst_POP_TOP);
    ("DUP_TOP", Nullary inst_DUP_TOP); ("DUP_TOP_TWO", Nullary inst_DUP_TOP_TWO);
    ("LOAD_NAME", Unary inst_LOAD_NAME); ("STORE_NAME", Unary inst_STORE_NAME);
    ("DELETE_NAME", Unary inst_DELETE_NAME); ("LOAD_FAST", Unary inst_LOAD_FAST);
    ("STORE_FAST", Unary inst_STORE_FAST); ("GET_ITER", Nullary inst_GET_ITER);
    ("FOR_ITER", Unary inst_FOR_ITER); ("LOAD_GLOBAL", Unary inst_LOAD_GLOBAL);
    ("UNPACK_SEQUENCE", Unary inst_UNPACK_SEQUENCE);
    ("STORE_GLOBAL", Unary inst_STORE_GLOBAL);
    ("DELETE_GLOBAL", Unary inst_DELETE_GLOBAL);
    ("LOAD_METHOD", Unary inst_LOAD_METHOD); ("CALL_METHOD", Unary inst_CALL_METHOD);
    ("STORE_SUBSCR", Nullary inst_STORE_SUBSCR); ("LOAD_ATTR", Unary inst_LOAD_ATTR);
    ("STORE_ATTR", Unary inst_STORE_ATTR); ("DELETE_ATTR", Unary inst_DELETE_ATTR);
    ("BUILD_LIST", Unary inst_BUILD_LIST); ("BUILD_TUPLE", Unary inst_BUILD_TUPLE);
    ("BUILD_SET", Unary inst_BUILD_SET); ("BUILD_MAP", Unary inst_BUILD_MAP);
    ("LOAD_BUILD_CLASS", Nullary inst_LOAD_BUILD_CLASS);
    ("STORE_MAP", Nullary inst_STORE_MAP); ("LIST_APPEND", Unary inst_LIST_APPEND);
    ("IMPORT_NAME", Unary inst_IMPORT_NAME); ("IMPORT_FROM", Unary inst_IMPORT_FROM);
    ("COMPARE_OP", Unary inst_COMPARE_OP); ("JUMP_FORWARD", Unary inst_JUMP_FORWARD);
    ("JUMP_ABSOLUTE", Unary inst_JUMP_ABSOLUTE);
    ("POP_JUMP_IF_TRUE", Unary inst_POP_JUMP_IF_TRUE);
    ("POP_JUMP_IF_FALSE", Unary inst_POP_JUMP_IF_FALSE);
    ("MAKE_FUNCTION", Unary inst_MAKE_FUNCTION);
    ("CALL_FUNCTION", Unary inst_CALL_FUNCTION);
    ("CALL_FUNCTION_KW", Unary inst_CALL_FUNCTION_KW);
    ("LOAD_CLOSURE", Unary inst_LOAD_CLOSURE); ("LOAD_DEREF", Unary inst_LOAD_DEREF);
    ("RETURN_VALUE", Nullary inst_RETURN_VALUE);
    ("PRINT_ITEM", Nullary inst_PRINT_ITEM);
    ("PRINT_NEWLINE", Nullary inst_PRINT_NEWLINE) ].

Fixpoint bytecode_fn_in (table : list (string * Handler)) (inst_name : string)
  : option Handler :=
  match table with
  | [] => None
  | (n, h) :: rest =>
      if String.eqb inst_name n then Some h else bytecode_fn_in rest inst_name
  end.

Definition bytecode_fn : string -> option Handler := bytecode_fn_in handlers.

(** The call of [bytecode_fn] on the unpacked [argument] list *)
Definition apply_handler (h : Handler) (argument : list Value)
  : M (option string) :=
  match h, argument with
  | Nullary m, [] => m
  | Unary f, [a] => f a
  | Nullary _, _ =>
      raise TypeError "handler takes 1 positional argument but 2 were given"
  | Unary _, [] =>
      raise TypeError "handler missing 1 required positional argument"
  | Unary _, _ =>
      raise TypeError "handler takes 2 positional arguments but more were given"
  end.

(** [s.startswith(p)] together with the slice [s[len(p):]] *)
Fixpoint strip_prefix (p s : string) : option string :=
  match p with
  | EmptyString => Some s
  | String a p' =>
      match s with
      | String b s' => if Ascii.eqb a b then strip_prefix p' s' else None
      | EmptyString => None
      end
  end.

(** The body of the [try] block of [dispatch] *)
Definition dispatch_body (inst_name : string) (argument : list Value)
  : M (option string) :=
  match bytecode_fn inst_name with
  | None =>
      match strip_prefix "INPLACE_" inst_name with
      | Some op => inplaceOperator op ;;; none
      | None =>
          match strip_prefix "UNARY_" inst_name with
          | Some op =>
              raise AttributeError
                "'VirtualMachine' object has no attribute 'unaryOperator'"
          | None =>
              match strip_prefix "BINARY_" inst_name with
              | Some op => binaryOperator op ;;; none
              | None =>
                  if String.eqb inst_name "<0>" then ret (Some "end_of_file")
                  else raise VirtualMachineError
                         ("unsupported bytecode type: " +:+ inst_name)
              end
          end
      end
  | Some h => apply_handler h argument
  end.

Definition record_exception (e : PyExc) (vm : VirtualMachine) : VirtualMachine :=
  mkVM (frames vm) (return_value vm) (Some (exc_kind e, e, None))
       (heap vm) (stdout vm).

(** [dispatch]: the bare [except] turns every raised exception into
    the result ["exception"] and records (class, instance, None). *)
Definition dispatch (inst_name : string) (argument : list Value)
  : M (option string) :=
  fun vm =>
    match dispatch_body inst_name argument vm with
    | (Raise e, vm') => (Ok (Some "exception"), record_exception e vm')
    | r => r
    end.

End Dispatch.

(** ** Decoding: the [dis] tables and [parse_inst_and_args] *)

(** What the engine reads from the host's [dis] module. *)
Record DisModule := mkDis {
  opname : Z -> string;
  HAVE_ARGUMENT : Z;
  hasconst : list Z;
  hasname : list Z;
  haslocal : list Z;
  hasjrel : list Z
}.

Definition set_pc (pc : Z) : M unit :=
  f <- get_frame "last_instruction" ;;
  put_frame (set_last_instruction pc f).

Section Run.

Variable dis : DisModule.

Definition parse_inst_and_args : M (string * list Value) :=
  f <- get_frame "last_instruction" ;;
  let code := code_obj f in
  let opoffset := last_instruction f in
  byteCode <- of_option (py_index (co_code code) opoffset)
                        IndexError "index out of range" ;;
  let inst_name := opname dis byteCode in
  set_pc (opoffset + 1) ;;;
  argument <-
    (if bool_decide (HAVE_ARGUMENT dis <= byteCode)
     then
       arg_val <- of_option (py_index (co_code code) (opoffset + 1))
                            IndexError "index out of range" ;;
       arg <- (if bool_decide (byteCode ∈ hasconst dis)
               then of_option (py_index (co_consts code) arg_val)
                              IndexError "tuple index out of range"
               else if bool_decide (byteCode ∈ hasname dis)
               then n <- of_option (py_index (co_names code) arg_val)
                                   IndexError "tuple index out of range" ;;
                    ret (VStr n)
               else if bool_decide (byteCode ∈ haslocal dis)
               then n <- of_option (py_index (co_varnames code) arg_val)
                                   IndexError "tuple index out of range" ;;
                    ret (VStr n)
               else if bool_decide (byteCode ∈ hasjrel dis)
               then ret (VInt (opoffset + 1 + arg_val))
               else ret (VInt arg_val)) ;;
       ret [arg]
     else ret []) ;;
  set_pc (opoffset + 2) ;;;
  ret (inst_name, argument).

(** One cycle of the loop of [run_frame]: decode, then dispatch. *)
Definition cycle (invoke : Value -> list Value -> list (string * Value) -> M Value)
  : M (option string) :=
  ia <- parse_inst_and_args ;;
  dispatch invoke (fst ia) (snd ia).

(** The [while True] loop of [run_frame]: one cycle after the other,
    until [dispatch] yields a result. *)
Fixpoint run_loop (invoke : Value -> list Value -> list (string * Value) -> M Value)
    (fuel : nat) : M string :=
  match fuel with
  | O => out_of_fuel
  | S k =>
      res <- cycle invoke ;;
      match res with
      | Some r => ret r
      | None => run_loop invoke k
      end
  end.

(** [n] cycles in a row, whatever they yield; the result is that of
    the last one. *)
Fixpoint cycles (invoke : Value -> list Value -> list (string * Value) -> M Value)
    (n : nat) : M (option string) :=
  match n with
  | O => none
  | S O => cycle invoke
  | S k => cycle invoke ;;; cycles invoke k
  end.

(** [Function.__call__], given the machine's [run_frame] *)
Definition Function_call (run_frame : Frame -> M Value) (fn : Function)
    (args : list Value) (kwargs : list (string * Value)) : M Value :=
  call_args <- getcallargs (func_code fn) (func_defaults fn) args kwargs ;;
  locals <- alloc (HDict ∅) ;;
  frame <- make_frame (func_code fn) (func_closure fn) call_args
                      (Some (func_globals fn)) (Some locals) ;;
  run_frame frame.

Definition invoke_with (run_frame : Frame -> M Value) (func : Value)
    (args : list Value) (kwargs : list (string * Value)) : M Value :=
  match func with
  | VFunction fn => Function_call run_frame fn args kwargs
  | VHost _ => unmodelled "call of a host object"
  | _ => raise TypeError ("'" +:+ type_name func +:+ "' object is not callable")
  end.

(** [run_frame]: push the frame, run it until [dispatch] yields a
    result, pop it, then re-raise the recorded exception or return
    [return_value].  An exception of [parse_inst_and_args] is not
    caught: it leaves [run_frame] before [pop_frame].

    The engine calls itself natively ([run_frame], [dispatch], the call
    handler, [Function.__call__], [run_frame]); here the nesting is
    bounded by [fuel] alone.  The recursion limit of the host, and the
    RecursionError that it raises in a run nested deeper than it allows,
    are not represented: what is stated below about a run holds of the
    runs that stay within that limit. *)
Fixpoint run_frame (fuel : nat) (frame : Frame) : M Value :=
  match fuel with
  | O => out_of_fuel
  | S k =>
      push_frame frame ;;;
      res <- run_loop (invoke_with (run_frame k)) k ;;
      pop_frame ;;;
      if String.eqb res "exception"
      then
        vm <- get_vm ;;
        match last_exception vm with
        | Some (exc, val, tb) => fun vm => (Raise (ReExc exc val), vm)
        | None => raise TypeError "cannot unpack non-iterable NoneType object"
        end
      else
        vm <- get_vm ;; ret (return_value vm)
  end.

Definition invoke (fuel : nat) : Value -> list Value -> list (string * Value) -> M Value :=
  invoke_with (run_frame fuel).

Definition run_code (fuel : nat) (code : Code) (global_names local_names : option loc)
  : M unit :=
  frame <- make_frame code [] [] global_names local_names ;;
  run_frame fuel frame ;;; ret tt.

End Run.

(** The tables of CPython 3.8's [dis]. *)
Definition opname38 (op : Z) : string :=
  match op with
  | 1 => "POP_TOP" | 2 => "ROT_TWO" | 3 => "ROT_THREE" | 4 => "DUP_TOP"
  | 5 => "DUP_TOP_TWO" | 6 => "ROT_FOUR" | 9 => "NOP"
  | 10 => "UNARY_POSITIVE" | 11 => "UNARY_NEGATIVE" | 12 => "UNARY_NOT"
  | 15 => "UNARY_INVERT" | 16 => "BINARY_MATRIX_MULTIPLY"
  | 17 => "INPLACE_MATRIX_MULTIPLY" | 19 => "BINARY_POWER"
  | 20 => "BINARY_MULTIPLY" | 22 => "BINARY_MODULO" | 23 => "BINARY_ADD"
  | 24 => "BINARY_SUBTRACT" | 25 => "BINARY_SUBSCR"
  | 26 => "BINARY_FLOOR_DIVIDE" | 27 => "BINARY_TRUE_DIVIDE"
  | 28 => "INPLACE_FLOOR_DIVIDE" | 29 => "INPLACE_TRUE_DIVIDE"
  | 50 => "GET_AITER" | 51 => "GET_ANEXT" | 52 => "BEFORE_ASYNC_WITH"
  | 53 => "BEGIN_FINALLY" | 54 => "END_ASYNC_FOR" | 55 => "INPLACE_ADD"
  | 56 => "INPLACE_SUBTRACT" | 57 => "INPLACE_MULTIPLY"
  | 59 => "INPLACE_MODULO" | 60 => "STORE_SUBSCR" | 61 => "DELETE_SUBSCR"
  | 62 => "BINARY_LSHIFT" | 63 => "BINARY_RSHIFT" | 64 => "BINARY_AND"
  | 65 => "BINARY_XOR" | 66 => "BINARY_OR" | 67 => "INPLACE_POWER"
  | 68 => "GET_ITER" | 69 => "GET_YIELD_FROM_ITER" | 70 => "PRINT_EXPR"
  | 71 => "LOAD_BUILD_CLASS" | 72 => "YIELD_FROM" | 73 => "GET_AWAITABLE"
  | 75 => "INPLACE_LSHIFT" | 76 => "INPLACE_RSHIFT" | 77 => "INPLACE_AND"
  | 78 => "INPLACE_XOR" | 79 => "INPLACE_OR" | 81 => "WITH_CLEANUP_START"
  | 82 => "WITH_CLEANUP_FINISH" | 83 => "RETURN_VALUE" | 84 => "IMPORT_STAR"
  | 85 => "SETUP_ANNOTATIONS" | 86 => "YIELD_VALUE" | 87 => "POP_BLOCK"
  | 88 => "END_FINALLY" | 89 => "POP_EXCEPT" | 90 => "STORE_NAME"
  | 91 => "DELETE_NAME" | 92 => "UNPACK_SEQUENCE" | 93 => "FOR_ITER"
  | 94 => "UNPACK_EX" | 95 => "STORE_ATTR" | 96 => "DELETE_ATTR"
  | 97 => "STORE_GLOBAL" | 98 => "DELETE_GLOBAL" | 100 => "LOAD_CONST"
  | 101 => "LOAD_NAME" | 102 => "BUILD_TUPLE" | 103 => "BUILD_LIST"
  | 104 => "BUILD_SET" | 105 => "BUILD_MAP" | 106 => "LOAD_ATTR"
  | 107 => "COMPARE_OP" | 108 => "IMPORT_NAME" | 109 => "IMPORT_FROM"
  | 110 => "JUMP_FORWARD" | 111 => "JUMP_IF_FALSE_OR_POP"
  | 112 => "JUMP_IF_TRUE_OR_POP" | 113 => "JUMP_ABSOLUTE"
  | 114 => "POP_JUMP_IF_FALSE" | 115 => "POP_JUMP_IF_TRUE"
  | 116 => "LOAD_GLOBAL" | 122 => "SETUP_FINALLY" | 124 => "LOAD_FAST"
  | 125 => "STORE_FAST" | 126 => "DELETE_FAST" | 130 => "RAISE_VARARGS"
  | 131 => "CALL_FUNCTION" | 132 => "MAKE_FUNCTION" | 133 => "BUILD_SLICE"
  | 135 => "LOAD_CLOSURE" | 136 => "LOAD_DEREF" | 137 => "STORE_DEREF"
  | 138 => "DELETE_DEREF" | 141 => "CALL_FUNCTION_KW"
  | 142 => "CALL_FUNCTION_EX" | 143 => "SETUP_WITH" | 144 => "EXTENDED_ARG"
  | 145 => "LIST_APPEND" | 146 => "SET_ADD" | 147 => "MAP_ADD"
  | 148 => "LOAD_CLASSDEREF" | 149 => "BUILD_LIST_UNPACK"
  | 150 => "BUILD_MAP_UNPACK" | 151 => "BUILD_MAP_UNPACK_WITH_CALL"
  | 152 => "BUILD_TUPLE_UNPACK" | 153 => "BUILD_SET_UNPACK"
  | 154 => "SETUP_ASYNC_WITH" | 155 => "FORMAT_VALUE"
  | 156 => "BUILD_CONST_KEY_MAP" | 157 => "BUILD_STRING"
  | 158 => "BUILD_TUPLE_UNPACK_WITH_CALL" | 160 => "LOAD_METHOD"
  | 161 => "CALL_METHOD" | 162 => "CALL_FINALLY" | 163 => "POP_FINALLY"
  | _ => "<" +:+ pretty op +:+ ">"
  end.

Definition dis38 : DisModule :=
  mkDis opname38 90 [100]
        [90; 91; 95; 96; 97; 98; 101; 106; 108; 109; 116; 160]
        [124; 125; 126]
        [93; 110; 122; 143; 154; 162].

(** [VirtualMachine.__init__], on a host whose builtins module holds
    [host_builtins] *)
Definition VirtualMachine_init (host_builtins : gmap string Value) : VirtualMachine :=
  mkVM [] VNone None [HDict host_builtins] ["===PyByterun===" +:+ newline].

(** The fault that [x, y = self.popn(2)] raises on a one-element stack. *)
Definition underflow_fault : PyExc :=
  NewExc ValueError "not enough values to unpack (expected 2, got 1)".

(** ** Programs and machines used below

    Code objects are written as CPython 3.8 compiles the source quoted
    with each of them: two bytes per instruction, opcode then operand. *)

(** A machine in the middle of a module: one active frame holding [7],
    the module name space at location 1. *)
Definition sample_code : Code := mkCode "<module>" 0 [] [] [] [] [] [].
Definition sample_frame : Frame :=
  mkFrame sample_code 1 1 (VDict 0) [] [VInt 7] 0.
Definition sample_vm : VirtualMachine :=
  mkVM [sample_frame] VNone None
       [HDict (<["len" := VHost "len"]> ∅); HDict (<["x" := VInt 1]> seed_names)] [].

(** The machine right after [VirtualMachine()], on a host without builtins. *)
Definition fresh_vm : VirtualMachine := VirtualMachine_init ∅.

(** [def inner(a, b): return count], [count] free *)
Definition reader_inner : Code :=
  mkCode "inner" 2 [136; 0; 83; 0] [VNone] [] ["a"; "b"] [] ["count"].

(** [def outer(count, _): def inner(a, b): ...; return inner] *)
Definition outer_of (inner : Code) : Code :=
  mkCode "outer" 2
    [135; 0; 102; 1; 100; 1; 100; 2; 132; 8; 125; 2; 124; 2; 83; 0]
    [VNone; VCode inner; VStr "outer.<locals>.inner"]
    [] ["count"; "_"; "inner"] ["count"] [].

(** [def inner(a, b): nonlocal count; r = count; count += 1; return r] *)
Definition counter_inner : Code :=
  mkCode "inner" 2
    [136; 0; 125; 2; 136; 0; 100; 1; 55; 0; 137; 0; 124; 2; 83; 0]
    [VNone; VInt 1] [] ["a"; "b"; "r"] [] ["count"].

(** [def outer...; f = outer(start, None); r1 = f(None, None);
    r2 = f(None, None)]: the same returned function, twice *)
Definition same_function_twice (inner : Code) (start : Value) : Code :=
  mkCode "<module>" 0
    [100; 0; 100; 1; 132; 0; 90; 0;
     101; 0; 100; 2; 100; 3; 131; 2; 90; 1;
     101; 1; 100; 3; 100; 3; 131; 2; 90; 2;
     101; 1; 100; 3; 100; 3; 131; 2; 90; 3;
     100; 3; 83; 0]
    [VCode (outer_of inner); VStr "outer"; start; VNone]
    ["outer"; "f"; "r1"; "r2"] [] [] [].

(** [def outer...; f = outer(start1, None); g = outer(start2, None);
    r1 = f(None, None); r2 = g(None, None)]: two returned functions *)
Definition two_functions_once (inner : Code) (start1 start2 : Value) : Code :=
  mkCode "<module>" 0
    [100; 0; 100; 1; 132; 0; 90; 0;
     101; 0; 100; 2; 100; 3; 131; 2; 90; 1;
     101; 0; 100; 4; 100; 3; 131; 2; 90; 4;
     101; 1; 100; 3; 100; 3; 131; 2; 90; 2;
     101; 4; 100; 3; 100; 3; 131; 2; 90; 3;
     100; 3; 83; 0]
    [VCode (outer_of inner); VStr "outer"; start1; VNone; start2]
    ["outer"; "f"; "r1"; "r2"; "g"] [] [] [].

(** The bindings of [r1] and [r2] in the name space at [l]. *)
Definition results_at (l : loc) (vm : VirtualMachine) : option Value * option Value :=
  match heap vm !! l with
  | Some (HDict d) => (d !! "r1", d !! "r2")
  | _ => (None, None)
  end.

(** [def C(x, y): global flag; undefined_name; flag = 1] *)
Definition code_C : Code :=
  mkCode "C" 2 [116; 0; 1; 0; 100; 1; 97; 1; 100; 0; 83; 0]
    [VNone; VInt 1] ["undefined_name"; "flag"] ["x"; "y"] [] [].

(** [def B(x, y): return C(x, y)] *)
Definition code_B : Code :=
  mkCode "B" 2 [116; 0; 124; 0; 124; 1; 131; 2; 83; 0]
    [VNone] ["C"] ["x"; "y"] [] [].

(** [def C...; def B...; B(1, 2)]: the module is frame A *)
Definition code_A : Code :=
  mkCode "<module>" 0
    [100; 0; 100; 1; 132; 0; 90; 0;
     100; 2; 100; 3; 132; 0; 90; 1;
     101; 1; 100; 4; 100; 5; 131; 2;
     1; 0; 100; 6; 83; 0]
    [VCode code_C; VStr "C"; VCode code_B; VStr "B"; VInt 1; VInt 2; VNone]
    ["C"; "B"] [] [] [].

(** The root frame of a module and the machine that runs it, as
    [run_code] builds them on [fresh_vm]. *)
Definition root_frame (code : Code) : Frame :=
  mkFrame code 1 1 (VDict 0) [] [] 0.
Definition root_vm (code : Code) : VirtualMachine :=
  mkVM [root_frame code] VNone None [HDict ∅; HDict seed_names]
       ["===PyByterun===" +:+ newline].

(** [for x in seq: pass] at module level *)
Definition code_loop : Code :=
  mkCode "<module>" 0
    [101; 0; 68; 0; 93; 4; 90; 1; 113; 4; 100; 0; 83; 0]
    [VNone] ["seq"; "x"] [] [] [].

(** The machine about to run [code_loop] with [seq] bound to [v]. *)
Definition loop_vm (v : Value) (objects : list HeapObj) : VirtualMachine :=
  mkVM [root_frame code_loop] VNone None
       ([HDict ∅; HDict (<["seq" := v]> seed_names)] ++ objects) [].

(** Stack and program counter of the active frame. *)
Definition observe (r : Res (option string) * VirtualMachine)
  : option (list Value * Z) :=
  match r with
  | (Ok _, vm) =>
      match vm_frame vm with
      | Some f => Some (stack f, last_instruction f)
      | None => None
      end
  | _ => None
  end.

(** [def outer(count, _): def inner(a, b=1): return count; return inner]:
    the function definition carries both defaults and a closure. *)
Definition reader_inner_default : Code :=
  mkCode "inner" 2 [136; 0; 83; 0] [VNone] [] ["a"; "b"] [] ["count"].
Definition outer_both : Code :=
  mkCode "outer" 2
    [100; 1; 135; 0; 102; 1; 100; 2; 100; 3; 132; 9; 125; 2; 124; 2; 83; 0]
    [VNone; VTuple [VInt 1]; VCode reader_inner_default;
     VStr "outer.<locals>.inner"]
    [] ["count"; "_"; "inner"] ["count"] [].
Definition both_module : Code :=
  mkCode "<module>" 0
    [100; 0; 100; 1; 132; 0; 90; 0;
     101; 0; 100; 2; 100; 3; 131; 2; 90; 1; 100; 3; 83; 0]
    [VCode outer_both; VStr "outer"; VInt 0; VNone] ["outer"; "f"] [] [] [].

(** [def g(p, q): return p] and [def h(p, q, r=5): return r], defined
    in the module of [sample_vm] *)
Definition two_params : Code :=
  mkCode "g" 2 [124; 0; 83; 0] [VNone] [] ["p"; "q"] [] [].
Definition three_params : Code :=
  mkCode "h" 3 [124; 2; 83; 0] [VNone] [] ["p"; "q"; "r"] [] [].
Definition fn_g : Function := mkFunction (VStr "g") two_params [] 1 1 [].
Definition fn_h : Function := mkFunction (VStr "h") three_params [VInt 5] 1 1 [].

(** [def h(p, q, r=5): return r] at module level: defaults only *)
Definition defaults_module : Code :=
  mkCode "<module>" 0
    [100; 0; 100; 1; 100; 2; 132; 1; 90; 0; 100; 3; 83; 0]
    [VTuple [VInt 5]; VCode three_params; VStr "h"; VNone] ["h"] [] [] [].

(** A machine about to execute the [MAKE_FUNCTION 9] of [outer_both]. *)
Definition both_frame : Frame :=
  mkFrame outer_both 1 2 (VDict 0) [("count", VInt 0)]
          [VTuple [VInt 1]; VTuple [VInt 0]; VCode reader_inner_default;
           VStr "outer.<locals>.inner"] 10.
Definition both_vm : VirtualMachine :=
  mkVM [root_frame both_module; both_frame] VNone None
       [HDict ∅; HDict seed_names;
        HDict (<["_" := VNone]> (<["count" := VInt 0]> ∅))] [].

(** The pure part of [parse_inst_and_args]: the instruction name and
    operand list found at offset [pc], when both bytes and the operand
    exist. *)
Definition decode (dis : DisModule) (code : Code) (pc : Z)
  : option (string * list Value) :=
  match py_index (co_code code) pc with
  | None => None
  | Some byteCode =>
      if bool_decide (HAVE_ARGUMENT dis <= byteCode)
      then
        match py_index (co_code code) (pc + 1) with
        | None => None
        | Some arg_val =>
            let arg :=
              if bool_decide (byteCode ∈ hasconst dis)
              then py_index (co_consts code) arg_val
              else if bool_decide (byteCode ∈ hasname dis)
              then VStr <$> py_index (co_names code) arg_val
              else if bool_decide (byteCode ∈ haslocal dis)
              then VStr <$> py_index (co_varnames code) arg_val
              else if bool_decide (byteCode ∈ hasjrel dis)
              then Some (VInt (pc + 1 + arg_val))
              else Some (VInt arg_val) in
            match arg with
            | Some a => Some (opname dis byteCode, [a])
            | None => None
            end
        end
      else Some (opname dis byteCode, [])
  end.

(** ** Relations and machines used by the further properties *)

(** Two machines agree on the call stack below the active frame and on
    its depth: what a handler may change is the active frame only. *)
Definition same_call_stack (vm vm' : VirtualMachine) : Prop :=
  removelast (frames vm') = removelast (frames vm)
  /\ length (frames vm') = length (frames vm).

(** A computation that, when it ends with a value, has kept the call
    stack in that sense. *)
Definition keeps_stack {A} (m : M A) : Prop :=
  forall vm a vm', m vm = (Ok a, vm') -> same_call_stack vm vm'.

(** A handler body keeps the call stack and never answers ["exception"]
    by itself: that result is produced by the [except] of [dispatch]. *)
Definition handler_ok (m : M (option string)) : Prop :=
  forall vm r vm', m vm = (Ok r, vm') ->
    same_call_stack vm vm' /\ r <> Some "exception".

Definition handler_good (h : Handler) : Prop :=
  match h with
  | Nullary m => handler_ok m
  | Unary f => forall a, handler_ok (f a)
  end.

(** The machine of [run_code] on a fresh machine, between [make_frame]
    and [run_frame]: no frame yet, the seeded name space at location 1. *)
Definition idle_vm : VirtualMachine :=
  mkVM [] VNone None [HDict ∅; HDict seed_names] [].

(** The machine once [push_frame frame] has run. *)
Definition with_frame (frame : Frame) (vm : VirtualMachine) : VirtualMachine :=
  mkVM (frames vm ++ [frame]) (return_value vm) (last_exception vm)
       (heap vm) (stdout vm).

(** The machine after [n] cycles of the loop of [run_frame], each of them
    letting the loop go on (its [dispatch] answers None). *)
Fixpoint after_cycles (dis : DisModule)
    (invoke : Value -> list Value -> list (string * Value) -> M Value)
    (n : nat) (vm : VirtualMachine) : option VirtualMachine :=
  match n with
  | O => Some vm
  | S k =>
      match cycle dis invoke vm with
      | (Ok None, vm1) => after_cycles dis invoke k vm1
      | _ => None
      end
  end.


(** A computation that, however it ends, leaves a call stack at least as
    deep as it found it. *)
Definition never_shrinks {A} (m : M A) : Prop :=
  forall vm r vm', m vm = (r, vm') ->
    (length (frames vm) <= length (frames vm'))%nat.

Definition handler_deep (h : Handler) : Prop :=
  match h with
  | Nullary m => never_shrinks m
  | Unary f => forall a, never_shrinks (f a)
  end.

(** The frame [f] once a call instruction has been decoded and has popped
    the function and its two arguments, [s] being what the stack held
    below them. *)
Definition calling (f : Frame) (s : list Value) : Frame :=
  set_stack s (set_last_instruction (last_instruction f + 2) f).

(** The functions [B] and [C] that [code_A] defines, its globals once
    both are defined, the arguments of the calls [B(1, 2)] and [C(1, 2)],
    the frames of A, B and C with the operand stack [s] at offset [pc], and
    the machine that runs them, its heap extended with [objects]. *)
Definition fn_C : Function := mkFunction (VStr "C") code_C [] 1 1 [].
Definition fn_B : Function := mkFunction (VStr "B") code_B [] 1 1 [].
Definition unwind_globals : gmap string Value :=
  <["B" := VFunction fn_B]> (<["C" := VFunction fn_C]> seed_names).
Definition unwind_args : gmap string Value :=
  <["y" := VInt 2]> (<["x" := VInt 1]> ∅).
Definition unwind_call : list Value := [VFunction fn_B; VInt 1; VInt 2].
Definition unwind_A (s : list Value) (pc : Z) : Frame :=
  mkFrame code_A 1 1 (VDict 0) [] s pc.
Definition unwind_B (s : list Value) (pc : Z) : Frame :=
  mkFrame code_B 1 2 (VDict 0) [] s pc.
Definition unwind_C (s : list Value) (pc : Z) : Frame :=
  mkFrame code_C 1 3 (VDict 0) [] s pc.
Definition unwind_vm (fs : list Frame) (objects : list HeapObj) : VirtualMachine :=
  mkVM fs VNone None ([HDict ∅; HDict unwind_globals] ++ objects)
       ["===PyByterun===" +:+ newline].

(** The exceptions that [parse_inst_and_args] can raise: an index out of
    range in the code object, or no active frame to read. *)
Definition decode_fault (e : PyExc) : Prop :=
  exists msg, e = NewExc IndexError msg \/ e = NewExc AttributeError msg.

(** A computation whose raised exceptions all satisfy [P]. *)
Definition raises_only {A} (P : PyExc -> Prop) (m : M A) : Prop :=
  forall vm e vm', m vm = (Raise e, vm') -> P e.

(** The machine with [return_value] set to [v]. *)
Definition returned (v : Value) (vm : VirtualMachine) : VirtualMachine :=
  mkVM (frames vm) v (last_exception vm) (heap vm) (stdout vm).

(** [def f(): return 7], its frame with 7 loaded, and a frame whose code is
    a single zero byte. *)
Definition code_seven : Code := mkCode "f" 0 [100; 1; 83; 0] [VNone; VInt 7] [] [] [] [].
Definition seven_frame : Frame := mkFrame code_seven 1 1 (VDict 0) [] [VInt 7] 2.
Definition zero_frame : Frame :=
  mkFrame (mkCode "<module>" 0 [0; 0] [] [] [] [] []) 1 1 (VDict 0) [] [] 0.

(** The name under which [inst_LOAD_FAST] looks a variable up. *)
Definition fast_name (name : string) : string :=
  match name with
  | String "."%char rest => "implicit" +:+ rest
  | _ => name
  end.

(** The machine after [d[name] = v] on the dict object at [l], which
    held [d]. *)
Definition bound (l : loc) (name : string) (v : Value) (d : gmap string Value)
    (vm : VirtualMachine) : VirtualMachine :=
  set_heap (<[l := HDict (<[name := v]> d)]> (heap vm)) vm.

(** The machine after [d.pop(name)] on the dict object at [l], which
    held [d]. *)
Definition unbound (l : loc) (name : string) (d : gmap string Value)
    (vm : VirtualMachine) : VirtualMachine :=
  set_heap (<[l := HDict (delete name d)]> (heap vm)) vm.

(** A function frame on top of the module frame of [sample_vm]: its
    locals, at location 2, bind [x], [y] and [.0]; the module binds [x]. *)
Definition inner_locals : gmap string Value :=
  <[".0" := VInt 5]> (<["y" := VInt 2]> (<["x" := VInt 3]> ∅)).
Definition inner_frame : Frame :=
  mkFrame two_params 1 2 (VDict 0) [] [VInt 7; VInt 8] 0.
Definition inner_vm : VirtualMachine :=
  mkVM [sample_frame; inner_frame] VNone None
       [HDict (<["len" := VHost "len"]> ∅); HDict (<["x" := VInt 1]> seed_names);
        HDict inner_locals] [].

(** [if c: ...] style code with a forward jump and a loop head:
    [JUMP_FORWARD 4] at offset 0, [FOR_ITER 4] at offset 2; a frame of it
    at offset [pc] with the operand stack [s], and its machine, whose heap
    holds an exhausted tuple iterator at location 2. *)
Definition jump_code : Code :=
  mkCode "<module>" 0 [110; 4; 93; 4; 100; 0; 83; 0] [VNone] [] [] [] [].
Definition jump_frame (pc : Z) (s : list Value) : Frame :=
  mkFrame jump_code 1 1 (VDict 0) [] s pc.
Definition jump_vm (pc : Z) (s : list Value) : VirtualMachine :=
  mkVM [jump_frame pc s] VNone None
       [HDict ∅; HDict seed_names; HIter (ITuple [VInt 1] 1)] [].

(** A machine whose active frame holds two integers. *)
Definition pair_frame : Frame :=
  mkFrame sample_code 1 1 (VDict 0) [] [VInt 7; VInt 2] 0.
Definition pair_vm : VirtualMachine :=
  mkVM [pair_frame] VNone None [HDict ∅; HDict seed_names] [].

(** The name space that [make_frame] fills for a call: the empty dict
    updated with the call's arguments, then with the captured values. *)
Definition call_locals (call_args closure : list (string * Value))
  : gmap string Value :=
  foldl (fun m kv => <[kv.1 := kv.2]> m)
        (foldl (fun m kv => <[kv.1 := kv.2]> m) ∅ call_args) closure.


(** A frame of [outer_of reader_inner], whose code has the cell variable
    [count] and no free variable, with [count] bound in its locals. *)
Definition cell_frame : Frame :=
  mkFrame (outer_of reader_inner) 1 2 (VDict 0) [("count", VInt 0)] [] 0.
Definition cell_vm : VirtualMachine :=
  mkVM [sample_frame; cell_frame] VNone None
       [HDict ∅; HDict seed_names;
        HDict (<["_" := VNone]> (<["count" := VInt 0]> ∅))] [].

(** A machine whose active frame holds a function of two parameters and
    two arguments above one more value. *)
Definition call_frame : Frame :=
  mkFrame sample_code 1 1 (VDict 0) []
          [VInt 9; VFunction fn_g; VInt 1; VInt 2] 0.
Definition call_vm : VirtualMachine :=
  mkVM [call_frame] VNone None [HDict ∅; HDict seed_names] [].

(** The opcodes of CPython 3.8 for which the engine has neither a handler
    nor an operator fallback: the stack rotations and NOP, DELETE_SUBSCR,
    PRINT_EXPR, the instructions of generators and coroutines, of [with]
    and [try] blocks and of [raise], IMPORT_STAR and SETUP_ANNOTATIONS,
    UNPACK_EX, the short-circuit jumps, DELETE_FAST, BUILD_SLICE,
    STORE_DEREF, DELETE_DEREF and LOAD_CLASSDEREF, CALL_FUNCTION_EX,
    EXTENDED_ARG, SET_ADD and MAP_ADD, the unpacking builders,
    FORMAT_VALUE, BUILD_CONST_KEY_MAP and BUILD_STRING. *)
Definition unsupported38 : list Z :=
  [2; 3; 6; 9; 50; 51; 52; 53; 54; 61; 69; 70; 72; 73; 81; 82; 84; 85;
   86; 87; 88; 89; 94; 111; 112; 122; 126; 130; 133; 137; 138; 142; 143;
   144; 146; 147; 148; 149; 150; 151; 152; 153; 154; 155; 156; 157; 158;
   162; 163].

(** [try: ... except: ...] at module level starts with SETUP_FINALLY. *)
Definition try_frame : Frame :=
  mkFrame (mkCode "<module>" 0 [122; 4; 100; 0; 83; 0] [VNone] [] [] [] [])
          1 1 (VDict 0) [] [] 0.

(** A function [e(p, q)] whose code object holds no instruction, and a
    frame about to call it with two arguments. *)
Definition empty_code : Code := mkCode "e" 2 [] [] [] ["p"; "q"] [] [].
Definition fn_empty : Function := mkFunction (VStr "e") empty_code [] 1 1 [].
Definition leak_frame : Frame :=
  mkFrame (mkCode "<module>" 0 [131; 2; 83; 0] [] [] [] [] []) 1 1 (VDict 0) []
          [VFunction fn_empty; VInt 1; VInt 2] 0.

(** The name that [Function.__init__] gives a function: [name or
    code_obj.co_name]. *)
Definition function_name (name : string) (code : Code) : Value :=
  if negb (String.eqb name "") then VStr name else VStr (co_name code).

(** A machine about to execute the [MAKE_FUNCTION 8] of
    [outer_of reader_inner]. *)
Definition closure_frame : Frame :=
  mkFrame (outer_of reader_inner) 1 2 (VDict 0) [("count", VInt 0)]
          [VTuple [VInt 0]; VCode reader_inner; VStr "outer.<locals>.inner"] 8.
Definition closure_vm : VirtualMachine :=
  mkVM [root_frame both_module; closure_frame] VNone None
       [HDict ∅; HDict seed_names;
        HDict (<["_" := VNone]> (<["count" := VInt 0]> ∅))] [].

(** A machine about to execute the [CALL_FUNCTION_KW 3] of [h(1, 2, r=9)]. *)
Definition kw_frame : Frame :=
  mkFrame sample_code 1 1 (VDict 0) []
          [VFunction fn_h; VInt 1; VInt 2; VInt 9; VTuple [VStr "r"]] 0.
Definition kw_vm : VirtualMachine :=
  mkVM [kw_frame] VNone None [HDict ∅; HDict seed_names] [].

(** [while c: pass] style code: [POP_JUMP_IF_FALSE 6] at offset 0,
    [JUMP_ABSOLUTE 0] at offset 2, [POP_JUMP_IF_TRUE 6] at offset 4; a
    frame of it at offset [pc] with the operand stack [s]. *)
Definition while_code : Code :=
  mkCode "<module>" 0 [114; 6; 113; 0; 115; 6; 100; 0; 83; 0] [VNone] [] [] [] [].
Definition while_frame (pc : Z) (s : list Value) : Frame :=
  mkFrame while_code 1 1 (VDict 0) [] s pc.
Definition while_vm (pc : Z) (s : list Value) : VirtualMachine :=
  mkVM [while_frame pc s] VNone None [HDict ∅; HDict seed_names] [].

(** A module frame holding the operand stack [s], and its machine. *)
Definition stack_frame (s : list Value) : Frame :=
  mkFrame sample_code 1 1 (VDict 0) [] s 0.
Definition stack_vm (s : list Value) : VirtualMachine :=
  mkVM [stack_frame s] VNone None [HDict ∅; HDict seed_names] [].

(** The recorded exception is well formed: its class slot holds the
    class of the recorded instance and its traceback slot holds None. *)
Definition exc_wf (vm : VirtualMachine) : Prop :=
  match last_exception vm with
  | Some (k, e, tb) => k = exc_kind e /\ tb = None
  | None => True
  end.

(** A computation that, however it ends, leaves the recorded exception
    well formed. *)
Definition keeps_wf {A} (m : M A) : Prop :=
  forall vm r vm', exc_wf vm -> m vm = (r, vm') -> exc_wf vm'.

Definition handler_wf (h : Handler) : Prop :=
  match h with
  | Nullary m => keeps_wf m
  | Unary f => forall a, keeps_wf (f a)
  end.

(** A machine about to store 7 at index 1 of the list object at location
    2 and read it back. *)
Definition subscr_stack : list Value := [VList 2; VInt 1; VInt 7; VList 2; VInt 1].
Definition list_vm : VirtualMachine :=
  mkVM [stack_frame subscr_stack] VNone None
       [HDict ∅; HDict seed_names; HList [VInt 0; VInt 0]] [].

(** * Properties *)

(** ** The active frame *)

Lemma last_insert_last {A} (l : list A) (x : A) :
  l ≠ [] -> last (<[pred (length l) := x]> l) = Some x.
Proof.
  induction l as [|a l IH]; [done|]. intros _.
  destruct l as [|b l]; [done|].
  change (last (a :: <[pred (length (b :: l)) := x]> (b :: l)) = Some x).
  specialize (IH ltac:(done)).
  destruct (<[pred (length (b :: l)) := x]> (b :: l)) eqn:E; [|done].
  apply (f_equal length) in E. rewrite length_insert in E. done.
Qed.

Lemma last_Some_nonempty {A} (l : list A) (x : A) : last l = Some x -> l ≠ [].
Proof. by destruct l. Qed.

Lemma insert_last_id {A} (l : list A) (x : A) :
  last l = Some x -> <[pred (length l) := x]> l = l.
Proof.
  intros H. apply list_insert_id. rewrite last_lookup in H. exact H.
Qed.

Lemma insert_last_twice {A} (l : list A) (x y : A) :
  <[pred (length (<[pred (length l) := x]> l)) := y]> (<[pred (length l) := x]> l)
  = <[pred (length l) := y]> l.
Proof. rewrite length_insert. apply list_insert_insert_eq. Qed.

Lemma vm_frame_set_top (vm : VirtualMachine) (f f' : Frame) :
  vm_frame vm = Some f -> vm_frame (set_top_frame f' vm) = Some f'.
Proof.
  unfold vm_frame, set_top_frame. simpl. intros H.
  apply last_insert_last. by eapply last_Some_nonempty.
Qed.

Lemma set_top_frame_twice (vm : VirtualMachine) (f1 f2 : Frame) :
  set_top_frame f2 (set_top_frame f1 vm) = set_top_frame f2 vm.
Proof. unfold set_top_frame. simpl. by rewrite insert_last_twice. Qed.

Lemma set_top_frame_id (vm : VirtualMachine) (f : Frame) :
  vm_frame vm = Some f -> set_top_frame f vm = vm.
Proof.
  unfold vm_frame, set_top_frame. intros H. rewrite insert_last_id by done.
  by destruct vm.
Qed.

Lemma set_stack_id (f : Frame) : set_stack (stack f) f = f.
Proof. by destruct f. Qed.

Lemma set_stack_twice (f : Frame) (s1 s2 : list Value) :
  set_stack s2 (set_stack s1 f) = set_stack s2 f.
Proof. done. Qed.

Lemma get_frame_Some (attr : string) (vm : VirtualMachine) (f : Frame) :
  vm_frame vm = Some f -> get_frame attr vm = (Ok f, vm).
Proof. unfold get_frame. by intros ->. Qed.

(** ** The operand stack *)

Lemma push_spec (vm : VirtualMachine) (f : Frame) (vals : list Value) :
  vm_frame vm = Some f ->
  push vals vm = (Ok tt, set_top_frame (set_stack (stack f ++ vals) f) vm).
Proof. intros H. unfold push, bind. by rewrite (get_frame_Some _ _ _ H). Qed.

Lemma slice_start_suffix {A} (s vs : list A) :
  vs ≠ [] -> slice_start (s ++ vs) (- Z.of_nat (length vs)) = length s.
Proof.
  intros Hne. unfold slice_start.
  assert (0 < length vs)%nat by (destruct vs; [done | simpl; lia]).
  rewrite bool_decide_true by lia. rewrite length_app. lia.
Qed.

Lemma popn_suffix (vm : VirtualMachine) (f : Frame) (s vs : list Value) :
  vm_frame vm = Some f -> stack f = s ++ vs -> vs ≠ [] ->
  popn (Z.of_nat (length vs)) vm = (Ok vs, set_top_frame (set_stack s f) vm).
Proof.
  intros Hf Hs Hne. unfold popn.
  assert (0 < length vs)%nat by (destruct vs; [done | simpl; lia]).
  rewrite bool_decide_false by lia.
  unfold bind. rewrite (get_frame_Some _ _ _ Hf). unfold put_frame, ret.
  rewrite Hs, slice_start_suffix by done.
  by rewrite take_app_length, drop_app_length.
Qed.

Lemma pop_snoc (vm : VirtualMachine) (f : Frame) (s : list Value) (v : Value) :
  vm_frame vm = Some f -> stack f = s ++ [v] ->
  pop vm = (Ok v, set_top_frame (set_stack s f) vm).
Proof.
  intros Hf Hs. unfold pop, bind. rewrite (get_frame_Some _ _ _ Hf), Hs.
  by rewrite last_snoc, removelast_last.
Qed.

(** C10.  In an active frame, pushing the values [vs] in order and then
    popping [len(vs)] values returns exactly [vs], in the same order, and
    leaves the machine (so the operand stack) as it was before the push;
    popping 0 values returns the empty list and changes nothing. *)
Theorem push_popn_roundtrip (vm : VirtualMachine) (f : Frame) (vs : list Value) :
  vm_frame vm = Some f ->
  (push vs ;;; popn (Z.of_nat (length vs))) vm = (Ok vs, vm)
  /\ popn 0 vm = (Ok [], vm).
Proof.
  intros Hf. split; [|done].
  unfold bind at 1. rewrite (push_spec _ _ _ Hf).
  destruct vs as [|v vs].
  - simpl. rewrite app_nil_r, set_stack_id, set_top_frame_id; done.
  - rewrite (popn_suffix _ (set_stack (stack f ++ v :: vs) f) (stack f) (v :: vs));
      [| by eapply vm_frame_set_top | done | done].
    by rewrite set_top_frame_twice, set_stack_twice, set_stack_id, set_top_frame_id.
Qed.

(** ** Name resolution *)

Lemma dict_at_spec (vm : VirtualMachine) (l : loc) (d : gmap string Value) :
  heap vm !! l = Some (HDict d) -> dict_at l vm = (Ok d, vm).
Proof. intros H. unfold dict_at, bind, heap_get. by rewrite H. Qed.

Lemma bytecode_fn_LOAD_NAME invoke :
  bytecode_fn invoke "LOAD_NAME" = Some (Unary inst_LOAD_NAME).
Proof. reflexivity. Qed.

(** C2.  [LOAD_NAME] resolves a name in the active frame's locals, then
    its globals, then the builtin name space.  The instruction pushes the
    binding of the left-biased union [locals ∪ globals ∪ bdict]: the
    operand stack of the active frame grows by that one value and nothing
    is recorded.  So a name bound in the locals resolves to that binding
    whatever the other scopes hold, a name bound in the globals only
    after the locals lack it, and a builtin only after both lack it.  A
    name absent from all three leaves the stack as it was and makes the
    dispatcher answer ["exception"], the recorded exception being the
    NameError [name '...' is not defined] with the traceback None. *)
Theorem LOAD_NAME_precedence invoke (vm : VirtualMachine) (f : Frame)
    (name : string) (locals globals bdict : gmap string Value) (b : loc) :
  vm_frame vm = Some f ->
  heap vm !! f_locals f = Some (HDict locals) ->
  heap vm !! f_globals f = Some (HDict globals) ->
  builtin_names f = VDict b ->
  heap vm !! b = Some (HDict bdict) ->
  let r := dispatch invoke "LOAD_NAME" [VStr name] vm in
  let fault := NewExc NameError ("name '" +:+ name +:+ "' is not defined") in
  let pushed (val : Value) :=
    fst r = Ok None
    /\ stack <$> vm_frame (snd r) = Some (stack f ++ [val])
    /\ last_exception (snd r) = last_exception vm
    /\ heap (snd r) = heap vm in
  r = match (locals ∪ globals ∪ bdict) !! name with
      | Some val => (Ok None, set_top_frame (set_stack (stack f ++ [val]) f) vm)
      | None => (Ok (Some "exception"), record_exception fault vm)
      end
  /\ (forall val, locals !! name = Some val ->
        (locals ∪ globals ∪ bdict) !! name = Some val /\ pushed val)
  /\ (forall val, locals !! name = None -> globals !! name = Some val ->
        (locals ∪ globals ∪ bdict) !! name = Some val /\ pushed val)
  /\ (forall val, locals !! name = None -> globals !! name = None ->
        bdict !! name = Some val ->
        (locals ∪ globals ∪ bdict) !! name = Some val /\ pushed val)
  /\ (locals !! name = None -> globals !! name = None -> bdict !! name = None ->
        (locals ∪ globals ∪ bdict) !! name = None
        /\ fst r = Ok (Some "exception")
        /\ last_exception (snd r) = Some (NameError, fault, None)
        /\ stack <$> vm_frame (snd r) = Some (stack f)
        /\ heap (snd r) = heap vm).
Proof.
  intros Hf Hl Hg Hb Hbd r fault pushed.
  assert (Hr : r = match (locals ∪ globals ∪ bdict) !! name with
                   | Some val =>
                       (Ok None, set_top_frame (set_stack (stack f ++ [val]) f) vm)
                   | None => (Ok (Some "exception"), record_exception fault vm)
                   end).
  { unfold r, dispatch, dispatch_body. rewrite bytecode_fn_LOAD_NAME.
    unfold apply_handler, inst_LOAD_NAME, as_name, bind at 1, ret.
    unfold bind at 1. rewrite (get_frame_Some _ _ _ Hf).
    unfold bind at 1. rewrite (dict_at_spec _ _ _ Hl).
    rewrite !lookup_union.
    destruct (locals !! name) as [v|] eqn:El.
    + unfold bind, ret, none. rewrite (push_spec _ _ _ Hf).
      by destruct (globals !! name), (bdict !! name).
    + unfold bind at 1. unfold bind at 1. rewrite (dict_at_spec _ _ _ Hg).
      destruct (globals !! name) as [v|] eqn:Eg.
      * unfold ret, bind, none. rewrite (push_spec _ _ _ Hf).
        by destruct (bdict !! name).
      * unfold bind at 1. unfold builtin_lookup. rewrite Hb.
        unfold bind at 1. rewrite (dict_at_spec _ _ _ Hbd). unfold ret.
        destruct (bdict !! name) as [v|] eqn:Eb.
        -- unfold bind, none, ret. by rewrite (push_spec _ _ _ Hf).
        -- done. }
  assert (Hpush : forall val,
             (locals ∪ globals ∪ bdict) !! name = Some val -> pushed val).
  { intros val Hu. unfold pushed. rewrite Hr, Hu. cbn [fst snd].
    split; [done|]. split; [|done].
    by rewrite (vm_frame_set_top _ _ _ Hf). }
  split; [exact Hr|].
  split; [|split; [|split]].
  - intros val H.
    assert (Hu : (locals ∪ globals ∪ bdict) !! name = Some val).
    { rewrite !lookup_union, H. by destruct (globals !! name), (bdict !! name). }
    split; [exact Hu | by apply Hpush].
  - intros val H1 H2.
    assert (Hu : (locals ∪ globals ∪ bdict) !! name = Some val).
    { rewrite !lookup_union, H1, H2. by destruct (bdict !! name). }
    split; [exact Hu | by apply Hpush].
  - intros val H1 H2 H3.
    assert (Hu : (locals ∪ globals ∪ bdict) !! name = Some val).
    { by rewrite !lookup_union, H1, H2, H3. }
    split; [exact Hu | by apply Hpush].
  - intros H1 H2 H3.
    assert (Hu : (locals ∪ globals ∪ bdict) !! name = None).
    { by rewrite !lookup_union, H1, H2, H3. }
    split; [exact Hu|]. rewrite Hr, Hu. cbn [fst snd].
    split; [done|]. split; [done|]. split; [|done].
    change (vm_frame (record_exception fault vm)) with (vm_frame vm).
    by rewrite Hf.
Qed.

(** ** Stack underflow under a binary operator *)

Lemma bytecode_fn_BINARY invoke (op : string) :
  bytecode_fn invoke ("BINARY_" +:+ op) = None.
Proof. reflexivity. Qed.

Lemma list_at_no_raise l vm e vm' : list_at l vm <> (Raise e, vm').
Proof.
  unfold list_at, bind, heap_get. destruct (heap vm !! l) as [[]|]; done.
Qed.

Lemma dict_at_no_raise l vm e vm' : dict_at l vm <> (Raise e, vm').
Proof.
  unfold dict_at, bind, heap_get. destruct (heap vm !! l) as [[]|]; done.
Qed.

Ltac split_raise H :=
  repeat (match type of H with
          | context [match ?o with _ => _ end] => destruct o eqn:?
          end; simpl in H; try discriminate H).

(** Every exception the primitive of an operator raises, as a binary
    operator or as an in-place statement, is of another class than
    ValueError, or is the ValueError of a negative shift count. *)
Lemma py_operator_fault (ip : bool) (bop : BinOp) (x y : Value)
    (vm vm' : VirtualMachine) (e : PyExc) :
  py_operator ip bop x y vm = (Raise e, vm') ->
  exc_kind e <> ValueError \/ e = NewExc ValueError "negative shift count".
Proof.
  intros H.
  destruct x, y; simpl in H;
  cbv beta iota delta [operand_fault unsupported_operands is_sequence
                       has_sequence_methods int_binop
                       of_option bind alloc raise unmodelled ret] in H;
  destruct bop; simpl in H; try discriminate H;
  split_raise H;
  (inversion H; subst; simpl;
   first [ by left | by right
         | exfalso; eapply list_at_no_raise; eassumption
         | exfalso; eapply dict_at_no_raise; eassumption ]).
Qed.

Lemma py_binop_fault (bop : BinOp) (x y : Value) (vm vm' : VirtualMachine)
    (e : PyExc) :
  py_binop bop x y vm = (Raise e, vm') ->
  exc_kind e <> ValueError \/ e = NewExc ValueError "negative shift count".
Proof. apply py_operator_fault. Qed.

Lemma py_tuple_fault (y : Value) (vm vm' : VirtualMachine) (e : PyExc) :
  py_tuple y vm = (Raise e, vm') -> exc_kind e = TypeError.
Proof.
  destruct y; simpl; try discriminate; try (by intros [= <- <-]).
  intros H. exfalso. by eapply list_at_no_raise.
Qed.

Lemma py_iop_fault (bop : BinOp) (x y : Value) (vm vm' : VirtualMachine)
    (e : PyExc) :
  py_iop bop x y vm = (Raise e, vm') ->
  exc_kind e <> ValueError \/ e = NewExc ValueError "negative shift count".
Proof.
  intros H. unfold py_iop in H.
  destruct x; try exact (py_operator_fault true bop _ y vm vm' e H).
  destruct bop; try exact (py_operator_fault true _ (VList l) y vm vm' e H);
    [discriminate H|].
  unfold bind in H.
  destruct (list_at l vm) as [[vs|e1|w|] vm1] eqn:E1; try discriminate H.
  2:{ exfalso. by eapply list_at_no_raise. }
  destruct (py_tuple y vm1) as [[ys|e2|w|] vm2] eqn:E2; try discriminate H.
  injection H as <- <-. left. by rewrite (py_tuple_fault _ _ _ _ E2).
Qed.

Lemma bytecode_fn_INPLACE invoke (op : string) :
  bytecode_fn invoke ("INPLACE_" +:+ op) = None.
Proof. reflexivity. Qed.

(** C3, the counterexample.  Underflow is tolerated where several values
    are popped at once: [BUILD_TUPLE 3] executed on an operand stack that
    holds the single value 7 succeeds, pushes the 1-tuple [(7,)] and
    records no fault, and the frame [BUILD_TUPLE 3; RETURN_VALUE] started
    on that stack returns this tuple. *)
Lemma BUILD_TUPLE_tolerates_underflow :
  let r := dispatch (invoke dis38 0) "BUILD_TUPLE" [VInt 3] sample_vm in
  let frame :=
    mkFrame (mkCode "<module>" 0 [102; 3; 83; 0] [] [] [] [] []) 1 1 (VDict 0)
            [] [VInt 7] 0 in
  stack <$> vm_frame sample_vm = Some [VInt 7]
  /\ fst r = Ok None
  /\ stack <$> vm_frame (snd r) = Some [VTuple [VInt 7]]
  /\ last_exception (snd r) = None
  /\ fst (run_frame dis38 5 frame idle_vm) = Ok (VTuple [VInt 7])
  /\ last_exception (snd (run_frame dis38 5 frame idle_vm)) = None.
Proof. vm_compute. repeat split. Qed.

(** C3 (amended).  Executing any binary-operator instruction, [BINARY_]
    or [INPLACE_], while the active frame's operand stack holds exactly
    one value makes the dispatcher answer ["exception"]: the value is
    popped, leaving the stack empty, and the exception recorded is the
    ValueError of the failed two-value destructuring, with the traceback
    None.  That fault is not of the class raised for incompatible
    operands (TypeError) and differs from every exception that the
    primitive of an operator raises on two operands, as a binary operator
    or as an in-place statement.  It is not of a class of its own: a
    shift by a negative count is a ValueError too, and only the message
    tells the two apart.  Underflow is not a fault everywhere: on the
    same stack the pop of [n] values at once, [n] positive, returns the
    one value, and [BUILD_TUPLE n] succeeds with the 1-tuple of it. *)
Theorem binary_operator_underflow invoke (vm : VirtualMachine) (f : Frame)
    (v : Value) (op : string) (argument : list Value) :
  vm_frame vm = Some f ->
  stack f = [v] ->
  let rb := dispatch invoke ("BINARY_" +:+ op) argument vm in
  let ri := dispatch invoke ("INPLACE_" +:+ op) argument vm in
  rb = (Ok (Some "exception"),
        record_exception underflow_fault (set_top_frame (set_stack [] f) vm))
  /\ ri = (Ok (Some "exception"),
           record_exception underflow_fault (set_top_frame (set_stack [] f) vm))
  /\ exc_kind underflow_fault <> TypeError
  /\ (forall bop x y vm1 vm2 e,
        py_binop bop x y vm1 = (Raise e, vm2) -> e <> underflow_fault)
  /\ (forall bop x y vm1 vm2 e,
        py_iop bop x y vm1 = (Raise e, vm2) -> e <> underflow_fault)
  /\ last_exception (snd rb) = Some (ValueError, underflow_fault, None)
  /\ last_exception (snd ri) = Some (ValueError, underflow_fault, None)
  /\ stack <$> vm_frame (snd rb) = Some []
  /\ stack <$> vm_frame (snd ri) = Some []
  /\ (forall a n vm1,
        n < 0 ->
        py_binop LSHIFT (VInt a) (VInt n) vm1
        = (Raise (NewExc ValueError "negative shift count"), vm1)
        /\ exc_kind (NewExc ValueError "negative shift count")
           = exc_kind underflow_fault)
  /\ (forall n,
        0 < n ->
        popn n vm = (Ok [v], set_top_frame (set_stack [] f) vm)
        /\ dispatch invoke "BUILD_TUPLE" [VInt n] vm
           = (Ok None, set_top_frame (set_stack [VTuple [v]] f) vm)).
Proof.
  intros Hf Hs rb ri.
  assert (Hpopn : forall n, 0 < n ->
             popn n vm = (Ok [v], set_top_frame (set_stack [] f) vm)).
  { intros n Hn. unfold popn. rewrite bool_decide_false by lia.
    unfold bind. rewrite (get_frame_Some _ _ _ Hf), Hs.
    unfold slice_start. rewrite bool_decide_true by lia.
    replace (Z.to_nat (Z.max 0 (Z.of_nat (length [v]) + - n))) with 0%nat
      by (simpl; lia).
    reflexivity. }
  assert (Hb : rb = (Ok (Some "exception"),
                     record_exception underflow_fault
                       (set_top_frame (set_stack [] f) vm))).
  { unfold rb, dispatch, dispatch_body. rewrite bytecode_fn_BINARY.
    change (strip_prefix "INPLACE_" ("BINARY_" +:+ op)) with (@None string).
    change (strip_prefix "UNARY_" ("BINARY_" +:+ op)) with (@None string).
    change (strip_prefix "BINARY_" ("BINARY_" +:+ op)) with (Some op).
    cbv beta iota.
    unfold binaryOperator, popn. rewrite bool_decide_false by lia.
    unfold bind. rewrite (get_frame_Some _ _ _ Hf), Hs. reflexivity. }
  assert (Hi : ri = (Ok (Some "exception"),
                     record_exception underflow_fault
                       (set_top_frame (set_stack [] f) vm))).
  { unfold ri, dispatch, dispatch_body. rewrite bytecode_fn_INPLACE.
    change (strip_prefix "INPLACE_" ("INPLACE_" +:+ op)) with (Some op).
    cbv beta iota.
    unfold inplaceOperator, popn. rewrite bool_decide_false by lia.
    unfold bind. rewrite (get_frame_Some _ _ _ Hf), Hs. reflexivity. }
  assert (Hst : stack <$> vm_frame (record_exception underflow_fault
                                      (set_top_frame (set_stack [] f) vm))
                = Some []).
  { change (vm_frame (record_exception ?e ?m)) with (vm_frame m).
    by rewrite (vm_frame_set_top _ _ _ Hf). }
  split; [exact Hb|]. split; [exact Hi|]. split; [discriminate|].
  split; [|split].
  - intros bop x y vm1 vm2 e H ->.
    destruct (py_binop_fault _ _ _ _ _ _ H) as [Hk | Hk]; [by apply Hk | discriminate].
  - intros bop x y vm1 vm2 e H ->.
    destruct (py_iop_fault _ _ _ _ _ _ H) as [Hk | Hk]; [by apply Hk | discriminate].
  - rewrite Hb, Hi. cbn [snd]. do 2 (split; [reflexivity|]).
    do 2 (split; [exact Hst|]). split.
    + intros a n vm1 Hn. split; [|reflexivity].
      unfold py_binop. cbn [py_operator int_binop].
      by rewrite bool_decide_true by done.
    + intros n Hn. split; [by apply Hpopn|].
      unfold dispatch, dispatch_body.
      change (bytecode_fn invoke "BUILD_TUPLE") with (Some (Unary inst_BUILD_TUPLE)).
      cbn [apply_handler]. unfold inst_BUILD_TUPLE. cbn [as_int].
      unfold bind at 1, ret. unfold bind at 1. rewrite (Hpopn n Hn).
      unfold bind.
      rewrite (push_spec _ (set_stack [] f) [VTuple [v]]
                 (vm_frame_set_top _ _ _ Hf)).
      by rewrite set_top_frame_twice.
Qed.

(** ** The name space of a top-level program *)

Lemma seed_names_bindings (k : string) (v : Value) :
  seed_names !! k = Some v <->
  (k, v) ∈ [("__builtins__", builtins); ("__name__", VStr "__main__");
            ("__doc__", VNone); ("__package__", VNone)].
Proof.
  unfold seed_names. rewrite !lookup_insert_Some, lookup_empty.
  rewrite !elem_of_cons, elem_of_nil. split.
  - intros [[<- <-] | [? [[<- <-] | [? [[<- <-] | [? [[<- <-] | [? ?]]]]]]]];
      auto 10. done.
  - intros [H | [H | [H | [H | []]]]]; injection H as -> ->; auto 20.
Qed.

(** C9.  Running a top-level program with no global scope (empty call
    stack, [global_names] None) allocates one new name space holding
    exactly the four bindings [__builtins__] (the builtins module),
    [__name__] (["__main__"]), [__doc__] (None) and [__package__] (None),
    and builds the root frame with that one object as both its globals and
    its locals; for a code object without cell or free variables, as a
    module has, the frame is built and [run_code] runs it. *)
Theorem run_code_seeds_names (dis : DisModule) (fuel : nat)
    (vm : VirtualMachine) (code : Code) (local_names : option loc) :
  frames vm = [] ->
  let l := length (heap vm) in
  let vm' := set_heap (heap vm ++ [HDict seed_names]) vm in
  let root := mkFrame code l l (VDict 0) [] [] 0 in
  make_frame code [] [] None local_names vm = Frame_init code l l None vm'
  /\ heap vm' !! l = Some (HDict seed_names)
  /\ (forall k v, seed_names !! k = Some v <->
        (k, v) ∈ [("__builtins__", builtins); ("__name__", VStr "__main__");
                  ("__doc__", VNone); ("__package__", VNone)])
  /\ (co_cellvars code = [] -> co_freevars code = [] ->
      make_frame code [] [] None local_names vm = (Ok root, vm')
      /\ run_code dis fuel code None local_names vm
         = (run_frame dis fuel root ;;; ret tt) vm'
      /\ f_globals root = l /\ f_locals root = l).
Proof.
  intros Hfr l vm' root.
  assert (Hheap : heap vm' !! l = Some (HDict seed_names)).
  { unfold vm', l. simpl. rewrite lookup_app_r by lia.
    by rewrite Nat.sub_diag. }
  assert (Hmk : make_frame code [] [] None local_names vm
                = Frame_init code l l None vm').
  { unfold make_frame, bind at 1, get_vm. rewrite Hfr. simpl.
    unfold bind at 1. unfold bind at 1. unfold alloc, ret. simpl.
    fold l. fold vm'.
    assert (Hlast : vm_frame vm' = None)
      by (unfold vm_frame, vm'; simpl; by rewrite Hfr).
    unfold bind at 1. unfold bind at 1. unfold bind at 1. by rewrite Hlast. }
  split; [exact Hmk|]. split; [exact Hheap|]. split; [apply seed_names_bindings|].
  intros Hcell Hfree.
  assert (Hroot : make_frame code [] [] None local_names vm = (Ok root, vm')).
  { rewrite Hmk. unfold Frame_init. unfold bind at 1. unfold bind at 1.
    rewrite (dict_at_spec _ _ _ Hheap).
    change (seed_names !! "__builtins__") with (Some builtins). simpl.
    unfold bind at 1. unfold ret. unfold bind at 1.
    rewrite (dict_at_spec _ _ _ Hheap).
    rewrite Hcell, Hfree. reflexivity. }
  split; [exact Hroot|]. split; [|done].
  unfold run_code. unfold bind at 1. rewrite Hroot. reflexivity.
Qed.

(** ** Argument binding at invocation *)



Lemma eqb_ne (a b : string) : a <> b -> String.eqb a b = false.
Proof. by intros H; apply String.eqb_neq. Qed.




Lemma set_heap_twice (vm : VirtualMachine) (h1 h2 : list HeapObj) :
  set_heap h2 (set_heap h1 vm) = set_heap h2 vm.
Proof. done. Qed.

Lemma dict_store_last (vm : VirtualMachine) (h : list HeapObj)
    (d : gmap string Value) (k : string) (v : Value) :
  heap vm = h ++ [HDict d] ->
  dict_store (length h) k v vm
  = (Ok tt, set_heap (h ++ [HDict (<[k := v]> d)]) vm).
Proof.
  intros Hh. unfold dict_store. unfold bind at 1.
  rewrite (dict_at_spec vm (length h) d).
  - unfold heap_set. rewrite Hh.
    rewrite insert_app_r_alt by lia. by rewrite Nat.sub_diag.
  - rewrite Hh, lookup_app_r by lia. by rewrite Nat.sub_diag.
Qed.

Lemma dict_update_last (pairs : list (string * Value)) :
  forall (vm : VirtualMachine) (h : list HeapObj) (d : gmap string Value),
  heap vm = h ++ [HDict d] ->
  dict_update (length h) pairs vm
  = (Ok tt, set_heap (h ++ [HDict (foldl (fun m kv => <[kv.1 := kv.2]> m) d pairs)]) vm).
Proof.
  induction pairs as [|[k v] pairs IH]; intros vm h d Hh.
  - simpl. unfold ret. rewrite <- Hh. by destruct vm.
  - cbn [dict_update foldl]. unfold bind. rewrite (dict_store_last _ _ _ _ _ Hh).
    rewrite (IH _ h (<[k := v]> d)) by done.
    by rewrite set_heap_twice.
Qed.

Lemma vm_frame_set_heap (vm : VirtualMachine) (h : list HeapObj) :
  vm_frame (set_heap h vm) = vm_frame vm.
Proof. done. Qed.

(** The frame that [Function.__call__] builds for a function without
    cell or free variables, called while [prev] is active. *)
Lemma make_frame_for_call (code : Code) (call_args : list (string * Value))
    (g : loc) (vm : VirtualMachine) (h : list HeapObj) (prev : Frame) :
  co_cellvars code = [] -> co_freevars code = [] ->
  vm_frame vm = Some prev ->
  heap vm = h ++ [HDict ∅] ->
  make_frame code [] call_args (Some g) (Some (length h)) vm
  = (Ok (mkFrame code g (length h) (builtin_names prev) [] [] 0),
     set_heap (h ++ [HDict (foldl (fun m kv => <[kv.1 := kv.2]> m) ∅ call_args)]) vm).
Proof.
  intros Hcell Hfree Hprev Hh. unfold make_frame.
  unfold bind at 1, get_vm. unfold bind at 1, ret. cbn [fst snd].
  unfold bind at 1. rewrite (dict_update_last call_args vm h ∅ Hh).
  unfold bind at 1. cbn [dict_update]. unfold ret.
  unfold bind at 1. rewrite vm_frame_set_heap, Hprev.
  unfold Frame_init. unfold bind at 1, ret.
  set (vm2 := set_heap _ vm).
  assert (Hd : heap vm2 !! length h
               = Some (HDict (foldl (fun m kv => <[kv.1 := kv.2]> m) ∅ call_args))).
  { unfold vm2. simpl. rewrite lookup_app_r by lia. by rewrite Nat.sub_diag. }
  unfold bind at 1. rewrite (dict_at_spec _ _ _ Hd).
  rewrite Hcell, Hfree. reflexivity.
Qed.

(** ** Iteration *)

(** One [FOR_ITER] on a tuple iterator at the top of the stack: the next
    item is pushed and the iterator advanced, or, at the end, the iterator
    is popped and the program counter set one past the decoded target. *)
Lemma FOR_ITER_tuple (vm : VirtualMachine) (f : Frame) (s : list Value)
    (l : loc) (items : list Value) (pos : nat) (target : Z) :
  vm_frame vm = Some f ->
  stack f = s ++ [VIter l] ->
  heap vm !! l = Some (HIter (ITuple items pos)) ->
  inst_FOR_ITER (VInt target) vm
  = match items !! pos with
    | Some x =>
        (Ok None,
         set_top_frame (set_stack (s ++ [VIter l; x]) f)
           (set_heap (<[l := HIter (ITuple items (S pos))]> (heap vm)) vm))
    | None =>
        (Ok None,
         set_top_frame (set_last_instruction (target + 1) (set_stack s f)) vm)
    end.
Proof.
  intros Hf Hs Hl. unfold inst_FOR_ITER.
  unfold bind at 1. unfold top. unfold bind at 1.
  rewrite (get_frame_Some _ _ _ Hf), Hs.
  assert (Hlast : py_index (s ++ [VIter l]) (-1) = Some (VIter l)).
  { unfold py_index. rewrite bool_decide_false by lia.
    rewrite bool_decide_true by (rewrite length_app; simpl; lia).
    rewrite length_app. simpl.
    replace (Z.to_nat (Z.of_nat (length s + 1) + -1)) with (length s) by lia.
    by rewrite list_lookup_middle. }
  rewrite Hlast. cbn [of_option]. unfold ret at 1.
  unfold bind at 1. cbn [py_iter]. unfold ret at 1.
  unfold bind at 1. unfold py_next. unfold bind at 1. unfold heap_get. rewrite Hl.
  destruct (items !! pos) as [x|].
  - unfold bind at 1. unfold heap_set, ret. unfold bind at 1. unfold none, ret.
    rewrite (push_spec _ f) by done. rewrite Hs, <- app_assoc. reflexivity.
  - unfold ret at 1. unfold bind at 1. unfold bind at 1.
    rewrite (pop_snoc _ _ _ _ Hf Hs).
    unfold bind at 1. cbn [as_int]. unfold ret at 1.
    unfold jump. unfold bind at 1.
    rewrite (get_frame_Some _ _ (set_stack s f)) by (by eapply vm_frame_set_top).
    unfold bind at 1. cbn [as_int]. unfold ret at 1. unfold put_frame, none, ret.
    by rewrite set_top_frame_twice.
Qed.

(** C7.  The loop [for x in seq: pass] over a three-element sequence
    [a, b, c] (a tuple, or a list object): after [LOAD_NAME] and
    [GET_ITER] the iterator is alone on the stack at the [FOR_ITER] of
    offset 4; the first, second and third [FOR_ITER] cycles push [a], [b]
    and [c] above it, the body returning each time to offset 4; the fourth
    [FOR_ITER] cycle pushes nothing, pops the iterator and sets the
    program counter to 10, the first offset after the loop body. *)
Theorem for_iter_three_elements (a b c : Value) :
  let on_tuple n :=
    observe (cycles dis38 (invoke dis38 0) n (loop_vm (VTuple [a; b; c]) [])) in
  let on_list n :=
    observe (cycles dis38 (invoke dis38 0) n
               (loop_vm (VList 2) [HList [a; b; c]])) in
  (on_tuple 2%nat = Some ([VIter 2], 4)
   /\ on_tuple 3%nat = Some ([VIter 2; a], 6)
   /\ on_tuple 5%nat = Some ([VIter 2], 4)
   /\ on_tuple 6%nat = Some ([VIter 2; b], 6)
   /\ on_tuple 8%nat = Some ([VIter 2], 4)
   /\ on_tuple 9%nat = Some ([VIter 2; c], 6)
   /\ on_tuple 11%nat = Some ([VIter 2], 4)
   /\ on_tuple 12%nat = Some ([], 10))
  /\ (on_list 2%nat = Some ([VIter 3], 4)
      /\ on_list 3%nat = Some ([VIter 3; a], 6)
      /\ on_list 5%nat = Some ([VIter 3], 4)
      /\ on_list 6%nat = Some ([VIter 3; b], 6)
      /\ on_list 8%nat = Some ([VIter 3], 4)
      /\ on_list 9%nat = Some ([VIter 3; c], 6)
      /\ on_list 11%nat = Some ([VIter 3], 4)
      /\ on_list 12%nat = Some ([], 10)).
Proof. vm_compute. repeat split. Qed.

(** ** Closures *)

(** C1, the counterexample.  A nested function that stores to its
    captured counter cannot run: the first call of the returned function
    stops at [STORE_DEREF], for which the machine has no handler, and
    neither result is produced. *)
Lemma counter_closure_faults :
  let r := run_code dis38 50 (same_function_twice counter_inner (VInt 0))
                    None None fresh_vm in
  fst r = Raise (ReExc VirtualMachineError
                   (ReExc VirtualMachineError
                      (NewExc VirtualMachineError
                         "unsupported bytecode type: STORE_DEREF")))
  /\ results_at 1 (snd r) = (None, None)
  /\ results_at 1 (snd r) <> (Some (VInt 0), Some (VInt 1)).
Proof. vm_compute. repeat split. discriminate. Qed.

(** C1 (amended).  A nested function captures the value bound to the
    variable when it is defined, and each call of the outer function
    makes its own capture.  For an outer function called with the counter
    [start] that returns a nested function returning the captured counter:
    calling the same returned function twice yields [start] both times;
    calling the outer function twice, with [start1] and with [start2], and
    each returned function once yields [start1] and [start2], so 0 and 0
    when both counters start at 0. *)
Theorem closure_captures_by_value (start start1 start2 : Value) :
  let same := run_code dis38 50 (same_function_twice reader_inner start)
                       None None fresh_vm in
  let two := run_code dis38 50 (two_functions_once reader_inner start1 start2)
                      None None fresh_vm in
  let zeros := run_code dis38 50
                 (two_functions_once reader_inner (VInt 0) (VInt 0))
                 None None fresh_vm in
  fst same = Ok tt
  /\ results_at 1 (snd same) = (Some start, Some start)
  /\ fst two = Ok tt
  /\ results_at 1 (snd two) = (Some start1, Some start2)
  /\ fst zeros = Ok tt
  /\ results_at 1 (snd zeros) = (Some (VInt 0), Some (VInt 0)).
Proof. vm_compute. repeat split. Qed.

(** ** Unwinding *)

(** Whatever a handler raises, [dispatch] records the class and the
    instance with a traceback of None. *)
Lemma dispatch_records_no_traceback invoke (inst_name : string)
    (argument : list Value) (vm vm' : VirtualMachine) (e : PyExc) :
  dispatch_body invoke inst_name argument vm = (Raise e, vm') ->
  dispatch invoke inst_name argument vm
  = (Ok (Some "exception"), record_exception e vm')
  /\ last_exception (record_exception e vm') = Some (exc_kind e, e, None).
Proof. intros H. unfold dispatch. rewrite H. split; reflexivity. Qed.

(** C4, the counterexample.  The module [code_A] is frame A; its twelfth
    cycle is the call of B.  When that cycle ends the recorded exception
    carries no traceback chain at all. *)
Lemma unwind_records_no_chain :
  let r := cycles dis38 (invoke dis38 50) 12 (root_vm code_A) in
  fst r = Ok (Some "exception")
  /\ (exists k e, last_exception (snd r) = Some (k, e, None))
  /\ (forall k e chain, last_exception (snd r) <> Some (k, e, Some chain)).
Proof.
  vm_compute. split; [reflexivity|]. split; [by eexists _, _|].
  intros k e chain. discriminate.
Qed.

(** The program [code_A], run as a whole.  Frame A (the module) calls
    B, B calls C, and C faults on an undefined name.  [run_code] reaches
    A's frame; before the call A's stack holds B and its two arguments;
    when the calling cycle ends A observes the single result
    ["exception"], the call stack holds A's frame alone, and the one
    recorded exception has C's class and message and the traceback None;
    the instruction of C after the faulting one did not run ([flag] is
    unbound); the run then ends with that exception and an empty call
    stack. *)
Lemma unwind_of_code_A :
  let before := cycles dis38 (invoke dis38 50) 11 (root_vm code_A) in
  let after := cycles dis38 (invoke dis38 50) 12 (root_vm code_A) in
  let fault := NewExc NameError "global name 'undefined_name' is not defined" in
  let whole := run_code dis38 50 code_A None None fresh_vm in
  (frame <- make_frame code_A [] [] None None ;; push_frame frame) fresh_vm
  = (Ok tt, root_vm code_A)
  /\ fst before = Ok None
  /\ length (frames (snd before)) = 1%nat
  /\ last_exception (snd before) = None
  /\ fst after = Ok (Some "exception")
  /\ length (frames (snd after)) = 1%nat
  /\ observe after = Some ([], 24)
  /\ last_exception (snd after)
     = Some (NameError, ReExc NameError (ReExc NameError fault), None)
  /\ match heap (snd after) !! 1%nat with
     | Some (HDict globals) => globals !! "flag" = None
     | _ => False
     end
  /\ fst whole = Raise (ReExc NameError (ReExc NameError (ReExc NameError fault)))
  /\ frames (snd whole) = [].
Proof. vm_compute. repeat split. Qed.

(** ** Function definition *)

Lemma bind_Ok {A B} (m : M A) (k : A -> M B) vm a vm' :
  m vm = (Ok a, vm') -> bind m k vm = k a vm'.
Proof. unfold bind. by intros ->. Qed.

Lemma bind_Raise {A B} (m : M A) (k : A -> M B) vm e vm' :
  m vm = (Raise e, vm') -> bind m k vm = (Raise e, vm').
Proof. unfold bind. by intros ->. Qed.

Lemma bytecode_fn_MAKE_FUNCTION invoke :
  bytecode_fn invoke "MAKE_FUNCTION" = Some (Unary inst_MAKE_FUNCTION).
Proof. reflexivity. Qed.

Lemma stack_set_stack s f : stack (set_stack s f) = s.
Proof. done. Qed.

(** Without a closure, [types.FunctionType] refuses a code object that
    has free variables. *)
Lemma Function_init_no_closure (name : string) (code : Code) (ds : list Value)
    (vm : VirtualMachine) (f : Frame) :
  vm_frame vm = Some f ->
  co_freevars code <> [] ->
  Function_init (VStr name) (VCode code) (VTuple ds) VNone vm
  = (Raise (NewExc TypeError "arg 5 (closure) must be tuple"), vm).
Proof.
  intros Hf Hfree. unfold Function_init.
  unfold bind at 1. cbn [py_truth]. unfold ret at 1.
  assert (Hname : forall k : Value -> M Function,
    bind (if negb (String.eqb name "") then ret (VStr name)
          else c <- as_code (VCode code) "co_name";; ret (VStr (co_name c))) k vm
    = k (if negb (String.eqb name "") then VStr name else VStr (co_name code)) vm).
  { intros k. by destruct (negb (String.eqb name "")). }
  rewrite Hname. clear Hname.
  unfold bind at 1. cbn [py_tuple]. unfold ret at 1.
  unfold bind at 1. rewrite (get_frame_Some _ _ _ Hf).
  unfold bind at 1. cbn [py_truth]. unfold ret at 1.
  unfold bind at 1. unfold ret at 1. unfold bind at 1. unfold ret at 1.
  rewrite bool_decide_false; [done|].
  intros H. apply Hfree. by apply nil_length_inv.
Qed.

(** C5 (the failing case).  With the flags 0x09, defaults and closure
    both present, [MAKE_FUNCTION] pops the name, the code object and one
    tuple only: the tuple of captured values, which it takes for the
    defaults.  No closure is bound, the code object has free variables,
    and the instruction ends in a TypeError; the tuple of defaults is left
    on the stack and no function is pushed. *)
Theorem MAKE_FUNCTION_defaults_and_closure invoke (vm : VirtualMachine)
    (f : Frame) (s ds captured : list Value) (code : Code) (name : string) :
  vm_frame vm = Some f ->
  stack f = s ++ [VTuple ds; VTuple captured; VCode code; VStr name] ->
  co_freevars code <> [] ->
  dispatch invoke "MAKE_FUNCTION" [VInt 9] vm
  = (Ok (Some "exception"),
     record_exception (NewExc TypeError "arg 5 (closure) must be tuple")
       (set_top_frame (set_stack (s ++ [VTuple ds]) f) vm)).
Proof.
  intros Hf Hs Hfree.
  unfold dispatch, dispatch_body. rewrite bytecode_fn_MAKE_FUNCTION.
  cbn [apply_handler]. unfold inst_MAKE_FUNCTION.
  set (f1 := set_stack (s ++ [VTuple ds; VTuple captured; VCode code]) f).
  set (f2 := set_stack (s ++ [VTuple ds; VTuple captured]) f).
  set (f3 := set_stack (s ++ [VTuple ds]) f).
  assert (H1 : pop vm = (Ok (VStr name), set_top_frame f1 vm)).
  { apply pop_snoc; [done|]. rewrite Hs. by rewrite <- !app_assoc. }
  assert (H2 : pop (set_top_frame f1 vm) = (Ok (VCode code), set_top_frame f2 vm)).
  { erewrite (pop_snoc _ f1 (s ++ [VTuple ds; VTuple captured]));
      [by rewrite set_top_frame_twice | by eapply vm_frame_set_top | ].
    unfold f1. rewrite stack_set_stack. by rewrite <- !app_assoc. }
  assert (H3 : pop (set_top_frame f2 vm)
               = (Ok (VTuple captured), set_top_frame f3 vm)).
  { erewrite (pop_snoc _ f2 (s ++ [VTuple ds]));
      [by rewrite set_top_frame_twice | by eapply vm_frame_set_top | ].
    unfold f2. rewrite stack_set_stack. by rewrite <- !app_assoc. }
  rewrite (bind_Ok _ _ _ _ _ H1). rewrite (bind_Ok _ _ _ _ _ H2).
  cbn [is_host is_closure_flag Z.eqb Pos.eqb py_truth negb].
  unfold bind at 1. unfold bind at 1. unfold ret at 1.
  unfold bind at 1. rewrite H3. unfold ret at 1. cbn [fst snd].
  erewrite bind_Raise; [reflexivity|].
  eapply Function_init_no_closure; [|done]. by eapply vm_frame_set_top.
Qed.

(** The same instruction with the flags 0x08 alone, as in
    [outer_of reader_inner]: the function returned by [outer(0, None)]
    binds the code object, no defaults, the captured value under the free
    variable's name, and the globals of the defining frame. *)
Lemma MAKE_FUNCTION_closure_only :
  let r := cycles dis38 (invoke dis38 50) 8
                  (root_vm (same_function_twice reader_inner (VInt 0))) in
  observe r
  = Some ([VFunction (mkFunction (VStr "outer.<locals>.inner") reader_inner []
                                 1 2 [("count", VInt 0)])], 16).
Proof. vm_compute. reflexivity. Qed.

(** With the flags 0x01 alone the tuple of defaults is consumed and
    bound: [def h(p, q, r=5)] at module level. *)
Lemma MAKE_FUNCTION_defaults_only :
  let r := cycles dis38 (invoke dis38 50) 4 (root_vm defaults_module) in
  observe r
  = Some ([VFunction (mkFunction (VStr "h") three_params [VInt 5] 1 1 [])], 8).
Proof. vm_compute. reflexivity. Qed.

(** The function definition of [both_module] is never completed. *)
Lemma both_module_faults :
  fst (run_code dis38 50 both_module None None fresh_vm)
  = Raise (ReExc TypeError (ReExc TypeError
             (NewExc TypeError "arg 5 (closure) must be tuple"))).
Proof. vm_compute. reflexivity. Qed.

(** ** Call-stack depth *)


(** ** Decoding, and one cycle of a frame *)

Lemma set_pc_spec vm f pc : vm_frame vm = Some f ->
  set_pc pc vm = (Ok tt, set_top_frame (set_last_instruction pc f) vm).
Proof. intros H. unfold set_pc, bind. by rewrite (get_frame_Some _ _ _ H). Qed.

Lemma bind_ret_l {A B} (a : A) (k : A -> M B) vm : bind (ret a) k vm = k a vm.
Proof. reflexivity. Qed.

Lemma bind_assoc {A B C} (m : M A) (k1 : A -> M B) (k2 : B -> M C) vm :
  bind (bind m k1) k2 vm = bind m (fun x => bind (k1 x) k2) vm.
Proof. unfold bind. by destruct (m vm) as [[] ?]. Qed.

Ltac msimpl :=
  repeat first [ rewrite bind_ret_l | rewrite bind_assoc
               | progress cbn [of_option fmap option_fmap option_map] ].

Lemma parse_decode dis vm f ia :
  vm_frame vm = Some f ->
  decode dis (code_obj f) (last_instruction f) = Some ia ->
  parse_inst_and_args dis vm
  = (Ok ia, set_top_frame (set_last_instruction (last_instruction f + 2) f) vm).
Proof.
  intros Hf Hd. unfold parse_inst_and_args, decode in *.
  rewrite (bind_Ok _ _ _ _ _ (get_frame_Some _ _ _ Hf)).
  destruct (py_index (co_code (code_obj f)) (last_instruction f)) as [bc|]; [|done].
  msimpl.
  rewrite (bind_Ok _ _ _ _ _ (set_pc_spec _ _ _ Hf)).
  set (f1 := set_last_instruction (last_instruction f + 1) f).
  assert (Hf1 : vm_frame (set_top_frame f1 vm) = Some f1) by (by eapply vm_frame_set_top).
  assert (Hfin : set_pc (last_instruction f + 2) (set_top_frame f1 vm)
     = (Ok tt, set_top_frame (set_last_instruction (last_instruction f + 2) f) vm)).
  { rewrite (set_pc_spec _ _ _ Hf1). by rewrite set_top_frame_twice. }
  destruct (bool_decide (HAVE_ARGUMENT dis <= bc)).
  - destruct (py_index (co_code (code_obj f)) (last_instruction f + 1)) as [av|]; [|done].
    msimpl.
    repeat match goal with
    | |- context [bool_decide ?P] => destruct (bool_decide P)
    end;
    repeat match type of Hd with
    | context [py_index ?l ?i] => destruct (py_index l i); [|done]
    end; cbn in Hd; injection Hd as <-; msimpl;
    rewrite (bind_Ok _ _ _ _ _ Hfin); reflexivity.
  - injection Hd as <-. msimpl. rewrite (bind_Ok _ _ _ _ _ Hfin). reflexivity.
Qed.

Lemma bytecode_fn_LOAD_GLOBAL inv :
  bytecode_fn inv "LOAD_GLOBAL" = Some (Unary inst_LOAD_GLOBAL).
Proof. reflexivity. Qed.
Lemma bytecode_fn_LOAD_FAST inv :
  bytecode_fn inv "LOAD_FAST" = Some (Unary inst_LOAD_FAST).
Proof. reflexivity. Qed.
Lemma bytecode_fn_CALL_FUNCTION inv :
  bytecode_fn inv "CALL_FUNCTION" = Some (Unary (inst_CALL_FUNCTION inv)).
Proof. reflexivity. Qed.

Lemma dispatch_LOAD_GLOBAL_found inv vm f name globals v :
  vm_frame vm = Some f ->
  heap vm !! f_globals f = Some (HDict globals) ->
  globals !! name = Some v ->
  dispatch inv "LOAD_GLOBAL" [VStr name] vm
  = (Ok None, set_top_frame (set_stack (stack f ++ [v]) f) vm).
Proof.
  intros Hf Hg Hv. unfold dispatch, dispatch_body.
  rewrite bytecode_fn_LOAD_GLOBAL. cbn [apply_handler].
  unfold inst_LOAD_GLOBAL. cbn [as_name]. msimpl.
  rewrite (bind_Ok _ _ _ _ _ (get_frame_Some _ _ _ Hf)).
  rewrite (bind_Ok _ _ _ _ _ (dict_at_spec _ _ _ Hg)).
  rewrite Hv. msimpl.
  rewrite (bind_Ok _ _ _ _ _ (push_spec _ _ _ Hf)). reflexivity.
Qed.

Lemma dispatch_LOAD_FAST_found inv vm f name locals v :
  vm_frame vm = Some f ->
  heap vm !! f_locals f = Some (HDict locals) ->
  match name with String "."%char _ => False | _ => True end ->
  locals !! name = Some v ->
  dispatch inv "LOAD_FAST" [VStr name] vm
  = (Ok None, set_top_frame (set_stack (stack f ++ [v]) f) vm).
Proof.
  intros Hf Hl Hdot Hv. unfold dispatch, dispatch_body.
  rewrite bytecode_fn_LOAD_FAST. cbn [apply_handler].
  unfold inst_LOAD_FAST. cbn [as_name]. msimpl.
  assert (Hn : match name with String "."%char rest => "implicit" +:+ rest | _ => name end = name).
  { destruct name as [|c rest]; [done|].
    destruct c as [[] [] [] [] [] [] [] []]; try done. }
  rewrite Hn.
  rewrite (bind_Ok _ _ _ _ _ (get_frame_Some _ _ _ Hf)).
  rewrite (bind_Ok _ _ _ _ _ (dict_at_spec _ _ _ Hl)).
  rewrite Hv. msimpl.
  rewrite (bind_Ok _ _ _ _ _ (push_spec _ _ _ Hf)). reflexivity.
Qed.

Lemma cycle_spec dis inv vm f name args :
  vm_frame vm = Some f ->
  decode dis (code_obj f) (last_instruction f) = Some (name, args) ->
  cycle dis inv vm
  = dispatch inv name args
      (set_top_frame (set_last_instruction (last_instruction f + 2) f) vm).
Proof.
  intros Hf Hd. unfold cycle.
  by rewrite (bind_Ok _ _ _ _ _ (parse_decode _ _ _ _ Hf Hd)).
Qed.

Lemma frames_set_top_frame_length f vm :
  length (frames (set_top_frame f vm)) = length (frames vm).
Proof. unfold set_top_frame. simpl. by rewrite length_insert. Qed.

Lemma run_loop_S dis inv k vm :
  run_loop dis inv (S k) vm
  = bind (cycle dis inv)
         (fun res => match res with Some r => ret r | None => run_loop dis inv k end) vm.
Proof. reflexivity. Qed.

Lemma run_frame_S dis k frame vm :
  run_frame dis (S k) frame vm
  = bind (push_frame frame) (fun _ =>
      bind (run_loop dis (invoke_with (run_frame dis k)) k) (fun res =>
        bind pop_frame (fun _ =>
          if String.eqb res "exception"
          then bind get_vm (fun vm =>
                 match last_exception vm with
                 | Some (exc, val, tb) => fun vm => (Raise (ReExc exc val), vm)
                 | None => raise TypeError "cannot unpack non-iterable NoneType object"
                 end)
          else bind get_vm (fun vm => ret (return_value vm))))) vm.
Proof. reflexivity. Qed.

(** ** The theorems at concrete inputs *)

Lemma push_popn_roundtrip_witness :
  vm_frame sample_vm = Some sample_frame
  /\ (push [VInt 1; VInt 2] ;;; popn 2) sample_vm = (Ok [VInt 1; VInt 2], sample_vm).
Proof.
  split; [reflexivity|].
  exact (proj1 (push_popn_roundtrip sample_vm sample_frame [VInt 1; VInt 2] eq_refl)).
Defined.

Lemma LOAD_NAME_precedence_witness :
  let found := dispatch (invoke dis38 0) "LOAD_NAME" [VStr "len"] sample_vm in
  let missed := dispatch (invoke dis38 0) "LOAD_NAME" [VStr "y"] sample_vm in
  vm_frame sample_vm = Some sample_frame
  /\ heap sample_vm !! f_locals sample_frame
     = Some (HDict (<["x" := VInt 1]> seed_names))
  /\ heap sample_vm !! f_globals sample_frame
     = Some (HDict (<["x" := VInt 1]> seed_names))
  /\ builtin_names sample_frame = VDict 0
  /\ heap sample_vm !! 0%nat = Some (HDict (<["len" := VHost "len"]> ∅))
  /\ fst found = Ok None
  /\ stack <$> vm_frame (snd found) = Some [VInt 7; VHost "len"]
  /\ fst missed = Ok (Some "exception")
  /\ last_exception (snd missed)
     = Some (NameError, NewExc NameError "name 'y' is not defined", None)
  /\ stack <$> vm_frame (snd missed) = Some [VInt 7].
Proof.
  intros found missed. do 5 (split; [reflexivity|]).
  destruct (LOAD_NAME_precedence (invoke dis38 0) sample_vm sample_frame
              "len" _ _ _ 0%nat eq_refl eq_refl eq_refl eq_refl eq_refl)
    as (_ & _ & _ & H3 & _).
  destruct (LOAD_NAME_precedence (invoke dis38 0) sample_vm sample_frame
              "y" _ _ _ 0%nat eq_refl eq_refl eq_refl eq_refl eq_refl)
    as (_ & _ & _ & _ & H4).
  destruct (H3 (VHost "len") eq_refl eq_refl eq_refl) as (_ & Hf1 & Hf2 & _).
  destruct (H4 eq_refl eq_refl eq_refl) as (_ & Hm1 & Hm2 & Hm3 & _).
  split; [exact Hf1|]. split; [exact Hf2|]. split; [exact Hm1|].
  split; [exact Hm2 | exact Hm3].
Defined.

Lemma binary_operator_underflow_witness :
  let r := dispatch (invoke dis38 0) "BINARY_ADD" [] sample_vm in
  vm_frame sample_vm = Some sample_frame
  /\ stack sample_frame = [VInt 7]
  /\ fst r = Ok (Some "exception")
  /\ last_exception (snd r) = Some (ValueError, underflow_fault, None)
  /\ stack <$> vm_frame (snd r) = Some [].
Proof.
  intros r. do 2 (split; [reflexivity|]).
  destruct (binary_operator_underflow (invoke dis38 0) sample_vm sample_frame
              (VInt 7) "ADD" [] eq_refl eq_refl)
    as (Hb & _ & _ & _ & _ & Hl & _ & Hs & _).
  split; [|split; [exact Hl | exact Hs]].
  exact (f_equal fst Hb).
Defined.

Lemma run_code_seeds_names_witness :
  frames fresh_vm = []
  /\ co_cellvars sample_code = []
  /\ co_freevars sample_code = []
  /\ make_frame sample_code [] [] None None fresh_vm
     = (Ok (mkFrame sample_code 1 1 (VDict 0) [] [] 0),
        set_heap [HDict ∅; HDict seed_names] fresh_vm).
Proof.
  do 3 (split; [reflexivity|]).
  destruct (run_code_seeds_names dis38 0 fresh_vm sample_code None eq_refl)
    as (_ & _ & _ & H).
  exact (proj1 (H eq_refl eq_refl)).
Defined.

Lemma MAKE_FUNCTION_defaults_and_closure_witness :
  vm_frame both_vm = Some both_frame
  /\ co_freevars reader_inner_default <> []
  /\ dispatch (invoke dis38 0) "MAKE_FUNCTION" [VInt 9] both_vm
     = (Ok (Some "exception"),
        record_exception (NewExc TypeError "arg 5 (closure) must be tuple")
          (set_top_frame (set_stack [VTuple [VInt 1]] both_frame) both_vm)).
Proof.
  split; [reflexivity|]. split; [discriminate|].
  exact (MAKE_FUNCTION_defaults_and_closure (invoke dis38 0) both_vm both_frame
           [] [VInt 1] [VInt 0] reader_inner_default "outer.<locals>.inner"
           eq_refl eq_refl ltac:(discriminate)).
Defined.

(** * Further properties of the engine *)

(** ** The call stack across [run_frame]

    Handlers reach the call stack only through the active frame, and
    [push_frame] and [pop_frame] are paired inside [run_frame]: by
    induction on the fuel, a [run_frame] that returns a value returns to
    the call stack it started from. *)

Lemma same_call_stack_refl vm : same_call_stack vm vm.
Proof. by split. Qed.

Lemma same_call_stack_trans vm1 vm2 vm3 :
  same_call_stack vm1 vm2 -> same_call_stack vm2 vm3 -> same_call_stack vm1 vm3.
Proof. intros [? ?] [? ?]. split; congruence. Qed.

Lemma removelast_insert_last {A} (l : list A) (x : A) :
  removelast (<[pred (length l) := x]> l) = removelast l.
Proof.
  induction l as [|a l IH]; [done|].
  destruct l as [|b l]; [done|].
  change (removelast (a :: <[pred (length (b :: l)) := x]> (b :: l))
          = a :: removelast (b :: l)).
  rewrite <- IH.
  destruct (<[pred (length (b :: l)) := x]> (b :: l)) eqn:E; [|done].
  apply (f_equal length) in E. rewrite length_insert in E. done.
Qed.

Lemma same_call_stack_set_top f vm : same_call_stack vm (set_top_frame f vm).
Proof.
  split; unfold set_top_frame; simpl.
  - apply removelast_insert_last.
  - apply length_insert.
Qed.

Lemma keeps_ret {A} (a : A) : keeps_stack (ret a).
Proof. intros vm a' vm' [= <- <-]. apply same_call_stack_refl. Qed.
Lemma keeps_raise {A} k msg : keeps_stack (@raise A k msg).
Proof. intros vm a vm' H. discriminate. Qed.
Lemma keeps_unmodelled {A} w : keeps_stack (@unmodelled A w).
Proof. intros vm a vm' H. discriminate. Qed.
Lemma keeps_out_of_fuel {A} : keeps_stack (@out_of_fuel A).
Proof. intros vm a vm' H. discriminate. Qed.
Lemma keeps_bind {A B} (m : M A) (k : A -> M B) :
  keeps_stack m -> (forall a, keeps_stack (k a)) -> keeps_stack (bind m k).
Proof.
  intros Hm Hk vm b vm' H. unfold bind in H.
  destruct (m vm) as [[a| | |] vm1] eqn:E; try discriminate.
  eapply same_call_stack_trans; [by eapply Hm | by eapply Hk].
Qed.
Lemma keeps_of_option {A} (o : option A) k msg : keeps_stack (of_option o k msg).
Proof. destruct o; [apply keeps_ret | apply keeps_raise]. Qed.
Lemma keeps_get_vm : keeps_stack get_vm.
Proof. intros vm a vm' [= <- <-]. apply same_call_stack_refl. Qed.
Lemma keeps_get_frame attr : keeps_stack (get_frame attr).
Proof.
  intros vm a vm' H. unfold get_frame in H.
  destruct (vm_frame vm); [|discriminate]. injection H as <- <-.
  apply same_call_stack_refl.
Qed.
Lemma keeps_put_frame f : keeps_stack (put_frame f).
Proof. intros vm a vm' [= <- <-]. apply same_call_stack_set_top. Qed.
Lemma keeps_alloc o : keeps_stack (alloc o).
Proof. intros vm a vm' [= <- <-]. by split. Qed.
Lemma keeps_heap_get l : keeps_stack (heap_get l).
Proof.
  intros vm a vm' H. unfold heap_get in H.
  destruct (heap vm !! l); [|discriminate]. injection H as <- <-.
  apply same_call_stack_refl.
Qed.
Lemma keeps_heap_set l o : keeps_stack (heap_set l o).
Proof. intros vm a vm' [= <- <-]. by split. Qed.
Lemma keeps_set_return_value v : keeps_stack (set_return_value v).
Proof. intros vm a vm' [= <- <-]. by split. Qed.
Lemma keeps_write_stdout s : keeps_stack (write_stdout s).
Proof. intros vm a vm' [= <- <-]. by split. Qed.

Create HintDb keeps.
#[local] Hint Resolve keeps_ret keeps_raise keeps_unmodelled keeps_out_of_fuel
  keeps_of_option keeps_get_vm keeps_get_frame keeps_put_frame keeps_alloc
  keeps_heap_get keeps_heap_set keeps_set_return_value keeps_write_stdout : keeps.

Ltac keeps_step :=
  match goal with
  | |- keeps_stack (bind _ _) => apply keeps_bind; [|intros ?]
  | |- keeps_stack (match ?x with _ => _ end) => destruct x
  | |- keeps_stack _ => solve [eauto with keeps]
  end.
Ltac keeps_tac := intros; repeat keeps_step.

Lemma keeps_dict_at l : keeps_stack (dict_at l).
Proof. unfold dict_at. keeps_tac. Qed.
Lemma keeps_list_at l : keeps_stack (list_at l).
Proof. unfold list_at. keeps_tac. Qed.
#[local] Hint Resolve keeps_dict_at keeps_list_at : keeps.
Lemma keeps_dict_store l k v : keeps_stack (dict_store l k v).
Proof. unfold dict_store. keeps_tac. Qed.
#[local] Hint Resolve keeps_dict_store : keeps.
Lemma keeps_dict_update l pairs : keeps_stack (dict_update l pairs).
Proof. induction pairs as [|[k v] pairs IH]; simpl; keeps_tac. Qed.
Lemma keeps_top : keeps_stack top.
Proof. unfold top. keeps_tac. Qed.
Lemma keeps_pop : keeps_stack pop.
Proof. unfold pop. keeps_tac. Qed.
Lemma keeps_push vals : keeps_stack (push vals).
Proof. unfold push. keeps_tac. Qed.
Lemma keeps_popn n : keeps_stack (popn n).
Proof. unfold popn. keeps_tac. Qed.
Lemma keeps_unpack2 vals : keeps_stack (unpack2 vals).
Proof. unfold unpack2. keeps_tac. Qed.
Lemma keeps_unpack3 vals : keeps_stack (unpack3 vals).
Proof. unfold unpack3. keeps_tac. Qed.
#[local] Hint Resolve keeps_dict_update keeps_top keeps_pop keeps_push keeps_popn
  keeps_unpack2 keeps_unpack3 : keeps.

Lemma keeps_not_iterable {A} v : keeps_stack (@not_iterable A v).
Proof. unfold not_iterable. keeps_tac. Qed.
Lemma keeps_unsupported_operands {A} sym x y :
  keeps_stack (@unsupported_operands A sym x y).
Proof. unfold unsupported_operands. keeps_tac. Qed.
#[local] Hint Resolve keeps_not_iterable keeps_unsupported_operands : keeps.
Lemma keeps_operand_fault {A} ip op x y : keeps_stack (@operand_fault A ip op x y).
Proof. unfold operand_fault. keeps_tac. Qed.
#[local] Hint Resolve keeps_operand_fault : keeps.
Lemma keeps_py_truth v : keeps_stack (py_truth v).
Proof. unfold py_truth. keeps_tac. Qed.
Lemma keeps_py_iter v : keeps_stack (py_iter v).
Proof. unfold py_iter. keeps_tac. Qed.
Lemma keeps_py_next v : keeps_stack (py_next v).
Proof. unfold py_next. keeps_tac. Qed.
Lemma keeps_py_tuple v : keeps_stack (py_tuple v).
Proof. unfold py_tuple. keeps_tac. Qed.
Lemma keeps_py_str v : keeps_stack (py_str v).
Proof. unfold py_str. keeps_tac. Qed.
Lemma keeps_int_binop op a b : keeps_stack (int_binop op a b).
Proof. unfold int_binop. keeps_tac. Qed.
#[local] Hint Resolve keeps_py_truth keeps_py_iter keeps_py_next keeps_py_tuple
  keeps_py_str keeps_int_binop : keeps.
Lemma keeps_py_operator ip op x y : keeps_stack (py_operator ip op x y).
Proof. unfold py_operator. keeps_tac. Qed.
#[local] Hint Resolve keeps_py_operator : keeps.
Lemma keeps_py_binop op x y : keeps_stack (py_binop op x y).
Proof. apply keeps_py_operator. Qed.
#[local] Hint Resolve keeps_py_binop : keeps.
Lemma keeps_py_iop op x y : keeps_stack (py_iop op x y).
Proof. unfold py_iop. keeps_tac. Qed.
Lemma keeps_py_imatmul x y : keeps_stack (py_imatmul x y).
Proof. unfold py_imatmul. keeps_tac. Qed.
#[local] Hint Resolve keeps_py_iop keeps_py_imatmul : keeps.
Lemma keeps_inplace_statement op f x y :
  inplace_statement op = Some f -> keeps_stack (f x y).
Proof.
  unfold inplace_statement.
  repeat match goal with
  | |- context [if ?b then _ else _] => destruct b
  end; intros [= <-]; eauto with keeps.
Qed.
Lemma keeps_py_ordering op x y : keeps_stack (py_ordering op x y).
Proof. unfold py_ordering. keeps_tac. Qed.
Lemma keeps_py_equal n x y : keeps_stack (py_equal n x y).
Proof. unfold py_equal. keeps_tac. Qed.
Lemma keeps_py_membership x y : keeps_stack (py_membership x y).
Proof. unfold py_membership. keeps_tac. Qed.
Lemma keeps_py_identity n x y : keeps_stack (py_identity n x y).
Proof. unfold py_identity. keeps_tac. Qed.
#[local] Hint Resolve keeps_py_ordering keeps_py_equal keeps_py_membership
  keeps_py_identity : keeps.
Lemma keeps_py_compare op x y : keeps_stack (py_compare op x y).
Proof. unfold py_compare. keeps_tac. Qed.
#[local] Hint Resolve keeps_py_compare : keeps.

Lemma keeps_bind_named f args named acc : keeps_stack (bind_named f args named acc).
Proof.
  revert acc. induction named as [|[k v] named IH]; intros acc; simpl; keeps_tac.
Qed.
Lemma keeps_missing_arguments {A} f req acc :
  keeps_stack (@missing_arguments A f req acc).
Proof. unfold missing_arguments. cbv zeta. keeps_tac. Qed.
Lemma keeps_too_many {A} f n d g : keeps_stack (@too_many A f n d g).
Proof. unfold too_many. cbv zeta. keeps_tac. Qed.
#[local] Hint Resolve keeps_missing_arguments keeps_too_many : keeps.
Lemma keeps_check_required f req acc : keeps_stack (check_required f req acc).
Proof.
  unfold check_required. generalize req at 2. intros rest.
  induction rest as [|a rest IH]; simpl; keeps_tac.
Qed.
Lemma keeps_fill_defaults args : forall ds acc, keeps_stack (fill_defaults args ds acc).
Proof. induction args as [|a args IH]; intros ds acc; simpl; keeps_tac. Qed.
#[local] Hint Resolve keeps_bind_named keeps_check_required keeps_fill_defaults : keeps.
Lemma keeps_getcallargs code ds pos named : keeps_stack (getcallargs code ds pos named).
Proof. unfold getcallargs. cbv zeta. keeps_tac. Qed.
Lemma keeps_as_code v attr : keeps_stack (as_code v attr).
Proof. unfold as_code. keeps_tac. Qed.
Lemma keeps_closure_getitem c i : keeps_stack (closure_getitem c i).
Proof. unfold closure_getitem. keeps_tac. Qed.
Lemma keeps_closure_length c : keeps_stack (closure_length c).
Proof. unfold closure_length. keeps_tac. Qed.
#[local] Hint Resolve keeps_getcallargs keeps_as_code keeps_closure_getitem
  keeps_closure_length : keeps.
Lemma keeps_bind_closure fv c : forall i acc, keeps_stack (bind_closure fv c i acc).
Proof. induction fv as [|a fv IH]; intros i acc; simpl; keeps_tac. Qed.
#[local] Hint Resolve keeps_bind_closure : keeps.
Lemma keeps_Function_init n c d cl : keeps_stack (Function_init n c d cl).
Proof. unfold Function_init. cbv zeta. keeps_tac. Qed.
Lemma keeps_bind_cells names d : forall acc, keeps_stack (bind_cells names d acc).
Proof. induction names as [|a names IH]; intros acc; simpl; keeps_tac. Qed.
#[local] Hint Resolve keeps_Function_init keeps_bind_cells : keeps.
Lemma keeps_Frame_init code g l prev : keeps_stack (Frame_init code g l prev).
Proof. unfold Frame_init. keeps_tac. Qed.
#[local] Hint Resolve keeps_Frame_init : keeps.
Lemma keeps_make_frame code cl ca g l : keeps_stack (make_frame code cl ca g l).
Proof. unfold make_frame. cbv zeta. keeps_tac. Qed.
#[local] Hint Resolve keeps_make_frame : keeps.

Lemma keeps_as_name v : keeps_stack (as_name v).
Proof. unfold as_name. keeps_tac. Qed.
Lemma keeps_as_int v : keeps_stack (as_int v).
Proof. unfold as_int. keeps_tac. Qed.
Lemma keeps_builtin_lookup bn n : keeps_stack (builtin_lookup bn n).
Proof. unfold builtin_lookup. keeps_tac. Qed.
Lemma keeps_dict_pop l n : keeps_stack (dict_pop l n).
Proof. unfold dict_pop. keeps_tac. Qed.
#[local] Hint Resolve keeps_as_name keeps_as_int keeps_builtin_lookup keeps_dict_pop : keeps.
Lemma keeps_jump t : keeps_stack (jump t).
Proof. unfold jump. keeps_tac. Qed.
Lemma keeps_py_reversed v : keeps_stack (py_reversed v).
Proof. unfold py_reversed. keeps_tac. Qed.
Lemma keeps_push_each vals : keeps_stack (push_each vals).
Proof. induction vals as [|a vals IH]; simpl; keeps_tac. Qed.
Lemma keeps_py_setitem o k v : keeps_stack (py_setitem o k v).
Proof. unfold py_setitem. keeps_tac. Qed.
Lemma keeps_py_reverse_slice v : keeps_stack (py_reverse_slice v).
Proof. unfold py_reverse_slice. keeps_tac. Qed.
Lemma keeps_set_pc pc : keeps_stack (set_pc pc).
Proof. unfold set_pc. keeps_tac. Qed.
#[local] Hint Resolve keeps_jump keeps_py_reversed keeps_push_each keeps_py_setitem
  keeps_py_reverse_slice keeps_set_pc : keeps.
Lemma keeps_binaryOperator op : keeps_stack (binaryOperator op).
Proof. unfold binaryOperator. keeps_tac. Qed.
Lemma keeps_inplaceOperator op : keeps_stack (inplaceOperator op).
Proof.
  unfold inplaceOperator.
  apply keeps_bind; [eauto with keeps|intros vals].
  apply keeps_bind; [eauto with keeps|intros xy].
  destruct (inplace_statement op) as [f|] eqn:E; [|eauto with keeps].
  apply keeps_bind; [by eapply keeps_inplace_statement|intros x].
  eauto with keeps.
Qed.
Lemma keeps_pop_kwargs names : forall kw, keeps_stack (pop_kwargs names kw).
Proof. induction names as [|a names IH]; intros kw; simpl; keeps_tac. Qed.
#[local] Hint Resolve keeps_binaryOperator keeps_inplaceOperator keeps_pop_kwargs : keeps.
Lemma keeps_parse dis : keeps_stack (parse_inst_and_args dis).
Proof. unfold parse_inst_and_args. cbv zeta. keeps_tac. Qed.

Lemma handler_ok_bind {A} (m : M A) (k : A -> M (option string)) :
  keeps_stack m -> (forall a, handler_ok (k a)) -> handler_ok (bind m k).
Proof.
  intros Hm Hk vm b vm' H. unfold bind in H.
  destruct (m vm) as [[a| | |] vm1] eqn:E; try discriminate.
  destruct (Hk a _ _ _ H) as [Hs Hr]. split; [|done].
  eapply same_call_stack_trans; [by eapply Hm | done].
Qed.
Lemma handler_ok_none : handler_ok none.
Proof. intros vm r vm' [= <- <-]. split; [apply same_call_stack_refl | done]. Qed.
Lemma handler_ok_ret (r : option string) :
  r <> Some "exception" -> handler_ok (ret r).
Proof. intros Hr vm r' vm' [= <- <-]. split; [apply same_call_stack_refl | done]. Qed.
Lemma handler_ok_raise k msg : handler_ok (raise k msg).
Proof. intros vm a vm' H. discriminate. Qed.
Lemma handler_ok_unmodelled w : handler_ok (unmodelled w).
Proof. intros vm a vm' H. discriminate. Qed.

Create HintDb handler.
#[local] Hint Resolve handler_ok_none handler_ok_raise handler_ok_unmodelled : handler.

Ltac handler_step :=
  match goal with
  | |- handler_ok (bind _ _) => apply handler_ok_bind; [solve [keeps_tac]|intros ?]
  | |- handler_ok (match ?x with _ => _ end) => destruct x
  | |- handler_ok (ret _) => apply handler_ok_ret; discriminate
  | |- handler_ok _ => solve [eauto with handler]
  end.
Ltac handler_tac := intros; cbv zeta; repeat handler_step.

Section HandlersKeep.
Variable inv : Value -> list Value -> list (string * Value) -> M Value.
Hypothesis Hinv : forall func args kwargs, keeps_stack (inv func args kwargs).
#[local] Hint Resolve Hinv : keeps.

Lemma handlers_good : Forall (fun nh => handler_good (snd nh)) (handlers inv).
Proof.
  unfold handlers.
  repeat (constructor;
          [ cbn [handler_good snd]; intros;
            unfold inst_LOAD_CONST, inst_POP_TOP, inst_DUP_TOP, inst_DUP_TOP_TWO,
              inst_LOAD_NAME, inst_STORE_NAME, inst_DELETE_NAME, inst_LOAD_FAST,
              inst_STORE_FAST, inst_GET_ITER, inst_FOR_ITER, inst_LOAD_GLOBAL,
              inst_UNPACK_SEQUENCE, inst_STORE_GLOBAL, inst_DELETE_GLOBAL,
              inst_LOAD_METHOD, inst_CALL_METHOD, inst_STORE_SUBSCR, inst_LOAD_ATTR,
              inst_STORE_ATTR, inst_DELETE_ATTR, inst_BUILD_LIST, inst_BUILD_TUPLE,
              inst_BUILD_SET, inst_BUILD_MAP, inst_LOAD_BUILD_CLASS, inst_STORE_MAP,
              inst_LIST_APPEND, inst_IMPORT_NAME, inst_IMPORT_FROM, inst_COMPARE_OP,
              inst_JUMP_FORWARD, inst_JUMP_ABSOLUTE, inst_POP_JUMP_IF_TRUE,
              inst_POP_JUMP_IF_FALSE, inst_MAKE_FUNCTION, inst_CALL_FUNCTION,
              inst_CALL_FUNCTION_KW, inst_LOAD_CLOSURE, inst_LOAD_DEREF,
              inst_RETURN_VALUE, inst_PRINT_ITEM, inst_PRINT_NEWLINE;
            solve [handler_tac]
          | ]).
  constructor.
Qed.

Lemma bytecode_fn_in_good table name h :
  Forall (fun nh => handler_good (snd nh)) table ->
  bytecode_fn_in table name = Some h -> handler_good h.
Proof.
  induction 1 as [|[n h'] table Hh Ht IH]; simpl; [done|].
  destruct (String.eqb name n); [by intros [= <-] | done].
Qed.

Lemma dispatch_body_ok name args : handler_ok (dispatch_body inv name args).
Proof.
  unfold dispatch_body.
  destruct (bytecode_fn inv name) as [h|] eqn:E.
  - pose proof (bytecode_fn_in_good _ _ _ handlers_good E) as Hh.
    destruct h as [m|f]; simpl in Hh; unfold apply_handler;
      destruct args as [|a [|b args]]; eauto with handler.
  - handler_tac.
Qed.

End HandlersKeep.

Lemma dispatch_keeps inv name args vm r vm' :
  (forall func a k, keeps_stack (inv func a k)) ->
  dispatch inv name args vm = (Ok r, vm') ->
  r <> Some "exception" ->
  same_call_stack vm vm'.
Proof.
  intros Hinv H Hr. unfold dispatch in H.
  destruct (dispatch_body inv name args vm) as [[r0|e|w|] vm0] eqn:E;
    try discriminate.
  - injection H as <- <-. by eapply (dispatch_body_ok inv Hinv).
  - injection H as <- <-. done.
Qed.

Lemma cycle_keeps dis inv vm r vm' :
  (forall func a k, keeps_stack (inv func a k)) ->
  cycle dis inv vm = (Ok r, vm') ->
  r <> Some "exception" ->
  same_call_stack vm vm'.
Proof.
  intros Hinv H Hr. unfold cycle, bind in H.
  destruct (parse_inst_and_args dis vm) as [[ia| | |] vm0] eqn:E; try discriminate.
  eapply same_call_stack_trans; [by eapply keeps_parse|].
  by eapply dispatch_keeps.
Qed.

Lemma run_loop_keeps dis inv (fuel : nat) :
  (forall func a k, keeps_stack (inv func a k)) ->
  forall vm res vm',
    run_loop dis inv fuel vm = (Ok res, vm') ->
    res <> "exception" ->
    same_call_stack vm vm'.
Proof.
  intros Hinv. induction fuel as [|k IH]; intros vm res vm' H Hres; [discriminate|].
  rewrite run_loop_S in H. unfold bind in H.
  destruct (cycle dis inv vm) as [[r| | |] vm0] eqn:E; try discriminate.
  destruct r as [r|].
  - injection H as <- <-. eapply cycle_keeps; [done|done|]. congruence.
  - eapply same_call_stack_trans; [eapply cycle_keeps; [done|done|done]|].
    by eapply IH.
Qed.

Lemma removelast_snoc {A} (l : list A) (x : A) : removelast (l ++ [x]) = l.
Proof. apply removelast_last. Qed.

Lemma bind_Ok_inv {A B} (m : M A) (k : A -> M B) vm b vm' :
  bind m k vm = (Ok b, vm') ->
  exists a vm1, m vm = (Ok a, vm1) /\ k a vm1 = (Ok b, vm').
Proof.
  unfold bind. destruct (m vm) as [[a| | |] vm1]; try discriminate. eauto.
Qed.

Lemma run_frame_frames (dis : DisModule) (fuel : nat) :
  forall (frame : Frame) (vm vm' : VirtualMachine) (v : Value),
    run_frame dis fuel frame vm = (Ok v, vm') ->
    frames vm' = frames vm.
Proof.
  induction fuel as [|k IH]; intros frame vm vm' v H; [discriminate|].
  assert (Hinv : forall func a kw, keeps_stack (invoke_with (run_frame dis k) func a kw)).
  { intros func a kw. unfold invoke_with. destruct func; try solve [keeps_tac].
    unfold Function_call. apply keeps_bind; [eauto with keeps|intros ca].
    apply keeps_bind; [eauto with keeps|intros l].
    apply keeps_bind; [eauto with keeps|intros fr].
    intros vm1 v1 vm2 H1. pose proof (IH _ _ _ _ H1) as Heq.
    unfold same_call_stack. by rewrite Heq. }
  rewrite run_frame_S in H.
  apply bind_Ok_inv in H as ([] & vm1 & Hpush & H).
  apply bind_Ok_inv in H as (res & vm2 & Hloop & H).
  apply bind_Ok_inv in H as ([] & vm3 & Hpop & H).
  injection Hpush as <-.
  destruct (String.eqb res "exception") eqn:Eres.
  { apply bind_Ok_inv in H as (vm4 & vm5 & Hget & H).
    destruct (last_exception vm4) as [[[? ?] ?]|]; discriminate. }
  apply String.eqb_neq in Eres.
  destruct (run_loop_keeps dis _ k Hinv _ _ _ Hloop Eres) as [Hrl Hlen].
  simpl in Hrl, Hlen. rewrite removelast_snoc in Hrl.
  unfold pop_frame in Hpop. cbv beta in Hpop.
  destruct (frames vm2) as [|f0 fs] eqn:Efs; [discriminate|].
  injection Hpop as <-.
  apply bind_Ok_inv in H as (vm4 & vm5 & Hget & H).
  injection Hget as <- <-. injection H as <- <-. simpl.
  exact Hrl.
Qed.


Lemma invoke_keeps_stack dis k func a kw :
  keeps_stack (invoke_with (run_frame dis k) func a kw).
Proof.
  unfold invoke_with. destruct func; try solve [keeps_tac].
  unfold Function_call. apply keeps_bind; [eauto with keeps|intros ca].
  apply keeps_bind; [eauto with keeps|intros l].
  apply keeps_bind; [eauto with keeps|intros fr].
  intros vm1 v1 vm2 H1. pose proof (run_frame_frames _ _ _ _ _ _ H1) as Heq.
  unfold same_call_stack. by rewrite Heq.
Qed.

(** X1.  A [run_frame] that returns a value leaves the call stack exactly
    as it found it, whatever the code, the frame, the machine and the
    depth of the calls made on the way: every frame pushed by the run,
    its own and those of the functions it called, has been popped, and
    no frame below was replaced.  The value returned is the machine's
    [return_value]. *)
Theorem run_frame_restores_call_stack (dis : DisModule) (fuel : nat)
    (frame : Frame) (vm vm' : VirtualMachine) (v : Value) :
  run_frame dis fuel frame vm = (Ok v, vm') ->
  frames vm' = frames vm /\ return_value vm' = v.
Proof.
  intros H. split; [by eapply run_frame_frames|].
  destruct fuel as [|k]; [discriminate|]. rewrite run_frame_S in H.
  apply bind_Ok_inv in H as ([] & vm1 & _ & H).
  apply bind_Ok_inv in H as (res & vm2 & _ & H).
  apply bind_Ok_inv in H as ([] & vm3 & _ & H).
  destruct (String.eqb res "exception").
  - apply bind_Ok_inv in H as (vm4 & vm5 & _ & H).
    destruct (last_exception vm4) as [[[? ?] ?]|]; discriminate.
  - apply bind_Ok_inv in H as (vm4 & vm5 & Hget & H).
    injection Hget as <- <-. by injection H as <- <-.
Qed.

Lemma run_frame_restores_call_stack_witness :
  let frame := root_frame (same_function_twice reader_inner (VInt 0)) in
  fst (run_frame dis38 50 frame idle_vm) = Ok VNone
  /\ frames (snd (run_frame dis38 50 frame idle_vm)) = frames idle_vm
  /\ return_value (snd (run_frame dis38 50 frame idle_vm)) = VNone.
Proof.
  intros frame. split; [vm_compute; reflexivity|].
  apply (run_frame_restores_call_stack dis38 50 frame idle_vm _ VNone).
  vm_compute. reflexivity.
Defined.

(** ** The depth of the call stack, on every run

    No computation of the engine but [pop_frame] removes a frame, and
    [run_frame] pops only after it has pushed: however a computation
    ends, the call stack is at least as deep as it was. *)

Lemma ns_same_length {A} (m : M A) :
  (forall vm r vm', m vm = (r, vm') -> length (frames vm') = length (frames vm)) ->
  never_shrinks m.
Proof. intros H vm r vm' E. by rewrite (H _ _ _ E). Qed.

Lemma ns_ret {A} (a : A) : never_shrinks (ret a).
Proof. apply ns_same_length. by intros vm r vm' [= <- <-]. Qed.
Lemma ns_raise {A} k msg : never_shrinks (@raise A k msg).
Proof. apply ns_same_length. by intros vm r vm' [= <- <-]. Qed.
Lemma ns_unmodelled {A} w : never_shrinks (@unmodelled A w).
Proof. apply ns_same_length. by intros vm r vm' [= <- <-]. Qed.
Lemma ns_out_of_fuel {A} : never_shrinks (@out_of_fuel A).
Proof. apply ns_same_length. by intros vm r vm' [= <- <-]. Qed.
Lemma ns_bind {A B} (m : M A) (k : A -> M B) :
  never_shrinks m -> (forall a, never_shrinks (k a)) -> never_shrinks (bind m k).
Proof.
  intros Hm Hk vm r vm' H. unfold bind in H.
  destruct (m vm) as [[a| | |] vm1] eqn:E.
  - pose proof (Hm _ _ _ E). pose proof (Hk _ _ _ _ H). lia.
  - injection H as <- <-. by eapply Hm.
  - injection H as <- <-. by eapply Hm.
  - injection H as <- <-. by eapply Hm.
Qed.
Lemma ns_of_option {A} (o : option A) k msg : never_shrinks (of_option o k msg).
Proof. destruct o; [apply ns_ret | apply ns_raise]. Qed.
Lemma ns_get_vm : never_shrinks get_vm.
Proof. apply ns_same_length. by intros vm r vm' [= <- <-]. Qed.
Lemma ns_get_frame attr : never_shrinks (get_frame attr).
Proof.
  apply ns_same_length. intros vm r vm' H. unfold get_frame in H.
  by destruct (vm_frame vm); injection H as <- <-.
Qed.
Lemma ns_put_frame f : never_shrinks (put_frame f).
Proof.
  apply ns_same_length. intros vm r vm' [= <- <-].
  apply frames_set_top_frame_length.
Qed.
Lemma ns_alloc o : never_shrinks (alloc o).
Proof. apply ns_same_length. by intros vm r vm' [= <- <-]. Qed.
Lemma ns_heap_get l : never_shrinks (heap_get l).
Proof.
  apply ns_same_length. intros vm r vm' H. unfold heap_get in H.
  by destruct (heap vm !! l); injection H as <- <-.
Qed.
Lemma ns_heap_set l o : never_shrinks (heap_set l o).
Proof. apply ns_same_length. by intros vm r vm' [= <- <-]. Qed.
Lemma ns_set_return_value v : never_shrinks (set_return_value v).
Proof. apply ns_same_length. by intros vm r vm' [= <- <-]. Qed.
Lemma ns_write_stdout s : never_shrinks (write_stdout s).
Proof. apply ns_same_length. by intros vm r vm' [= <- <-]. Qed.

Create HintDb ns.
#[local] Hint Resolve ns_ret ns_raise ns_unmodelled ns_out_of_fuel
  ns_of_option ns_get_vm ns_get_frame ns_put_frame ns_alloc
  ns_heap_get ns_heap_set ns_set_return_value ns_write_stdout : ns.

Ltac ns_step :=
  match goal with
  | |- never_shrinks (bind _ _) => apply ns_bind; [|intros ?]
  | |- never_shrinks (match ?x with _ => _ end) => destruct x
  | |- never_shrinks _ => solve [eauto with ns]
  end.
Ltac ns_tac := intros; repeat ns_step.

Lemma ns_dict_at l : never_shrinks (dict_at l).
Proof. unfold dict_at. ns_tac. Qed.
Lemma ns_list_at l : never_shrinks (list_at l).
Proof. unfold list_at. ns_tac. Qed.
#[local] Hint Resolve ns_dict_at ns_list_at : ns.
Lemma ns_dict_store l k v : never_shrinks (dict_store l k v).
Proof. unfold dict_store. ns_tac. Qed.
#[local] Hint Resolve ns_dict_store : ns.
Lemma ns_dict_update l pairs : never_shrinks (dict_update l pairs).
Proof. induction pairs as [|[k v] pairs IH]; simpl; ns_tac. Qed.
Lemma ns_top : never_shrinks top.
Proof. unfold top. ns_tac. Qed.
Lemma ns_pop : never_shrinks pop.
Proof. unfold pop. ns_tac. Qed.
Lemma ns_push vals : never_shrinks (push vals).
Proof. unfold push. ns_tac. Qed.
Lemma ns_popn n : never_shrinks (popn n).
Proof. unfold popn. ns_tac. Qed.
Lemma ns_unpack2 vals : never_shrinks (unpack2 vals).
Proof. unfold unpack2. ns_tac. Qed.
Lemma ns_unpack3 vals : never_shrinks (unpack3 vals).
Proof. unfold unpack3. ns_tac. Qed.
#[local] Hint Resolve ns_dict_update ns_top ns_pop ns_push ns_popn
  ns_unpack2 ns_unpack3 : ns.

Lemma ns_not_iterable {A} v : never_shrinks (@not_iterable A v).
Proof. unfold not_iterable. ns_tac. Qed.
Lemma ns_unsupported_operands {A} sym x y :
  never_shrinks (@unsupported_operands A sym x y).
Proof. unfold unsupported_operands. ns_tac. Qed.
#[local] Hint Resolve ns_not_iterable ns_unsupported_operands : ns.
Lemma ns_operand_fault {A} ip op x y : never_shrinks (@operand_fault A ip op x y).
Proof. unfold operand_fault. ns_tac. Qed.
#[local] Hint Resolve ns_operand_fault : ns.
Lemma ns_py_truth v : never_shrinks (py_truth v).
Proof. unfold py_truth. ns_tac. Qed.
Lemma ns_py_iter v : never_shrinks (py_iter v).
Proof. unfold py_iter. ns_tac. Qed.
Lemma ns_py_next v : never_shrinks (py_next v).
Proof. unfold py_next. ns_tac. Qed.
Lemma ns_py_tuple v : never_shrinks (py_tuple v).
Proof. unfold py_tuple. ns_tac. Qed.
Lemma ns_py_str v : never_shrinks (py_str v).
Proof. unfold py_str. ns_tac. Qed.
Lemma ns_int_binop op a b : never_shrinks (int_binop op a b).
Proof. unfold int_binop. ns_tac. Qed.
#[local] Hint Resolve ns_py_truth ns_py_iter ns_py_next ns_py_tuple
  ns_py_str ns_int_binop : ns.
Lemma ns_py_operator ip op x y : never_shrinks (py_operator ip op x y).
Proof. unfold py_operator. ns_tac. Qed.
#[local] Hint Resolve ns_py_operator : ns.
Lemma ns_py_binop op x y : never_shrinks (py_binop op x y).
Proof. apply ns_py_operator. Qed.
#[local] Hint Resolve ns_py_binop : ns.
Lemma ns_py_iop op x y : never_shrinks (py_iop op x y).
Proof. unfold py_iop. ns_tac. Qed.
Lemma ns_py_imatmul x y : never_shrinks (py_imatmul x y).
Proof. unfold py_imatmul. ns_tac. Qed.
#[local] Hint Resolve ns_py_iop ns_py_imatmul : ns.
Lemma ns_inplace_statement op f x y :
  inplace_statement op = Some f -> never_shrinks (f x y).
Proof.
  unfold inplace_statement.
  repeat match goal with
  | |- context [if ?b then _ else _] => destruct b
  end; intros [= <-]; eauto with ns.
Qed.
Lemma ns_py_ordering op x y : never_shrinks (py_ordering op x y).
Proof. unfold py_ordering. ns_tac. Qed.
Lemma ns_py_equal n x y : never_shrinks (py_equal n x y).
Proof. unfold py_equal. ns_tac. Qed.
Lemma ns_py_membership x y : never_shrinks (py_membership x y).
Proof. unfold py_membership. ns_tac. Qed.
Lemma ns_py_identity n x y : never_shrinks (py_identity n x y).
Proof. unfold py_identity. ns_tac. Qed.
#[local] Hint Resolve ns_py_ordering ns_py_equal ns_py_membership
  ns_py_identity : ns.
Lemma ns_py_compare op x y : never_shrinks (py_compare op x y).
Proof. unfold py_compare. ns_tac. Qed.
#[local] Hint Resolve ns_py_compare : ns.

Lemma ns_bind_named f args named acc : never_shrinks (bind_named f args named acc).
Proof.
  revert acc. induction named as [|[k v] named IH]; intros acc; simpl; ns_tac.
Qed.
Lemma ns_missing_arguments {A} f req acc :
  never_shrinks (@missing_arguments A f req acc).
Proof. unfold missing_arguments. cbv zeta. ns_tac. Qed.
Lemma ns_too_many {A} f n d g : never_shrinks (@too_many A f n d g).
Proof. unfold too_many. cbv zeta. ns_tac. Qed.
#[local] Hint Resolve ns_missing_arguments ns_too_many : ns.
Lemma ns_check_required f req acc : never_shrinks (check_required f req acc).
Proof.
  unfold check_required. generalize req at 2. intros rest.
  induction rest as [|a rest IH]; simpl; ns_tac.
Qed.
Lemma ns_fill_defaults args : forall ds acc, never_shrinks (fill_defaults args ds acc).
Proof. induction args as [|a args IH]; intros ds acc; simpl; ns_tac. Qed.
#[local] Hint Resolve ns_bind_named ns_check_required ns_fill_defaults : ns.
Lemma ns_getcallargs code ds pos named : never_shrinks (getcallargs code ds pos named).
Proof. unfold getcallargs. cbv zeta. ns_tac. Qed.
Lemma ns_as_code v attr : never_shrinks (as_code v attr).
Proof. unfold as_code. ns_tac. Qed.
Lemma ns_closure_getitem c i : never_shrinks (closure_getitem c i).
Proof. unfold closure_getitem. ns_tac. Qed.
Lemma ns_closure_length c : never_shrinks (closure_length c).
Proof. unfold closure_length. ns_tac. Qed.
#[local] Hint Resolve ns_getcallargs ns_as_code ns_closure_getitem
  ns_closure_length : ns.
Lemma ns_bind_closure fv c : forall i acc, never_shrinks (bind_closure fv c i acc).
Proof. induction fv as [|a fv IH]; intros i acc; simpl; ns_tac. Qed.
#[local] Hint Resolve ns_bind_closure : ns.
Lemma ns_Function_init n c d cl : never_shrinks (Function_init n c d cl).
Proof. unfold Function_init. cbv zeta. ns_tac. Qed.
Lemma ns_bind_cells names d : forall acc, never_shrinks (bind_cells names d acc).
Proof. induction names as [|a names IH]; intros acc; simpl; ns_tac. Qed.
#[local] Hint Resolve ns_Function_init ns_bind_cells : ns.
Lemma ns_Frame_init code g l prev : never_shrinks (Frame_init code g l prev).
Proof. unfold Frame_init. ns_tac. Qed.
#[local] Hint Resolve ns_Frame_init : ns.
Lemma ns_make_frame code cl ca g l : never_shrinks (make_frame code cl ca g l).
Proof. unfold make_frame. cbv zeta. ns_tac. Qed.
#[local] Hint Resolve ns_make_frame : ns.

Lemma ns_as_name v : never_shrinks (as_name v).
Proof. unfold as_name. ns_tac. Qed.
Lemma ns_as_int v : never_shrinks (as_int v).
Proof. unfold as_int. ns_tac. Qed.
Lemma ns_builtin_lookup bn n : never_shrinks (builtin_lookup bn n).
Proof. unfold builtin_lookup. ns_tac. Qed.
Lemma ns_dict_pop l n : never_shrinks (dict_pop l n).
Proof. unfold dict_pop. ns_tac. Qed.
#[local] Hint Resolve ns_as_name ns_as_int ns_builtin_lookup ns_dict_pop : ns.
Lemma ns_jump t : never_shrinks (jump t).
Proof. unfold jump. ns_tac. Qed.
Lemma ns_py_reversed v : never_shrinks (py_reversed v).
Proof. unfold py_reversed. ns_tac. Qed.
Lemma ns_push_each vals : never_shrinks (push_each vals).
Proof. induction vals as [|a vals IH]; simpl; ns_tac. Qed.
Lemma ns_py_setitem o k v : never_shrinks (py_setitem o k v).
Proof. unfold py_setitem. ns_tac. Qed.
Lemma ns_py_reverse_slice v : never_shrinks (py_reverse_slice v).
Proof. unfold py_reverse_slice. ns_tac. Qed.
Lemma ns_set_pc pc : never_shrinks (set_pc pc).
Proof. unfold set_pc. ns_tac. Qed.
#[local] Hint Resolve ns_jump ns_py_reversed ns_push_each ns_py_setitem
  ns_py_reverse_slice ns_set_pc : ns.
Lemma ns_binaryOperator op : never_shrinks (binaryOperator op).
Proof. unfold binaryOperator. ns_tac. Qed.
Lemma ns_inplaceOperator op : never_shrinks (inplaceOperator op).
Proof.
  unfold inplaceOperator.
  apply ns_bind; [eauto with ns|intros vals].
  apply ns_bind; [eauto with ns|intros xy].
  destruct (inplace_statement op) as [f|] eqn:E; [|eauto with ns].
  apply ns_bind; [by eapply ns_inplace_statement|intros x].
  eauto with ns.
Qed.
Lemma ns_pop_kwargs names : forall kw, never_shrinks (pop_kwargs names kw).
Proof. induction names as [|a names IH]; intros kw; simpl; ns_tac. Qed.
#[local] Hint Resolve ns_binaryOperator ns_inplaceOperator ns_pop_kwargs : ns.
Lemma ns_parse dis : never_shrinks (parse_inst_and_args dis).
Proof. unfold parse_inst_and_args. cbv zeta. ns_tac. Qed.


Section HandlersDepth.
Variable inv : Value -> list Value -> list (string * Value) -> M Value.
Hypothesis Hinv : forall func args kwargs, never_shrinks (inv func args kwargs).
#[local] Hint Resolve Hinv : ns.

Lemma handlers_deep : Forall (fun nh => handler_deep (snd nh)) (handlers inv).
Proof.
  unfold handlers.
  repeat (constructor;
          [ cbn [handler_deep snd]; intros;
            unfold inst_LOAD_CONST, inst_POP_TOP, inst_DUP_TOP, inst_DUP_TOP_TWO,
              inst_LOAD_NAME, inst_STORE_NAME, inst_DELETE_NAME, inst_LOAD_FAST,
              inst_STORE_FAST, inst_GET_ITER, inst_FOR_ITER, inst_LOAD_GLOBAL,
              inst_UNPACK_SEQUENCE, inst_STORE_GLOBAL, inst_DELETE_GLOBAL,
              inst_LOAD_METHOD, inst_CALL_METHOD, inst_STORE_SUBSCR, inst_LOAD_ATTR,
              inst_STORE_ATTR, inst_DELETE_ATTR, inst_BUILD_LIST, inst_BUILD_TUPLE,
              inst_BUILD_SET, inst_BUILD_MAP, inst_LOAD_BUILD_CLASS, inst_STORE_MAP,
              inst_LIST_APPEND, inst_IMPORT_NAME, inst_IMPORT_FROM, inst_COMPARE_OP,
              inst_JUMP_FORWARD, inst_JUMP_ABSOLUTE, inst_POP_JUMP_IF_TRUE,
              inst_POP_JUMP_IF_FALSE, inst_MAKE_FUNCTION, inst_CALL_FUNCTION,
              inst_CALL_FUNCTION_KW, inst_LOAD_CLOSURE, inst_LOAD_DEREF,
              inst_RETURN_VALUE, inst_PRINT_ITEM, inst_PRINT_NEWLINE, none;
            cbv zeta; solve [ns_tac]
          | ]).
  constructor.
Qed.

Lemma bytecode_fn_in_deep table name h :
  Forall (fun nh => handler_deep (snd nh)) table ->
  bytecode_fn_in table name = Some h -> handler_deep h.
Proof.
  induction 1 as [|[n h'] table Hh Ht IH]; simpl; [done|].
  destruct (String.eqb name n); [by intros [= <-] | done].
Qed.

Lemma dispatch_body_ns name args : never_shrinks (dispatch_body inv name args).
Proof.
  unfold dispatch_body.
  destruct (bytecode_fn inv name) as [h|] eqn:E.
  - pose proof (bytecode_fn_in_deep _ _ _ handlers_deep E) as Hh.
    destruct h as [m|f]; simpl in Hh; unfold apply_handler;
      destruct args as [|a [|b args]]; eauto with ns.
  - unfold none. ns_tac.
Qed.

Lemma dispatch_ns name args : never_shrinks (dispatch inv name args).
Proof.
  intros vm r vm' H. unfold dispatch in H.
  destruct (dispatch_body inv name args vm) as [[r0|e|w|] vm0] eqn:E;
    pose proof (dispatch_body_ns name args _ _ _ E) as Hd;
    by injection H as <- <-.
Qed.

Lemma cycle_ns dis : never_shrinks (cycle dis inv).
Proof.
  unfold cycle. apply ns_bind; [apply ns_parse|intros ia]. apply dispatch_ns.
Qed.

Lemma run_loop_ns dis (fuel : nat) : never_shrinks (run_loop dis inv fuel).
Proof.
  induction fuel as [|k IH]; [apply ns_out_of_fuel|].
  cbn [run_loop]. apply ns_bind; [apply cycle_ns|].
  intros [r|]; [apply ns_ret | exact IH].
Qed.

Lemma after_cycles_ns dis (n : nat) :
  forall vm vm',
    after_cycles dis inv n vm = Some vm' ->
    (length (frames vm) <= length (frames vm'))%nat.
Proof.
  induction n as [|n IH]; intros vm vm' H; simpl in H.
  - by injection H as <-.
  - destruct (cycle dis inv vm) as [[[r|]| | |] vm1] eqn:E; try discriminate.
    pose proof (cycle_ns dis _ _ _ E). pose proof (IH _ _ H). lia.
Qed.

End HandlersDepth.

Lemma run_frame_ns (dis : DisModule) (fuel : nat) :
  forall frame, never_shrinks (run_frame dis fuel frame).
Proof.
  induction fuel as [|k IH]; intros frame; [apply ns_out_of_fuel|].
  assert (Hinv : forall func a kw,
             never_shrinks (invoke_with (run_frame dis k) func a kw)).
  { intros func a kw. unfold invoke_with. destruct func; try solve [ns_tac].
    unfold Function_call. ns_tac. }
  intros vm r vm' H. rewrite run_frame_S in H. unfold bind at 1 in H.
  cbn [push_frame] in H. unfold bind at 1 in H.
  destruct (run_loop dis (invoke_with (run_frame dis k)) k _)
    as [[res|e|w|] vm2] eqn:Eloop;
    pose proof (run_loop_ns _ Hinv dis k _ _ _ Eloop) as Hlen;
    simpl in Hlen; rewrite length_app in Hlen; simpl in Hlen;
    try (injection H as <- <-; lia).
  unfold bind at 1 in H. unfold pop_frame in H.
  destruct (frames vm2) as [|f0 fs] eqn:Efs; [simpl in Hlen; lia|].
  assert (Hrest : forall m : M Value,
             (forall vm r vm', m vm = (r, vm') -> frames vm' = frames vm) ->
             m (mkVM (removelast (f0 :: fs)) (return_value vm2)
                     (last_exception vm2) (heap vm2) (stdout vm2)) = (r, vm') ->
             (length (frames vm) <= length (frames vm'))%nat).
  { intros m Hm Hr. rewrite (Hm _ _ _ Hr). cbn [frames].
    rewrite removelast_firstn_len, length_take. simpl in Hlen. simpl. lia. }
  eapply Hrest; [|exact H].
  intros vm0 r0 vm0' H0.
  destruct (String.eqb res "exception").
  - unfold bind, get_vm in H0.
    destruct (last_exception vm0) as [[[exc val] tb]|]; by injection H0 as <- <-.
  - by injection H0 as <- <-.
Qed.

Lemma invoke_never_shrinks dis k func a kw :
  never_shrinks (invoke_with (run_frame dis k) func a kw).
Proof.
  unfold invoke_with. destruct func; try solve [ns_tac].
  unfold Function_call. pose proof (run_frame_ns dis k). ns_tac.
Qed.

(** ** What leaves [run_frame] *)

Lemma push_frame_spec frame vm : push_frame frame vm = (Ok tt, with_frame frame vm).
Proof. reflexivity. Qed.

Lemma vm_frame_with_frame frame vm : vm_frame (with_frame frame vm) = Some frame.
Proof. unfold vm_frame, with_frame. simpl. apply last_snoc. Qed.

Lemma set_top_with_frame f frame vm :
  set_top_frame f (with_frame frame vm) = with_frame f vm.
Proof.
  unfold set_top_frame, with_frame. simpl. f_equal.
  rewrite length_app. simpl.
  replace (pred (length (frames vm) + 1)) with (length (frames vm) + 0)%nat by lia.
  by rewrite insert_app_r.
Qed.

Lemma pop_frame_with_frame f vm : pop_frame (with_frame f vm) = (Ok tt, vm).
Proof.
  unfold pop_frame, with_frame. simpl.
  destruct (frames vm ++ [f]) eqn:E; [by destruct (frames vm)|].
  rewrite <- E, removelast_last. by destruct vm.
Qed.

Lemma set_last_instruction_id f : set_last_instruction (last_instruction f) f = f.
Proof. by destruct f. Qed.

Lemma parse_decode_None dis vm f :
  vm_frame vm = Some f ->
  decode dis (code_obj f) (last_instruction f) = None ->
  exists msg pc,
    parse_inst_and_args dis vm
    = (Raise (NewExc IndexError msg), set_top_frame (set_last_instruction pc f) vm).
Proof.
  intros Hf Hd. unfold parse_inst_and_args, decode in *.
  rewrite (bind_Ok _ _ _ _ _ (get_frame_Some _ _ _ Hf)).
  destruct (py_index (co_code (code_obj f)) (last_instruction f)) as [bc|].
  2:{ eexists _, (last_instruction f).
      rewrite set_last_instruction_id, (set_top_frame_id _ _ Hf). reflexivity. }
  msimpl.
  rewrite (bind_Ok _ _ _ _ _ (set_pc_spec _ _ _ Hf)).
  destruct (bool_decide (HAVE_ARGUMENT dis <= bc)); [|done].
  destruct (py_index (co_code (code_obj f)) (last_instruction f + 1)) as [av|].
  2:{ eexists _, _. reflexivity. }
  msimpl.
  repeat match goal with
  | |- context [bool_decide ?P] => destruct (bool_decide P)
  end;
  repeat match type of Hd with
  | context [py_index ?l ?i] => destruct (py_index l i); [done|]
  end; try done; eexists _, _; reflexivity.
Qed.

(** X2.  A fault of the decoder is not caught: when the instruction at
    the frame's program counter cannot be decoded (the counter is past
    the end of the code, the operand byte is missing, or the operand
    indexes no constant or name), [run_frame] raises IndexError and the
    frame it pushed is still on the call stack, [pop_frame] having been
    skipped. *)
Theorem decode_fault_escapes_run_frame (dis : DisModule) (k : nat)
    (frame : Frame) (vm : VirtualMachine) :
  decode dis (code_obj frame) (last_instruction frame) = None ->
  exists msg pc,
    run_frame dis (S (S k)) frame vm
    = (Raise (NewExc IndexError msg),
       with_frame (set_last_instruction pc frame) vm).
Proof.
  intros Hd.
  destruct (parse_decode_None dis (with_frame frame vm) frame
              (vm_frame_with_frame _ _) Hd) as (msg & pc & Hp).
  exists msg, pc. rewrite run_frame_S.
  rewrite (bind_Ok _ _ _ _ _ (push_frame_spec _ _)). cbv beta.
  rewrite set_top_with_frame in Hp.
  apply bind_Raise. rewrite run_loop_S. apply bind_Raise. unfold cycle.
  apply bind_Raise. exact Hp.
Qed.

Lemma decode_fault_escapes_run_frame_witness :
  decode dis38 (code_obj (root_frame sample_code))
         (last_instruction (root_frame sample_code)) = None
  /\ exists msg pc,
       run_frame dis38 2 (root_frame sample_code) idle_vm
       = (Raise (NewExc IndexError msg),
          with_frame (set_last_instruction pc (root_frame sample_code)) idle_vm).
Proof.
  split; [reflexivity|].
  apply (decode_fault_escapes_run_frame dis38 0 (root_frame sample_code) idle_vm).
  reflexivity.
Defined.

Lemma bind_Raise_inv {A B} (m : M A) (k : A -> M B) vm e vm' :
  bind m k vm = (Raise e, vm') ->
  m vm = (Raise e, vm')
  \/ exists a vm1, m vm = (Ok a, vm1) /\ k a vm1 = (Raise e, vm').
Proof.
  unfold bind. destruct (m vm) as [[a| | |] vm1]; try discriminate.
  - intros H. right. exists a, vm1. split; [reflexivity | exact H].
  - intros [= <- <-]. by left.
Qed.

Lemma raises_only_bind {A B} P (m : M A) (k : A -> M B) :
  raises_only P m -> (forall a, raises_only P (k a)) -> raises_only P (bind m k).
Proof.
  intros Hm Hk vm e vm' H.
  apply bind_Raise_inv in H as [H | (a & vm1 & _ & H)]; [by eapply Hm | by eapply Hk].
Qed.

Lemma raises_only_ret {A} P (a : A) : raises_only P (ret a).
Proof. intros vm e vm' H. discriminate. Qed.

Lemma raises_only_get_frame attr : raises_only decode_fault (get_frame attr).
Proof.
  intros vm e vm' H. unfold get_frame in H.
  destruct (vm_frame vm); [discriminate|]. injection H as <- <-.
  eexists. by right.
Qed.

Lemma raises_only_index {A} (o : option A) msg :
  raises_only decode_fault (of_option o IndexError msg).
Proof.
  intros vm e vm' H. destruct o; [discriminate|]. injection H as <- <-.
  eexists. by left.
Qed.

Lemma raises_only_set_pc pc : raises_only decode_fault (set_pc pc).
Proof.
  unfold set_pc. apply raises_only_bind; [apply raises_only_get_frame|].
  intros f vm e vm' H. discriminate.
Qed.

Lemma parse_raises dis : raises_only decode_fault (parse_inst_and_args dis).
Proof.
  unfold parse_inst_and_args. cbv zeta.
  repeat first
    [ apply raises_only_ret | apply raises_only_get_frame
    | apply raises_only_index | apply raises_only_set_pc
    | apply raises_only_bind; [|intros ?]
    | match goal with
      | |- raises_only _ (if ?b then _ else _) => destruct b
      end ].
Qed.

Lemma dispatch_never_raises inv name args vm e vm' :
  dispatch inv name args vm <> (Raise e, vm').
Proof.
  unfold dispatch. by destruct (dispatch_body inv name args vm) as [[] ?].
Qed.

Lemma run_loop_raises dis inv fuel : raises_only decode_fault (run_loop dis inv fuel).
Proof.
  induction fuel as [|k IH]; [intros vm e vm' H; discriminate|].
  intros vm e vm' H. rewrite run_loop_S in H.
  apply bind_Raise_inv in H as [H | (r & vm1 & _ & H)].
  - unfold cycle in H.
    apply bind_Raise_inv in H as [H | (ia & vm1 & _ & H)].
    + by eapply parse_raises.
    + by apply dispatch_never_raises in H.
  - destruct r; [discriminate | by eapply IH].
Qed.

(** When the loop of [run_frame] ends with ["exception"], an exception
    has been recorded. *)
Lemma dispatch_exception_recorded inv name args vm vm' :
  (forall func a k, keeps_stack (inv func a k)) ->
  dispatch inv name args vm = (Ok (Some "exception"), vm') ->
  last_exception vm' <> None.
Proof.
  intros Hinv H. unfold dispatch in H.
  destruct (dispatch_body inv name args vm) as [[r|e|w|] vm0] eqn:E;
    try discriminate.
  - injection H as -> <-. by destruct (dispatch_body_ok inv Hinv _ _ _ _ _ E).
  - injection H as <-. done.
Qed.

Lemma run_loop_exception_recorded dis inv fuel :
  (forall func a k, keeps_stack (inv func a k)) ->
  forall vm vm',
    run_loop dis inv fuel vm = (Ok "exception", vm') ->
    last_exception vm' <> None.
Proof.
  intros Hinv. induction fuel as [|k IH]; intros vm vm' H; [discriminate|].
  rewrite run_loop_S in H.
  apply bind_Ok_inv in H as (r & vm1 & Hc & H).
  destruct r as [r|]; [|by eapply IH].
  injection H as -> <-. unfold cycle in Hc.
  apply bind_Ok_inv in Hc as (ia & vm0 & _ & Hd).
  by eapply dispatch_exception_recorded.
Qed.

(** A loop that raises has reached, cycle after cycle, a machine at which
    the decoder raised: [dispatch] raises nothing. *)
Lemma run_loop_raise_origin dis inv (fuel : nat) :
  forall vm e vm',
    run_loop dis inv fuel vm = (Raise e, vm') ->
    exists n m,
      after_cycles dis inv n vm = Some m
      /\ parse_inst_and_args dis m = (Raise e, vm').
Proof.
  induction fuel as [|k IH]; intros vm e vm' H; [discriminate|].
  rewrite run_loop_S in H.
  apply bind_Raise_inv in H as [H | (r & vm1 & Hc & H)].
  - exists 0%nat, vm. split; [done|]. unfold cycle in H.
    apply bind_Raise_inv in H as [H | (ia & vm1 & _ & H)]; [done|].
    by apply dispatch_never_raises in H.
  - destruct r as [r|]; [discriminate|].
    destruct (IH _ _ _ H) as (n & m & Ha & Hp).
    exists (S n), m. split; [|done]. simpl. by rewrite Hc.
Qed.

(** X3.  What [run_frame] raises is either what the decoder raised, or
    the exception recorded by [dispatch].  In the first case the frame's
    own loop has reached, through cycles that each let it go on, a
    machine at which [parse_inst_and_args] raised that exception (an
    IndexError, or the AttributeError of a machine without frame): it
    leaves [run_frame] as it is, from the machine the decoder left, and
    the frame that [run_frame] pushed has not been popped.  In the second
    case the exception is rebuilt from the machine's [last_exception].
    No exception raised by an instruction handler, or by a function it
    called, leaves [run_frame] without having been recorded first, and
    [pop_frame] never fails in [run_frame]. *)
Theorem run_frame_raises_recorded_or_decode_fault (dis : DisModule) (fuel : nat)
    (frame : Frame) (vm vm' : VirtualMachine) (e : PyExc) :
  run_frame dis fuel frame vm = (Raise e, vm') ->
  (exists n m,
      after_cycles dis (invoke dis (pred fuel)) n (with_frame frame vm) = Some m
      /\ parse_inst_and_args dis m = (Raise e, vm')
      /\ decode_fault e
      /\ (length (frames vm) < length (frames vm'))%nat)
  \/ exists exc val tb,
       e = ReExc exc val /\ last_exception vm' = Some (exc, val, tb).
Proof.
  destruct fuel as [|k]; [discriminate|]. intros H. rewrite run_frame_S in H.
  cbn [pred]. unfold invoke.
  apply bind_Raise_inv in H as [H | ([] & vm1 & Hpush & H)]; [discriminate|].
  injection Hpush as <-.
  apply bind_Raise_inv in H as [H | (res & vm2 & Hloop & H)].
  { left. destruct (run_loop_raise_origin _ _ _ _ _ _ H) as (n & m & Ha & Hp).
    exists n, m. split; [exact Ha|]. split; [exact Hp|].
    split; [by eapply run_loop_raises|].
    pose proof (after_cycles_ns _ (invoke_never_shrinks dis k) dis n _ _ Ha) as H1.
    pose proof (ns_parse dis _ _ _ Hp) as H2.
    simpl in H1. rewrite length_app in H1. simpl in H1. lia. }
  pose proof (run_loop_ns _ (invoke_never_shrinks dis k) dis k _ _ _ Hloop) as Hlen.
  simpl in Hlen. rewrite length_app in Hlen. simpl in Hlen.
  apply bind_Raise_inv in H as [H | ([] & vm3 & Hpop & H)].
  { unfold pop_frame in H. destruct (frames vm2); [simpl in Hlen; lia | discriminate]. }
  destruct (String.eqb res "exception") eqn:Eres.
  - apply String.eqb_eq in Eres as ->.
    assert (Hrec : last_exception vm3 <> None).
    { unfold pop_frame in Hpop. destruct (frames vm2); [discriminate|].
      injection Hpop as <-. simpl.
      eapply run_loop_exception_recorded; [|exact Hloop].
      intros func a kw. apply invoke_keeps_stack. }
    apply bind_Raise_inv in H as [H | (vm4 & vm5 & Hget & H)]; [discriminate|].
    injection Hget as <- <-.
    destruct (last_exception vm3) as [[[exc val] tb]|] eqn:El; [|done].
    injection H as <- <-. right. by exists exc, val, tb.
  - apply bind_Raise_inv in H as [H | (vm4 & vm5 & _ & H)]; discriminate.
Qed.

Lemma run_frame_raises_recorded_or_decode_fault_witness :
  let r := run_frame dis38 50 (root_frame code_A) idle_vm in
  let fault := NewExc NameError "global name 'undefined_name' is not defined" in
  let e := ReExc NameError (ReExc NameError (ReExc NameError fault)) in
  r = (Raise e, snd r)
  /\ ((exists n m,
          after_cycles dis38 (invoke dis38 49) n
            (with_frame (root_frame code_A) idle_vm) = Some m
          /\ parse_inst_and_args dis38 m = (Raise e, snd r)
          /\ decode_fault e
          /\ (length (frames idle_vm) < length (frames (snd r)))%nat)
      \/ exists exc val tb,
           e = ReExc exc val /\ last_exception (snd r) = Some (exc, val, tb)).
Proof.
  intros r fault e.
  assert (H : r = (Raise e, snd r)) by (vm_compute; reflexivity).
  split; [exact H|].
  exact (run_frame_raises_recorded_or_decode_fault dis38 50 (root_frame code_A)
           idle_vm (snd r) _ H).
Defined.

(** ** How a frame ends *)

Lemma dispatch_end_of_file inv args vm :
  dispatch inv "<0>" args vm = (Ok (Some "end_of_file"), vm).
Proof. reflexivity. Qed.

Lemma dispatch_RETURN_VALUE inv vm f s v :
  vm_frame vm = Some f -> stack f = s ++ [v] ->
  dispatch inv "RETURN_VALUE" [] vm
  = (Ok (Some "return"), returned v (set_top_frame (set_stack s f) vm)).
Proof.
  intros Hf Hs. unfold dispatch, dispatch_body.
  change (bytecode_fn inv "RETURN_VALUE") with (Some (Nullary inst_RETURN_VALUE)).
  cbn [apply_handler]. unfold inst_RETURN_VALUE.
  by rewrite (bind_Ok _ _ _ _ _ (pop_snoc _ _ _ _ Hf Hs)).
Qed.

(** X4.  [RETURN_VALUE] ends the frame with the top of its operand
    stack: a frame whose next instruction is RETURN_VALUE and whose stack
    ends with [v] makes [run_frame] return [v]; what remains of the
    operand stack is dropped with the frame, and the machine is the one
    [run_frame] started from, with [return_value] set to [v]. *)
Theorem RETURN_VALUE_returns_top (k : nat) (frame : Frame) (vm : VirtualMachine)
    (s : list Value) (v : Value) :
  py_index (co_code (code_obj frame)) (last_instruction frame) = Some 83 ->
  stack frame = s ++ [v] ->
  run_frame dis38 (S (S k)) frame vm = (Ok v, returned v vm).
Proof.
  intros Hop Hs. rewrite run_frame_S.
  rewrite (bind_Ok _ _ _ _ _ (push_frame_spec _ _)). cbv beta.
  assert (Hd : decode dis38 (code_obj frame) (last_instruction frame)
               = Some ("RETURN_VALUE", [])).
  { unfold decode. by rewrite Hop. }
  set (f2 := set_last_instruction (last_instruction frame + 2) frame).
  assert (Hc : cycle dis38 (invoke_with (run_frame dis38 (S k))) (with_frame frame vm)
               = (Ok (Some "return"), returned v (with_frame (set_stack s f2) vm))).
  { rewrite (cycle_spec dis38 _ _ frame "RETURN_VALUE" [] (vm_frame_with_frame _ _) Hd).
    rewrite set_top_with_frame. fold f2.
    rewrite (dispatch_RETURN_VALUE _ _ f2 s v (vm_frame_with_frame _ _) Hs).
    by rewrite set_top_with_frame. }
  cbn [run_loop]. rewrite bind_assoc, (bind_Ok _ _ _ _ _ Hc). cbv beta. msimpl.
  change (returned v (with_frame (set_stack s f2) vm))
    with (with_frame (set_stack s f2) (returned v vm)).
  by rewrite (bind_Ok _ _ _ _ _ (pop_frame_with_frame _ _)).
Qed.

Lemma RETURN_VALUE_returns_top_witness :
  py_index (co_code (code_obj seven_frame)) (last_instruction seven_frame) = Some 83
  /\ stack seven_frame = [] ++ [VInt 7]
  /\ run_frame dis38 2 seven_frame idle_vm = (Ok (VInt 7), returned (VInt 7) idle_vm).
Proof.
  do 2 (split; [reflexivity|]).
  exact (RETURN_VALUE_returns_top 0 seven_frame idle_vm [] (VInt 7) eq_refl eq_refl).
Defined.

(** X5.  A zero byte ends the frame without a return: a frame whose next
    instruction byte is 0 (decoded as the name ["<0>"]) makes [run_frame]
    return the machine's current [return_value], the value returned by the
    frame that finished before or None, and leave the machine as it
    was. *)
Theorem zero_opcode_returns_stale_value (k : nat) (frame : Frame)
    (vm : VirtualMachine) :
  py_index (co_code (code_obj frame)) (last_instruction frame) = Some 0 ->
  run_frame dis38 (S (S k)) frame vm = (Ok (return_value vm), vm).
Proof.
  intros Hop. rewrite run_frame_S.
  rewrite (bind_Ok _ _ _ _ _ (push_frame_spec _ _)). cbv beta.
  assert (Hd : decode dis38 (code_obj frame) (last_instruction frame)
               = Some ("<0>", [])).
  { unfold decode. by rewrite Hop. }
  set (f2 := set_last_instruction (last_instruction frame + 2) frame).
  assert (Hc : cycle dis38 (invoke_with (run_frame dis38 (S k))) (with_frame frame vm)
               = (Ok (Some "end_of_file"), with_frame f2 vm)).
  { rewrite (cycle_spec dis38 _ _ frame "<0>" [] (vm_frame_with_frame _ _) Hd).
    by rewrite set_top_with_frame, dispatch_end_of_file. }
  cbn [run_loop]. rewrite bind_assoc, (bind_Ok _ _ _ _ _ Hc). cbv beta. msimpl.
  by rewrite (bind_Ok _ _ _ _ _ (pop_frame_with_frame _ _)).
Qed.

Lemma zero_opcode_returns_stale_value_witness :
  py_index (co_code (code_obj zero_frame)) (last_instruction zero_frame) = Some 0
  /\ run_frame dis38 2 zero_frame (returned (VInt 7) idle_vm)
     = (Ok (VInt 7), returned (VInt 7) idle_vm).
Proof.
  split; [reflexivity|].
  exact (zero_opcode_returns_stale_value 0 zero_frame (returned (VInt 7) idle_vm)
           eq_refl).
Defined.

(** ** The operand stack on underflow *)

(** X6.  [popn] never faults on a short stack.  For [n > 0] it returns
    the topmost [n] values in stack order, or the whole stack when it
    holds fewer, and removes what it returned; for a negative [n] (as
    [inst_CALL_FUNCTION_KW] computes when given more keyword names than
    arguments) it keeps the bottom [-n] values and returns all the
    others. *)
Theorem popn_never_underflows (vm : VirtualMachine) (f : Frame) (n : Z) :
  vm_frame vm = Some f ->
  (0 < n ->
   let k := (length (stack f) - Z.to_nat n)%nat in
   popn n vm
   = (Ok (drop k (stack f)), set_top_frame (set_stack (take k (stack f)) f) vm))
  /\ (n < 0 ->
      let k := Z.to_nat (- n) in
      popn n vm
      = (Ok (drop k (stack f)), set_top_frame (set_stack (take k (stack f)) f) vm)).
Proof.
  intros Hf. split; intros Hn k; unfold popn;
    rewrite bool_decide_false by lia;
    rewrite (bind_Ok _ _ _ _ _ (get_frame_Some _ _ _ Hf)); cbv zeta;
    unfold bind, put_frame, ret, slice_start.
  - rewrite bool_decide_true by lia.
    replace (Z.to_nat (Z.max 0 (Z.of_nat (length (stack f)) + - n))) with k
      by (unfold k; lia).
    reflexivity.
  - rewrite bool_decide_false by lia.
    destruct (decide (k <= length (stack f))%nat) as [Hle|Hgt].
    + replace (Z.to_nat (Z.min (- n) (Z.of_nat (length (stack f))))) with k
        by (unfold k in *; lia).
      reflexivity.
    + replace (Z.to_nat (Z.min (- n) (Z.of_nat (length (stack f)))))
        with (length (stack f)) by (unfold k in *; lia).
      rewrite drop_all, firstn_all.
      rewrite (drop_ge _ k), (take_ge _ k) by lia. reflexivity.
Qed.

Lemma popn_never_underflows_witness :
  vm_frame sample_vm = Some sample_frame
  /\ popn 3 sample_vm
     = (Ok [VInt 7], set_top_frame (set_stack [] sample_frame) sample_vm)
  /\ popn (-1) inner_vm
     = (Ok [VInt 8], set_top_frame (set_stack [VInt 7] inner_frame) inner_vm).
Proof.
  split; [reflexivity|]. split.
  - exact (proj1 (popn_never_underflows sample_vm sample_frame 3 eq_refl) eq_refl).
  - exact (proj2 (popn_never_underflows inner_vm inner_frame (-1) eq_refl) eq_refl).
Defined.

(** ** Name spaces *)

Lemma dict_store_spec vm l name v d :
  heap vm !! l = Some (HDict d) ->
  dict_store l name v vm = (Ok tt, bound l name v d vm).
Proof.
  intros H. unfold dict_store. by rewrite (bind_Ok _ _ _ _ _ (dict_at_spec _ _ _ H)).
Qed.

Lemma heap_bound_same vm l name v d :
  heap vm !! l = Some (HDict d) ->
  heap (bound l name v d vm) !! l = Some (HDict (<[name := v]> d)).
Proof.
  intros H. unfold bound. simpl. apply list_lookup_insert_eq.
  by eapply lookup_lt_Some.
Qed.

Lemma heap_bound_other vm l l' name v d :
  l' <> l -> heap (bound l name v d vm) !! l' = heap vm !! l'.
Proof. intros H. unfold bound. simpl. by apply list_lookup_insert_ne. Qed.

(** [STORE_NAME] and [STORE_FAST] have the same body. *)
Lemma inst_store_spec vm f s v name locals :
  vm_frame vm = Some f -> stack f = s ++ [v] ->
  heap vm !! f_locals f = Some (HDict locals) ->
  inst_STORE_NAME (VStr name) vm
  = (Ok None, bound (f_locals f) name v locals (set_top_frame (set_stack s f) vm)).
Proof.
  intros Hf Hs Hl. unfold inst_STORE_NAME. cbn [as_name]. msimpl.
  rewrite (bind_Ok _ _ _ _ _ (pop_snoc _ _ _ _ Hf Hs)).
  rewrite (bind_Ok _ _ _ _ _ (get_frame_Some _ _ _ (vm_frame_set_top _ _ _ Hf))).
  cbv beta. change (f_locals (set_stack s f)) with (f_locals f).
  by rewrite (bind_Ok _ _ _ _ _
                (dict_store_spec (set_top_frame (set_stack s f) vm) _ name v locals Hl)).
Qed.

Lemma dispatch_LOAD_FAST_spec inv vm f name locals :
  vm_frame vm = Some f ->
  heap vm !! f_locals f = Some (HDict locals) ->
  dispatch inv "LOAD_FAST" [VStr name] vm
  = match locals !! fast_name name with
    | Some v => (Ok None, set_top_frame (set_stack (stack f ++ [v]) f) vm)
    | None =>
        (Ok (Some "exception"),
         record_exception
           (NewExc UnboundLocalError
              ("local variable '" +:+ fast_name name
               +:+ "' referenced before assignment")) vm)
    end.
Proof.
  intros Hf Hl. unfold dispatch, dispatch_body.
  rewrite bytecode_fn_LOAD_FAST. cbn [apply_handler].
  unfold inst_LOAD_FAST. cbn [as_name]. msimpl. fold (fast_name name).
  rewrite (bind_Ok _ _ _ _ _ (get_frame_Some _ _ _ Hf)).
  rewrite (bind_Ok _ _ _ _ _ (dict_at_spec _ _ _ Hl)).
  destruct (locals !! fast_name name) as [v|]; msimpl.
  - by rewrite (bind_Ok _ _ _ _ _ (push_spec _ _ _ Hf)).
  - reflexivity.
Qed.

Lemma vm_frame_bound vm l name v d : vm_frame (bound l name v d vm) = vm_frame vm.
Proof. reflexivity. Qed.

Lemma set_top_frame_bound f vm l name v d :
  set_top_frame f (bound l name v d vm) = bound l name v d (set_top_frame f vm).
Proof. reflexivity. Qed.

(** X7.  [STORE_FAST] then [LOAD_FAST] of the same variable.  The store
    pops the value and binds the name, as given, in the frame's locals.
    The load reads the locals only, under the name with a leading ["."]
    replaced by ["implicit"]: for an ordinary name it pushes the value
    back, restoring the operand stack; for a name that starts with a dot
    (the hidden argument [.0] of a comprehension) it does not find what
    was just stored and faults with UnboundLocalError. *)
Theorem STORE_FAST_then_LOAD_FAST inv (vm : VirtualMachine) (f : Frame)
    (s : list Value) (v : Value) (name : string) (locals : gmap string Value) :
  vm_frame vm = Some f -> stack f = s ++ [v] ->
  heap vm !! f_locals f = Some (HDict locals) ->
  let stored := bound (f_locals f) name v locals
                      (set_top_frame (set_stack s f) vm) in
  dispatch inv "STORE_FAST" [VStr name] vm = (Ok None, stored)
  /\ (fast_name name = name ->
      dispatch inv "LOAD_FAST" [VStr name] stored
      = (Ok None, bound (f_locals f) name v locals vm))
  /\ (forall rest,
        name = String "."%char rest -> locals !! ("implicit" +:+ rest) = None ->
        dispatch inv "LOAD_FAST" [VStr name] stored
        = (Ok (Some "exception"),
           record_exception
             (NewExc UnboundLocalError
                ("local variable 'implicit" +:+ rest
                 +:+ "' referenced before assignment")) stored)).
Proof.
  intros Hf Hs Hl stored.
  assert (Hf' : vm_frame stored = Some (set_stack s f)).
  { unfold stored. rewrite vm_frame_bound. by eapply vm_frame_set_top. }
  assert (Hl' : heap stored !! f_locals (set_stack s f)
                = Some (HDict (<[name := v]> locals))).
  { unfold stored. by apply heap_bound_same. }
  split; [|split].
  - unfold dispatch, dispatch_body.
    change (bytecode_fn inv "STORE_FAST") with (Some (Unary inst_STORE_FAST)).
    cbn [apply_handler]. change inst_STORE_FAST with inst_STORE_NAME.
    by rewrite (inst_store_spec _ _ _ _ name _ Hf Hs Hl).
  - intros Hn. rewrite (dispatch_LOAD_FAST_spec inv _ _ name _ Hf' Hl').
    rewrite Hn, lookup_insert_eq. unfold stored.
    rewrite set_top_frame_bound, set_top_frame_twice.
    cbn [stack set_stack]. rewrite set_stack_twice, <- Hs, set_stack_id.
    by rewrite (set_top_frame_id _ _ Hf).
  - intros rest -> Hnone.
    rewrite (dispatch_LOAD_FAST_spec inv _ _ _ _ Hf' Hl').
    cbn [fast_name]. rewrite lookup_insert_ne by done. by rewrite Hnone.
Qed.

Lemma STORE_FAST_then_LOAD_FAST_witness :
  let locals := inner_locals in
  let stored name := bound 2 name (VInt 8) locals
                       (set_top_frame (set_stack [VInt 7] inner_frame) inner_vm) in
  vm_frame inner_vm = Some inner_frame
  /\ stack inner_frame = [VInt 7] ++ [VInt 8]
  /\ heap inner_vm !! f_locals inner_frame = Some (HDict locals)
  /\ dispatch (invoke dis38 0) "LOAD_FAST" [VStr "y"] (stored "y")
     = (Ok None, bound 2 "y" (VInt 8) locals inner_vm)
  /\ dispatch (invoke dis38 0) "LOAD_FAST" [VStr ".0"] (stored ".0")
     = (Ok (Some "exception"),
        record_exception
          (NewExc UnboundLocalError
             "local variable 'implicit0' referenced before assignment")
          (stored ".0")).
Proof.
  intros locals stored.
  do 3 (split; [reflexivity|]). split.
  - exact (proj1 (proj2 (STORE_FAST_then_LOAD_FAST (invoke dis38 0) inner_vm
                           inner_frame [VInt 7] (VInt 8) "y" locals
                           eq_refl eq_refl eq_refl)) eq_refl).
  - exact (proj2 (proj2 (STORE_FAST_then_LOAD_FAST (invoke dis38 0) inner_vm
                           inner_frame [VInt 7] (VInt 8) ".0" locals
                           eq_refl eq_refl eq_refl)) "0" eq_refl eq_refl).
Defined.

Lemma dispatch_LOAD_NAME_local inv vm f name locals v :
  vm_frame vm = Some f ->
  heap vm !! f_locals f = Some (HDict locals) ->
  locals !! name = Some v ->
  dispatch inv "LOAD_NAME" [VStr name] vm
  = (Ok None, set_top_frame (set_stack (stack f ++ [v]) f) vm).
Proof.
  intros Hf Hl Hv. unfold dispatch, dispatch_body.
  rewrite bytecode_fn_LOAD_NAME. cbn [apply_handler].
  unfold inst_LOAD_NAME. cbn [as_name]. msimpl.
  rewrite (bind_Ok _ _ _ _ _ (get_frame_Some _ _ _ Hf)).
  rewrite (bind_Ok _ _ _ _ _ (dict_at_spec _ _ _ Hl)).
  rewrite Hv. msimpl.
  by rewrite (bind_Ok _ _ _ _ _ (push_spec _ _ _ Hf)).
Qed.

Lemma dispatch_LOAD_NAME_global inv vm f name locals globals g :
  vm_frame vm = Some f ->
  heap vm !! f_locals f = Some (HDict locals) ->
  heap vm !! f_globals f = Some (HDict globals) ->
  locals !! name = None -> globals !! name = Some g ->
  dispatch inv "LOAD_NAME" [VStr name] vm
  = (Ok None, set_top_frame (set_stack (stack f ++ [g]) f) vm).
Proof.
  intros Hf Hl Hg Hn Hv. unfold dispatch, dispatch_body.
  rewrite bytecode_fn_LOAD_NAME. cbn [apply_handler].
  unfold inst_LOAD_NAME. cbn [as_name]. msimpl.
  rewrite (bind_Ok _ _ _ _ _ (get_frame_Some _ _ _ Hf)).
  rewrite (bind_Ok _ _ _ _ _ (dict_at_spec _ _ _ Hl)).
  rewrite Hn. msimpl.
  rewrite (bind_Ok _ _ _ _ _ (dict_at_spec _ _ _ Hg)).
  rewrite Hv. msimpl.
  by rewrite (bind_Ok _ _ _ _ _ (push_spec _ _ _ Hf)).
Qed.

(** X8.  Where a name stored by [STORE_NAME] is visible.  The store pops
    the value and binds the name in the frame's locals; [LOAD_NAME] then
    pushes it back.  [LOAD_GLOBAL] sees it exactly when the frame's
    locals are its globals (a module frame): in a frame with locals of
    its own, [LOAD_GLOBAL] still pushes the binding of the globals. *)
Theorem STORE_NAME_visibility inv (vm : VirtualMachine) (f : Frame)
    (s : list Value) (v : Value) (name : string) (locals : gmap string Value) :
  vm_frame vm = Some f -> stack f = s ++ [v] ->
  heap vm !! f_locals f = Some (HDict locals) ->
  let stored := bound (f_locals f) name v locals
                      (set_top_frame (set_stack s f) vm) in
  dispatch inv "STORE_NAME" [VStr name] vm = (Ok None, stored)
  /\ dispatch inv "LOAD_NAME" [VStr name] stored
     = (Ok None, bound (f_locals f) name v locals vm)
  /\ (f_globals f = f_locals f ->
      dispatch inv "LOAD_GLOBAL" [VStr name] stored
      = (Ok None, bound (f_locals f) name v locals vm))
  /\ (forall globals g,
        f_globals f <> f_locals f ->
        heap vm !! f_globals f = Some (HDict globals) ->
        globals !! name = Some g ->
        dispatch inv "LOAD_GLOBAL" [VStr name] stored
        = (Ok None, set_top_frame (set_stack (s ++ [g]) f) stored)).
Proof.
  intros Hf Hs Hl stored.
  assert (Hf' : vm_frame stored = Some (set_stack s f)).
  { unfold stored. rewrite vm_frame_bound. by eapply vm_frame_set_top. }
  assert (Hl' : heap stored !! f_locals (set_stack s f)
                = Some (HDict (<[name := v]> locals))).
  { unfold stored. by apply heap_bound_same. }
  assert (Hback : set_top_frame (set_stack (stack (set_stack s f) ++ [v]) (set_stack s f))
                    stored = bound (f_locals f) name v locals vm).
  { unfold stored. rewrite set_top_frame_bound, set_top_frame_twice.
    cbn [stack set_stack]. rewrite set_stack_twice, <- Hs, set_stack_id.
    by rewrite (set_top_frame_id _ _ Hf). }
  split; [|split; [|split]].
  - unfold dispatch, dispatch_body.
    change (bytecode_fn inv "STORE_NAME") with (Some (Unary inst_STORE_NAME)).
    cbn [apply_handler].
    by rewrite (inst_store_spec _ _ _ _ name _ Hf Hs Hl).
  - rewrite (dispatch_LOAD_NAME_local inv _ _ name _ v Hf' Hl');
      [by rewrite Hback | apply lookup_insert_eq].
  - intros Hgl.
    rewrite (dispatch_LOAD_GLOBAL_found inv _ _ name (<[name := v]> locals) v Hf');
      [by rewrite Hback | | apply lookup_insert_eq].
    change (f_globals (set_stack s f)) with (f_globals f). rewrite Hgl. exact Hl'.
  - intros globals g Hne Hg Hv.
    rewrite (dispatch_LOAD_GLOBAL_found inv _ _ name globals g Hf');
      [by rewrite set_stack_twice | | exact Hv].
    change (f_globals (set_stack s f)) with (f_globals f).
    unfold stored. by rewrite heap_bound_other.
Qed.

Lemma STORE_NAME_visibility_witness :
  let stored := bound 2 "x" (VInt 8) inner_locals
                  (set_top_frame (set_stack [VInt 7] inner_frame) inner_vm) in
  let at_module := bound 1 "z" (VInt 7) (<["x" := VInt 1]> seed_names)
                     (set_top_frame (set_stack [] sample_frame) sample_vm) in
  vm_frame inner_vm = Some inner_frame
  /\ stack inner_frame = [VInt 7] ++ [VInt 8]
  /\ heap inner_vm !! f_locals inner_frame = Some (HDict inner_locals)
  /\ dispatch (invoke dis38 0) "LOAD_NAME" [VStr "x"] stored
     = (Ok None, bound 2 "x" (VInt 8) inner_locals inner_vm)
  /\ dispatch (invoke dis38 0) "LOAD_GLOBAL" [VStr "x"] stored
     = (Ok None, set_top_frame (set_stack ([VInt 7] ++ [VInt 1]) inner_frame) stored)
  /\ dispatch (invoke dis38 0) "LOAD_GLOBAL" [VStr "z"] at_module
     = (Ok None, bound 1 "z" (VInt 7) (<["x" := VInt 1]> seed_names) sample_vm).
Proof.
  intros stored at_module.
  do 3 (split; [reflexivity|]).
  destruct (STORE_NAME_visibility (invoke dis38 0) inner_vm inner_frame [VInt 7]
              (VInt 8) "x" inner_locals eq_refl eq_refl eq_refl)
    as (_ & H1 & _ & H2).
  destruct (STORE_NAME_visibility (invoke dis38 0) sample_vm sample_frame []
              (VInt 7) "z" (<["x" := VInt 1]> seed_names) eq_refl eq_refl eq_refl)
    as (_ & _ & H3 & _).
  split; [exact H1|]. split.
  - exact (H2 (<["x" := VInt 1]> seed_names) (VInt 1) ltac:(discriminate)
              eq_refl eq_refl).
  - exact (H3 eq_refl).
Defined.

Lemma dispatch_DELETE_NAME_spec inv vm f name locals :
  vm_frame vm = Some f ->
  heap vm !! f_locals f = Some (HDict locals) ->
  dispatch inv "DELETE_NAME" [VStr name] vm
  = match locals !! name with
    | Some _ => (Ok None, unbound (f_locals f) name locals vm)
    | None =>
        (Ok (Some "exception"),
         record_exception (NewExc KeyError ("'" +:+ name +:+ "'")) vm)
    end.
Proof.
  intros Hf Hl. unfold dispatch, dispatch_body.
  change (bytecode_fn inv "DELETE_NAME") with (Some (Unary inst_DELETE_NAME)).
  cbn [apply_handler]. unfold inst_DELETE_NAME. cbn [as_name]. msimpl.
  rewrite (bind_Ok _ _ _ _ _ (get_frame_Some _ _ _ Hf)).
  unfold dict_pop. msimpl.
  rewrite (bind_Ok _ _ _ _ _ (dict_at_spec _ _ _ Hl)).
  by destruct (locals !! name).
Qed.

(** X9.  [DELETE_NAME] works on the frame's locals only.  In a frame
    with locals of its own and a name bound in the globals: when the
    locals do not bind the name, the instruction faults with KeyError,
    though [LOAD_NAME] resolves the name; when they do, the local binding
    is removed and [LOAD_NAME] then pushes the global one. *)
Theorem DELETE_NAME_targets_locals_only inv (vm : VirtualMachine) (f : Frame)
    (name : string) (locals globals : gmap string Value) (g : Value) :
  vm_frame vm = Some f -> f_globals f <> f_locals f ->
  heap vm !! f_locals f = Some (HDict locals) ->
  heap vm !! f_globals f = Some (HDict globals) ->
  globals !! name = Some g ->
  (locals !! name = None ->
   dispatch inv "DELETE_NAME" [VStr name] vm
   = (Ok (Some "exception"),
      record_exception (NewExc KeyError ("'" +:+ name +:+ "'")) vm)
   /\ dispatch inv "LOAD_NAME" [VStr name] vm
      = (Ok None, set_top_frame (set_stack (stack f ++ [g]) f) vm))
  /\ (forall v,
        locals !! name = Some v ->
        let deleted := unbound (f_locals f) name locals vm in
        dispatch inv "DELETE_NAME" [VStr name] vm = (Ok None, deleted)
        /\ dispatch inv "LOAD_NAME" [VStr name] deleted
           = (Ok None, set_top_frame (set_stack (stack f ++ [g]) f) deleted)).
Proof.
  intros Hf Hne Hl Hg Hv. split.
  - intros Hn. split.
    + by rewrite (dispatch_DELETE_NAME_spec inv _ _ name _ Hf Hl), Hn.
    + by apply (dispatch_LOAD_NAME_global inv vm f name locals globals g).
  - intros v Hn deleted. split.
    + by rewrite (dispatch_DELETE_NAME_spec inv _ _ name _ Hf Hl), Hn.
    + apply (dispatch_LOAD_NAME_global inv deleted f name (delete name locals)
               globals g); [exact Hf | | | apply lookup_delete_eq | exact Hv].
      * unfold deleted, unbound. simpl. apply list_lookup_insert_eq.
        by eapply lookup_lt_Some.
      * unfold deleted, unbound. simpl. by rewrite list_lookup_insert_ne.
Qed.

Lemma DELETE_NAME_targets_locals_only_witness :
  let globals : gmap string Value := <["x" := VInt 1]> seed_names in
  let deleted := unbound 2 "x" inner_locals inner_vm in
  vm_frame inner_vm = Some inner_frame
  /\ f_globals inner_frame <> f_locals inner_frame
  /\ heap inner_vm !! f_locals inner_frame = Some (HDict inner_locals)
  /\ heap inner_vm !! f_globals inner_frame = Some (HDict globals)
  /\ dispatch (invoke dis38 0) "DELETE_NAME" [VStr "__name__"] inner_vm
     = (Ok (Some "exception"),
        record_exception (NewExc KeyError "'__name__'") inner_vm)
  /\ dispatch (invoke dis38 0) "LOAD_NAME" [VStr "x"] deleted
     = (Ok None,
        set_top_frame (set_stack (stack inner_frame ++ [VInt 1]) inner_frame)
          deleted).
Proof.
  intros globals deleted.
  split; [reflexivity|]. split; [discriminate|]. do 2 (split; [reflexivity|]).
  split.
  - exact (proj1 (proj1 (DELETE_NAME_targets_locals_only (invoke dis38 0) inner_vm
                           inner_frame "__name__" inner_locals globals
                           (VStr "__main__") eq_refl ltac:(discriminate)
                           eq_refl eq_refl eq_refl) eq_refl)).
  - exact (proj2 (proj2 (DELETE_NAME_targets_locals_only (invoke dis38 0) inner_vm
                           inner_frame "x" inner_locals globals (VInt 1)
                           eq_refl ltac:(discriminate) eq_refl eq_refl eq_refl)
                    (VInt 3) eq_refl)).
Defined.

(** ** Jumps *)

Lemma set_last_instruction_twice pc1 pc2 f :
  set_last_instruction pc2 (set_last_instruction pc1 f) = set_last_instruction pc2 f.
Proof. reflexivity. Qed.

Lemma dispatch_JUMP_FORWARD inv vm f t :
  vm_frame vm = Some f ->
  dispatch inv "JUMP_FORWARD" [VInt t] vm
  = (Ok None, set_top_frame (set_last_instruction t f) vm).
Proof.
  intros Hf. unfold dispatch, dispatch_body.
  change (bytecode_fn inv "JUMP_FORWARD") with (Some (Unary inst_JUMP_FORWARD)).
  cbn [apply_handler]. unfold inst_JUMP_FORWARD, jump. msimpl.
  rewrite (bind_Ok _ _ _ _ _ (get_frame_Some _ _ _ Hf)).
  cbn [as_int]. msimpl. reflexivity.
Qed.

(** X10.  The two relative jumps of the engine disagree on their target.
    With the operand byte [d] at offset [pc + 1], [JUMP_FORWARD] at offset
    [pc] sets the program counter to [pc + 1 + d], whereas [FOR_ITER] at
    offset [pc], once its iterator is exhausted, pops the iterator and
    sets it to [pc + 2 + d], the offset [d] bytes after the next
    instruction: the forward jump lands one byte before that. *)
Theorem relative_jumps_disagree inv (vm : VirtualMachine) (f : Frame) (d : Z) :
  vm_frame vm = Some f ->
  let pc := last_instruction f in
  py_index (co_code (code_obj f)) (pc + 1) = Some d ->
  (py_index (co_code (code_obj f)) pc = Some 110 ->
   cycle dis38 inv vm
   = (Ok None, set_top_frame (set_last_instruction (pc + 1 + d) f) vm))
  /\ (forall s l items pos,
        py_index (co_code (code_obj f)) pc = Some 93 ->
        stack f = s ++ [VIter l] ->
        heap vm !! l = Some (HIter (ITuple items pos)) ->
        items !! pos = None ->
        cycle dis38 inv vm
        = (Ok None,
           set_top_frame (set_last_instruction (pc + 2 + d) (set_stack s f)) vm)).
Proof.
  intros Hf pc Hd. split.
  - intros Hop.
    assert (Hdec : decode dis38 (code_obj f) (last_instruction f)
                   = Some ("JUMP_FORWARD", [VInt (pc + 1 + d)])).
    { unfold decode. fold pc. by rewrite Hop, Hd. }
    rewrite (cycle_spec dis38 inv vm f _ _ Hf Hdec).
    rewrite (dispatch_JUMP_FORWARD inv _ _ _ (vm_frame_set_top _ _ _ Hf)).
    by rewrite set_top_frame_twice.
  - intros s l items pos Hop Hs Hl Hnone.
    assert (Hdec : decode dis38 (code_obj f) (last_instruction f)
                   = Some ("FOR_ITER", [VInt (pc + 1 + d)])).
    { unfold decode. fold pc. by rewrite Hop, Hd. }
    rewrite (cycle_spec dis38 inv vm f _ _ Hf Hdec).
    unfold dispatch, dispatch_body.
    change (bytecode_fn inv "FOR_ITER") with (Some (Unary inst_FOR_ITER)).
    cbn [apply_handler].
    rewrite (FOR_ITER_tuple _ (set_last_instruction (last_instruction f + 2) f)
               s l items pos (pc + 1 + d) (vm_frame_set_top _ _ _ Hf) Hs Hl).
    rewrite Hnone, set_top_frame_twice.
    replace (pc + 1 + d + 1) with (pc + 2 + d) by lia. reflexivity.
Qed.

Lemma relative_jumps_disagree_witness :
  vm_frame (jump_vm 0 []) = Some (jump_frame 0 [])
  /\ py_index (co_code jump_code) 1 = Some 4
  /\ cycle dis38 (invoke dis38 0) (jump_vm 0 [])
     = (Ok None, set_top_frame (set_last_instruction 5 (jump_frame 0 [])) (jump_vm 0 []))
  /\ cycle dis38 (invoke dis38 0) (jump_vm 2 [VIter 2])
     = (Ok None,
        set_top_frame (set_last_instruction 8 (set_stack [] (jump_frame 2 [VIter 2])))
          (jump_vm 2 [VIter 2])).
Proof.
  do 2 (split; [reflexivity|]). split.
  - exact (proj1 (relative_jumps_disagree (invoke dis38 0) (jump_vm 0 [])
                    (jump_frame 0 []) 4 eq_refl eq_refl) eq_refl).
  - exact (proj2 (relative_jumps_disagree (invoke dis38 0) (jump_vm 2 [VIter 2])
                    (jump_frame 2 [VIter 2]) 4 eq_refl eq_refl)
                 [] 2%nat [VInt 1] 1%nat eq_refl eq_refl eq_refl eq_refl).
Defined.

(** ** Operators *)

Lemma dispatch_UNARY inv (op : string) (args : list Value) (vm : VirtualMachine) :
  dispatch_body inv ("UNARY_" +:+ op) args vm
  = (Raise (NewExc AttributeError
              "'VirtualMachine' object has no attribute 'unaryOperator'"), vm).
Proof. reflexivity. Qed.

(** A frame whose next instruction faults in [dispatch] whatever the
    machine: [run_frame] pops the frame and raises the recorded
    exception. *)
Lemma run_frame_faulting_instruction (k : nat) (frame : Frame) (vm : VirtualMachine)
    (name : string) (args : list Value) (e : PyExc) :
  decode dis38 (code_obj frame) (last_instruction frame) = Some (name, args) ->
  (forall inv m, dispatch_body inv name args m = (Raise e, m)) ->
  run_frame dis38 (S (S k)) frame vm
  = (Raise (ReExc (exc_kind e) e), record_exception e vm).
Proof.
  intros Hd He. rewrite run_frame_S.
  rewrite (bind_Ok _ _ _ _ _ (push_frame_spec _ _)). cbv beta.
  set (f2 := set_last_instruction (last_instruction frame + 2) frame).
  assert (Hc : cycle dis38 (invoke_with (run_frame dis38 (S k))) (with_frame frame vm)
               = (Ok (Some "exception"), with_frame f2 (record_exception e vm))).
  { rewrite (cycle_spec dis38 _ _ frame name args (vm_frame_with_frame _ _) Hd).
    rewrite set_top_with_frame. unfold dispatch. by rewrite He. }
  cbn [run_loop]. rewrite bind_assoc, (bind_Ok _ _ _ _ _ Hc). cbv beta. msimpl.
  by rewrite (bind_Ok _ _ _ _ _ (pop_frame_with_frame _ _)).
Qed.

(** X11.  No unary operator can run.  A frame whose next instruction is
    UNARY_POSITIVE, UNARY_NEGATIVE, UNARY_NOT or UNARY_INVERT (opcodes 10,
    11, 12 and 15) is aborted: [dispatch] looks for the method
    [unaryOperator], which the engine does not have, and [run_frame] pops
    the frame and raises the recorded AttributeError, whatever the
    operand on the stack. *)
Theorem unary_instructions_abort_frame (k : nat) (frame : Frame)
    (vm : VirtualMachine) (bc : Z) :
  py_index (co_code (code_obj frame)) (last_instruction frame) = Some bc ->
  bc ∈ [10; 11; 12; 15] ->
  let fault := NewExc AttributeError
                 "'VirtualMachine' object has no attribute 'unaryOperator'" in
  run_frame dis38 (S (S k)) frame vm
  = (Raise (ReExc AttributeError fault), record_exception fault vm).
Proof.
  intros Hop Hbc fault.
  assert (Hd : exists op,
             decode dis38 (code_obj frame) (last_instruction frame)
             = Some ("UNARY_" +:+ op, [])).
  { unfold decode. rewrite Hop.
    repeat (apply elem_of_cons in Hbc as [-> | Hbc]; [by eexists|]).
    by apply elem_of_nil in Hbc. }
  destruct Hd as [op Hd].
  apply (run_frame_faulting_instruction k frame vm _ _ fault Hd).
  intros inv m. apply dispatch_UNARY.
Qed.

Lemma unary_instructions_abort_frame_witness :
  let frame := mkFrame (mkCode "<module>" 0 [11; 0] [] [] [] [] []) 1 1 (VDict 0)
                       [] [VInt 7] 0 in
  let fault := NewExc AttributeError
                 "'VirtualMachine' object has no attribute 'unaryOperator'" in
  py_index (co_code (code_obj frame)) (last_instruction frame) = Some 11
  /\ run_frame dis38 2 frame idle_vm
     = (Raise (ReExc AttributeError fault), record_exception fault idle_vm).
Proof.
  intros frame fault. split; [reflexivity|].
  apply (unary_instructions_abort_frame 0 frame idle_vm 11 eq_refl).
  apply (bool_decide_unpack _). vm_compute. exact I.
Defined.


Lemma dispatch_BINARY inv op vm :
  dispatch_body inv ("BINARY_" +:+ op) [] vm = (binaryOperator op ;;; none) vm.
Proof. reflexivity. Qed.






(** ** Calls *)

Lemma alist_get_set_eq k v d : alist_get k (alist_set k v d) = Some v.
Proof.
  induction d as [|[k' v'] d IH]; simpl.
  - by rewrite String.eqb_refl.
  - destruct (String.eqb k k') eqn:E; simpl; rewrite E; done.
Qed.

Lemma alist_get_set_ne k k' v d :
  k <> k' -> alist_get k (alist_set k' v d) = alist_get k d.
Proof.
  intros Hne. induction d as [|[k2 v2] d IH]; simpl.
  - by rewrite (eqb_ne _ _ Hne).
  - destruct (String.eqb k' k2) eqn:E; simpl.
    + apply String.eqb_eq in E as <-. by rewrite (eqb_ne _ _ Hne).
    + by rewrite IH.
Qed.

Lemma alist_get_set_Some p k v d :
  is_Some (alist_get p (alist_set k v d)) <-> p = k \/ is_Some (alist_get p d).
Proof.
  destruct (decide (p = k)) as [->|Hne].
  - rewrite alist_get_set_eq. split; [by left | by eexists].
  - rewrite alist_get_set_ne by done. split; [by right | by intros [|]].
Qed.

Lemma py_contains_Some k d : py_contains k d = true <-> is_Some (alist_get k d).
Proof. unfold py_contains. by rewrite bool_decide_eq_true. Qed.

Lemma py_contains_None k d : py_contains k d = false <-> alist_get k d = None.
Proof.
  unfold py_contains. rewrite bool_decide_eq_false.
  by rewrite <- eq_None_not_Some.
Qed.

Lemma alist_get_zip p (args : list string) (pos : list Value) :
  is_Some (alist_get p (zip args pos)) <-> p ∈ take (length pos) args.
Proof.
  revert pos. induction args as [|a args IH]; intros [|v pos]; simpl;
    try (split; [by intros [? ?] | by intros ?%elem_of_nil]).
  rewrite elem_of_cons, <- IH.
  destruct (String.eqb p a) eqn:E.
  - apply String.eqb_eq in E as ->. split; [by left | by eexists].
  - apply String.eqb_neq in E. split; [by right | by intros [|]].
Qed.

(** The outcome of a host computation that only reads its arguments: a
    value satisfying [P], or an exception, the machine unchanged. *)
Lemma bind_named_cases f_name args named :
  forall acc vm,
    (exists c, bind_named f_name args named acc vm = (Ok c, vm)
               /\ forall p, is_Some (alist_get p c)
                            <-> is_Some (alist_get p acc) \/ p ∈ named.*1)
    \/ (exists e, bind_named f_name args named acc vm = (Raise e, vm)).
Proof.
  induction named as [|[kw value] named IH]; intros acc vm; simpl.
  - left. exists acc. split; [done|]. intros p. rewrite elem_of_nil. tauto.
  - destruct (bool_decide (kw ∈ args)); simpl; [|right; by eexists].
    destruct (py_contains kw acc); [right; by eexists|].
    destruct (IH (alist_set kw value acc) vm) as [(c & Hc & Hp) | [e He]].
    + left. exists c. split; [done|]. intros p.
      rewrite Hp, alist_get_set_Some, elem_of_cons. tauto.
    + right. by exists e.
Qed.

Lemma bind_named_keys f_name args named :
  forall acc vm c,
    bind_named f_name args named acc vm = (Ok c, vm) ->
    forall p, p ∈ named.*1 -> p ∈ args.
Proof.
  induction named as [|[kw value] named IH]; intros acc vm c H p Hp; simpl in *.
  - by apply elem_of_nil in Hp.
  - destruct (bool_decide (kw ∈ args)) eqn:E; simpl in H; [|discriminate].
    apply bool_decide_eq_true in E.
    destruct (py_contains kw acc); [discriminate|].
    apply elem_of_cons in Hp as [-> | Hp]; [done | by eapply IH].
Qed.

Lemma missing_arguments_raises {A} f_name req acc vm :
  exists e, @missing_arguments A f_name req acc vm = (Raise e, vm).
Proof.
  unfold missing_arguments. cbv zeta.
  destruct (repr_name <$> List.filter _ req) as [|x [|y [|z names]]];
    try (by eexists).
  msimpl. destruct (reverse _) as [|y' [|x' rest]]; by eexists.
Qed.

Lemma check_required_in_cases f_name req rest acc vm :
  (check_required_in f_name req rest acc vm = (Ok tt, vm)
   /\ forall p, p ∈ rest -> is_Some (alist_get p acc))
  \/ (exists e, check_required_in f_name req rest acc vm = (Raise e, vm)).
Proof.
  induction rest as [|a rest IH]; simpl.
  - left. split; [done|]. by intros p ?%elem_of_nil.
  - destruct (py_contains a acc) eqn:E; [|right; apply missing_arguments_raises].
    apply py_contains_Some in E.
    destruct IH as [[H Hp] | He]; [|by right].
    left. split; [done|]. intros p [-> | Hin]%elem_of_cons; [done | by apply Hp].
Qed.

Lemma check_required_cases f_name req acc vm :
  (check_required f_name req acc vm = (Ok tt, vm)
   /\ forall p, p ∈ req -> is_Some (alist_get p acc))
  \/ (exists e, check_required f_name req acc vm = (Raise e, vm)).
Proof. apply check_required_in_cases. Qed.

Lemma fill_defaults_cases args :
  forall defaults acc vm,
    (exists c, fill_defaults args defaults acc vm = (Ok c, vm)
               /\ forall p, is_Some (alist_get p c)
                            <-> is_Some (alist_get p acc) \/ p ∈ args)
    \/ (exists e, fill_defaults args defaults acc vm = (Raise e, vm)).
Proof.
  induction args as [|a args IH]; intros defaults acc vm; simpl.
  - left. exists acc. split; [done|]. intros p. rewrite elem_of_nil. tauto.
  - destruct (py_contains a acc) eqn:E.
    + apply py_contains_Some in E.
      destruct (IH (tail defaults) acc vm) as [(c & Hc & Hp) | He]; [|by right].
      left. exists c. split; [done|]. intros p. rewrite Hp, elem_of_cons.
      split; [tauto|]. intros [H | [-> | H]]; tauto.
    + destruct (head defaults) as [d|]; [|right; by eexists].
      msimpl.
      destruct (IH (tail defaults) (alist_set a d acc) vm)
        as [(c & Hc & Hp) | He]; [|by right].
      left. exists c. split; [done|]. intros p.
      rewrite Hp, alist_get_set_Some, elem_of_cons. tauto.
Qed.

(** [inspect.getcallargs] returns bindings for exactly the parameters, or
    raises; it leaves the machine alone. *)
Lemma getcallargs_cases code defaults positional named vm :
  (exists c, getcallargs code defaults positional named vm = (Ok c, vm)
             /\ forall p, is_Some (alist_get p c)
                          <-> p ∈ take (co_argcount code) (co_varnames code))
  \/ (exists e, getcallargs code defaults positional named vm = (Raise e, vm)).
Proof.
  unfold getcallargs. cbv zeta.
  set (args := take (co_argcount code) (co_varnames code)).
  destruct (bind_named_cases (co_name code) args named (zip args positional) vm)
    as [(c & Hc & Hp) | [e He]].
  2:{ right. exists e. by apply bind_Raise. }
  pose proof (bind_named_keys _ _ _ _ _ _ Hc) as Hkeys.
  rewrite (bind_Ok _ _ _ _ _ Hc).
  destruct (bool_decide (length args < length positional)%nat) eqn:E1;
    [right; by eexists|].
  apply bool_decide_eq_false in E1.
  destruct (bool_decide (length positional < length args)%nat) eqn:E2.
  - set (split := slice_start args _).
    destruct (check_required_cases (co_name code) (take split args) c vm)
      as [[Hr Hreq] | [e He]].
    2:{ right. exists e. by apply bind_Raise. }
    rewrite (bind_Ok _ _ _ _ _ Hr).
    destruct (fill_defaults_cases (drop split args) defaults c vm)
      as [(c' & Hc' & Hp') | He]; [|by right].
    left. exists c'. split; [done|]. intros p. rewrite Hp', Hp, alist_get_zip.
    split.
    + intros [[H | H] | H]; [by eapply subseteq_take | by apply Hkeys
                            | by eapply subseteq_drop].
    + intros H. rewrite <- (take_drop split args) in H.
      apply elem_of_app in H as [H | H]; [|by right].
      left. pose proof (Hreq p H) as Hb. apply Hp in Hb.
      by rewrite alist_get_zip in Hb.
  - apply bool_decide_eq_false in E2.
    left. exists c. split; [done|]. intros p. rewrite Hp, alist_get_zip.
    rewrite firstn_all2 by lia. split; [|by left].
    intros [H | H]; [done | by apply Hkeys].
Qed.

Lemma foldl_insert_lookup (pairs : list (string * Value)) :
  forall (m : gmap string Value) p,
    is_Some (foldl (fun m kv => <[kv.1 := kv.2]> m) m pairs !! p)
    <-> is_Some (m !! p) \/ is_Some (alist_get p pairs).
Proof.
  induction pairs as [|[k v] pairs IH]; intros m p; simpl.
  - split; [by left | by intros [|[? ?]]].
  - rewrite IH. destruct (String.eqb p k) eqn:E.
    + apply String.eqb_eq in E as ->. rewrite lookup_insert_eq.
      split; [right; by eexists | left; by eexists].
    + apply String.eqb_neq in E. by rewrite lookup_insert_ne.
Qed.

Lemma call_locals_lookup call_args closure p :
  is_Some (call_locals call_args closure !! p)
  <-> is_Some (alist_get p call_args) \/ is_Some (alist_get p closure).
Proof.
  unfold call_locals. rewrite !foldl_insert_lookup, lookup_empty.
  split; [intros [[[? ?] | ?] | ?]; by eauto | tauto].
Qed.

(** The loop that copies the bindings of the cell and free variables:
    it ends with every name copied, or with the KeyError of a name that
    the locals do not bind. *)
Lemma bind_cells_cases names (d : gmap string Value) :
  forall acc vm,
    (exists cs, bind_cells names d acc vm = (Ok cs, vm)
                /\ (forall i, i ∈ names -> is_Some (d !! i) /\ alist_get i cs = d !! i)
                /\ (forall i, i ∉ names -> alist_get i cs = alist_get i acc))
    \/ (exists i, i ∈ names /\ d !! i = None
                  /\ bind_cells names d acc vm
                     = (Raise (NewExc KeyError ("'" +:+ i +:+ "'")), vm)).
Proof.
  induction names as [|a names IH]; intros acc vm; simpl.
  - left. exists acc. split; [done|]. split; [by intros i ?%elem_of_nil | done].
  - destruct (d !! a) as [v|] eqn:Ea; msimpl.
    2:{ right. exists a. split; [by left | done]. }
    destruct (IH (alist_set a v acc) vm) as [(cs & Hcs & Hin & Hout) | (i & Hi & Hn & He)].
    + left. exists cs. split; [done|]. split.
      * intros i Hi. destruct (decide (i ∈ names)) as [Hm|Hm]; [by apply Hin|].
        apply elem_of_cons in Hi as [-> | Hi]; [|done].
        rewrite (Hout a Hm), alist_get_set_eq, Ea. split; [by eexists | done].
      * intros i Hi. apply not_elem_of_cons in Hi as [Hne Hi].
        by rewrite (Hout i Hi), alist_get_set_ne.
    + right. exists i. split; [by right | done].
Qed.

(** The frame that [make_frame] builds for a call made while [prev] is
    active, on the fresh dict that [Function.__call__] passes as locals. *)
Lemma make_frame_call_cases (code : Code) (closure call_args : list (string * Value))
    (g : loc) (vm : VirtualMachine) (h : list HeapObj) (prev : Frame) :
  vm_frame vm = Some prev ->
  heap vm = h ++ [HDict ∅] ->
  let d := call_locals call_args closure in
  let vm1 := set_heap (h ++ [HDict d]) vm in
  (exists cs,
      make_frame code closure call_args (Some g) (Some (length h)) vm
      = (Ok (mkFrame code g (length h) (builtin_names prev) cs [] 0), vm1)
      /\ forall i, i ∈ co_cellvars code ++ co_freevars code ->
                   is_Some (d !! i) /\ alist_get i cs = d !! i)
  \/ (exists i,
        i ∈ co_cellvars code ++ co_freevars code /\ d !! i = None
        /\ make_frame code closure call_args (Some g) (Some (length h)) vm
           = (Raise (NewExc KeyError ("'" +:+ i +:+ "'")), vm1)).
Proof.
  intros Hprev Hh d vm1.
  assert (Hmf : make_frame code closure call_args (Some g) (Some (length h)) vm
                = Frame_init code g (length h) (Some prev) vm1).
  { unfold make_frame. unfold bind at 1, get_vm. unfold bind at 1, ret.
    cbn [fst snd]. unfold bind at 1.
    rewrite (dict_update_last call_args vm h ∅ Hh).
    unfold bind at 1.
    rewrite (dict_update_last closure (set_heap _ vm) h _ eq_refl).
    rewrite set_heap_twice. unfold bind at 1, get_vm.
    by rewrite vm_frame_set_heap, Hprev. }
  rewrite Hmf. unfold Frame_init. msimpl.
  assert (Hd : heap vm1 !! length h = Some (HDict d)).
  { unfold vm1. simpl. rewrite lookup_app_r by lia. by rewrite Nat.sub_diag. }
  rewrite (bind_Ok _ _ _ _ _ (dict_at_spec _ _ _ Hd)).
  destruct (bind_cells_cases (co_cellvars code) d [] vm1)
    as [(cs1 & H1 & Hin1 & Hout1) | (i & Hi & Hn & He)].
  2:{ right. exists i. split; [apply elem_of_app; by left|]. split; [done|].
      by apply bind_Raise. }
  rewrite (bind_Ok _ _ _ _ _ H1).
  destruct (bind_cells_cases (co_freevars code) d cs1 vm1)
    as [(cs2 & H2 & Hin2 & Hout2) | (i & Hi & Hn & He)].
  2:{ right. exists i. split; [apply elem_of_app; by right|]. split; [done|].
      by apply bind_Raise. }
  rewrite (bind_Ok _ _ _ _ _ H2).
  left. exists cs2. split; [done|]. intros i Hi.
  destruct (decide (i ∈ co_freevars code)) as [Hm|Hm]; [by apply Hin2|].
  apply elem_of_app in Hi as [Hi|Hi]; [|done].
  rewrite (Hout2 i Hm). by apply Hin1.
Qed.

(** ** Argument binding, from running code and from the host *)





(** ** The call stack, one frame per call *)







(** ** Cells *)

Lemma py_index_nil {A} (i : Z) : py_index (@nil A) i = None.
Proof.
  unfold py_index. destruct (bool_decide (0 <= i)) eqn:E; [done|].
  apply bool_decide_eq_false in E. simpl. by rewrite bool_decide_false by lia.
Qed.

(** X15.  [LOAD_DEREF] indexes the free variables only, while
    [LOAD_CLOSURE] counts the cell variables first.  In a frame whose
    code has no free variable, [LOAD_DEREF i] faults with IndexError for
    every [i], so a function cannot read its own cell variables; on the
    same frame [LOAD_CLOSURE n] pushes the binding of the [n]-th cell
    variable. *)
Theorem LOAD_DEREF_indexes_free_variables_only inv (vm : VirtualMachine)
    (f : Frame) :
  vm_frame vm = Some f ->
  co_freevars (code_obj f) = [] ->
  (forall i,
      dispatch inv "LOAD_DEREF" [VInt i] vm
      = (Ok (Some "exception"),
         record_exception (NewExc IndexError "tuple index out of range") vm))
  /\ (forall (n : nat) c locals v,
        co_cellvars (code_obj f) !! n = Some c ->
        heap vm !! f_locals f = Some (HDict locals) ->
        locals !! c = Some v ->
        dispatch inv "LOAD_CLOSURE" [VInt (Z.of_nat n)] vm
        = (Ok None, set_top_frame (set_stack (stack f ++ [v]) f) vm)).
Proof.
  intros Hf Hfree. split.
  - intros i. unfold dispatch, dispatch_body.
    change (bytecode_fn inv "LOAD_DEREF") with (Some (Unary inst_LOAD_DEREF)).
    cbn [apply_handler]. unfold inst_LOAD_DEREF. cbn [as_int]. msimpl.
    rewrite (bind_Ok _ _ _ _ _ (get_frame_Some _ _ _ Hf)).
    by rewrite Hfree, py_index_nil.
  - intros n c locals v Hc Hl Hv. unfold dispatch, dispatch_body.
    change (bytecode_fn inv "LOAD_CLOSURE") with (Some (Unary inst_LOAD_CLOSURE)).
    cbn [apply_handler]. unfold inst_LOAD_CLOSURE. cbn [as_int]. msimpl.
    rewrite (bind_Ok _ _ _ _ _ (get_frame_Some _ _ _ Hf)). cbv zeta.
    pose proof (lookup_lt_Some _ _ _ Hc) as Hlt.
    rewrite bool_decide_true by lia.
    unfold py_index at 1. rewrite bool_decide_true by lia.
    rewrite Nat2Z.id, Hc. msimpl.
    rewrite (bind_Ok _ _ _ _ _ (dict_at_spec _ _ _ Hl)).
    rewrite Hv. msimpl.
    by rewrite (bind_Ok _ _ _ _ _ (push_spec _ _ _ Hf)).
Qed.

Lemma LOAD_DEREF_indexes_free_variables_only_witness :
  vm_frame cell_vm = Some cell_frame
  /\ co_freevars (code_obj cell_frame) = []
  /\ dispatch (invoke dis38 0) "LOAD_DEREF" [VInt 0] cell_vm
     = (Ok (Some "exception"),
        record_exception (NewExc IndexError "tuple index out of range") cell_vm)
  /\ dispatch (invoke dis38 0) "LOAD_CLOSURE" [VInt (Z.of_nat 0)] cell_vm
     = (Ok None, set_top_frame (set_stack (stack cell_frame ++ [VInt 0]) cell_frame)
                   cell_vm).
Proof.
  do 2 (split; [reflexivity|]).
  destruct (LOAD_DEREF_indexes_free_variables_only (invoke dis38 0) cell_vm
              cell_frame eq_refl eq_refl) as [H1 H2].
  split; [exact (H1 0)|].
  exact (H2 0%nat "count" (<["_" := VNone]> (<["count" := VInt 0]> ∅)) (VInt 0)
            eq_refl eq_refl eq_refl).
Defined.

(** ** Running code on a machine that is already running *)

(** X16.  [run_code] without a global name space works on an idle
    machine only: while any frame is on the call stack, [make_frame]
    reads the attribute [global_names] that no frame has, and [run_code]
    raises AttributeError before building a frame, whatever the code and
    the locals passed, the machine unchanged. *)
Theorem run_code_needs_globals_when_nested (dis : DisModule) (fuel : nat)
    (code : Code) (local_names : option loc) (vm : VirtualMachine) :
  frames vm <> [] ->
  run_code dis fuel code None local_names vm
  = (Raise (NewExc AttributeError
              "'Frame' object has no attribute 'global_names'"), vm).
Proof.
  intros Hne. unfold run_code, make_frame.
  apply bind_Raise. unfold bind at 1, get_vm.
  rewrite bool_decide_false by (by destruct (frames vm)). cbn [negb].
  assert (Hf : exists f, vm_frame vm = Some f).
  { unfold vm_frame. destruct (last (frames vm)) eqn:E; [by eexists|].
    by apply last_None in E. }
  destruct Hf as [f Hf].
  apply bind_Raise. by rewrite (bind_Ok _ _ _ _ _ (get_frame_Some _ _ _ Hf)).
Qed.

Lemma run_code_needs_globals_when_nested_witness :
  frames sample_vm <> []
  /\ run_code dis38 50 sample_code None None sample_vm
     = (Raise (NewExc AttributeError
                 "'Frame' object has no attribute 'global_names'"), sample_vm).
Proof.
  split; [discriminate|].
  exact (run_code_needs_globals_when_nested dis38 50 sample_code None sample_vm
           ltac:(discriminate)).
Defined.

(** ** Tuples on the operand stack *)

Lemma push_each_spec vals :
  forall vm f,
    vm_frame vm = Some f ->
    push_each vals vm = (Ok tt, set_top_frame (set_stack (stack f ++ vals) f) vm).
Proof.
  induction vals as [|x vals IH]; intros vm f Hf; simpl.
  - by rewrite app_nil_r, set_stack_id, (set_top_frame_id _ _ Hf).
  - rewrite (bind_Ok _ _ _ _ _ (push_spec _ _ _ Hf)).
    rewrite (IH _ _ (vm_frame_set_top _ _ _ Hf)).
    rewrite set_top_frame_twice. cbn [stack set_stack].
    by rewrite set_stack_twice, <- app_assoc.
Qed.

(** X17.  [BUILD_TUPLE] followed by [UNPACK_SEQUENCE] reverses the
    values it covers: with the values [vs] on top of the stack,
    [BUILD_TUPLE len(vs)] replaces them by one tuple and
    [UNPACK_SEQUENCE] replaces the tuple by its items pushed last to
    first, so that the first item ends on top.  [UNPACK_SEQUENCE] never
    looks at its operand: a count that differs from the length of the
    tuple raises nothing. *)
Theorem BUILD_TUPLE_then_UNPACK_SEQUENCE inv (vm : VirtualMachine) (f : Frame)
    (s vs : list Value) (count : Value) :
  vm_frame vm = Some f -> stack f = s ++ vs ->
  (dispatch inv "BUILD_TUPLE" [VInt (Z.of_nat (length vs))] ;;;
   dispatch inv "UNPACK_SEQUENCE" [count]) vm
  = (Ok None, set_top_frame (set_stack (s ++ reverse vs) f) vm).
Proof.
  intros Hf Hs.
  assert (Hb : dispatch inv "BUILD_TUPLE" [VInt (Z.of_nat (length vs))] vm
               = (Ok None, set_top_frame (set_stack (s ++ [VTuple vs]) f) vm)).
  { unfold dispatch, dispatch_body.
    change (bytecode_fn inv "BUILD_TUPLE") with (Some (Unary inst_BUILD_TUPLE)).
    cbn [apply_handler]. unfold inst_BUILD_TUPLE. cbn [as_int]. msimpl.
    destruct vs as [|v vs].
    - rewrite app_nil_r in Hs. cbn [length popn Z.of_nat]. unfold popn.
      rewrite bool_decide_true by done. msimpl.
      rewrite (bind_Ok _ _ _ _ _ (push_spec _ _ _ Hf)). by rewrite Hs.
    - rewrite (bind_Ok _ _ _ _ _ (popn_suffix _ _ _ _ Hf Hs ltac:(done))).
      rewrite (bind_Ok _ _ _ _ _ (push_spec _ _ _ (vm_frame_set_top _ _ _ Hf))).
      by rewrite set_top_frame_twice. }
  rewrite (bind_Ok _ _ _ _ _ Hb). cbv beta.
  set (f1 := set_stack (s ++ [VTuple vs]) f).
  assert (Hf1 : vm_frame (set_top_frame f1 vm) = Some f1) by (by eapply vm_frame_set_top).
  unfold dispatch, dispatch_body.
  change (bytecode_fn inv "UNPACK_SEQUENCE") with (Some (Unary inst_UNPACK_SEQUENCE)).
  cbn [apply_handler]. unfold inst_UNPACK_SEQUENCE.
  rewrite (bind_Ok _ _ _ _ _ (pop_snoc _ f1 s (VTuple vs) Hf1 eq_refl)).
  cbn [py_reversed]. msimpl.
  rewrite set_top_frame_twice.
  rewrite (bind_Ok _ _ _ _ _
             (push_each_spec _ _ (set_stack s f1) (vm_frame_set_top _ _ _ Hf))).
  by rewrite set_top_frame_twice.
Qed.

Lemma BUILD_TUPLE_then_UNPACK_SEQUENCE_witness :
  vm_frame pair_vm = Some pair_frame
  /\ stack pair_frame = [] ++ [VInt 7; VInt 2]
  /\ (dispatch (invoke dis38 0) "BUILD_TUPLE" [VInt (Z.of_nat 2)] ;;;
      dispatch (invoke dis38 0) "UNPACK_SEQUENCE" [VInt 5]) pair_vm
     = (Ok None, set_top_frame (set_stack [VInt 2; VInt 7] pair_frame) pair_vm).
Proof.
  do 2 (split; [reflexivity|]).
  exact (BUILD_TUPLE_then_UNPACK_SEQUENCE (invoke dis38 0) pair_vm pair_frame []
           [VInt 7; VInt 2] (VInt 5) eq_refl eq_refl).
Defined.

(** ** The shape of a call *)

(** X18.  [CALL_FUNCTION] never reads its operand: it always pops three
    values, the two topmost as the arguments and the third as the callee.
    With at least three values on the stack the callee is invoked with
    exactly those two arguments in stack order and no keyword, and its
    result replaces the three values; with fewer, the instruction
    empties the stack and records the IndexError of the failed pop,
    whatever the operand (so also for calls compiled with no or one
    argument). *)
Theorem CALL_FUNCTION_always_takes_two_arguments inv (vm : VirtualMachine)
    (f : Frame) (arg : Value) :
  vm_frame vm = Some f ->
  (forall s func a b r vm1 f1,
      stack f = s ++ [func; a; b] ->
      inv func [a; b] [] (set_top_frame (set_stack s f) vm) = (Ok r, vm1) ->
      vm_frame vm1 = Some f1 ->
      dispatch inv "CALL_FUNCTION" [arg] vm
      = (Ok None, set_top_frame (set_stack (stack f1 ++ [r]) f1) vm1))
  /\ ((length (stack f) < 3)%nat ->
      dispatch inv "CALL_FUNCTION" [arg] vm
      = (Ok (Some "exception"),
         record_exception (NewExc IndexError "pop from empty list")
           (set_top_frame (set_stack [] f) vm))).
Proof.
  intros Hf. split.
  - intros s func a b r vm1 f1 Hs Hinv Hf1. unfold dispatch, dispatch_body.
    rewrite bytecode_fn_CALL_FUNCTION. cbn [apply_handler].
    unfold inst_CALL_FUNCTION.
    set (fa := set_stack (s ++ [func; a]) f).
    set (fb := set_stack (s ++ [func]) f).
    assert (H1 : pop vm = (Ok b, set_top_frame fa vm)).
    { apply pop_snoc; [done|]. rewrite Hs. by rewrite <- !app_assoc. }
    assert (H2 : pop (set_top_frame fa vm) = (Ok a, set_top_frame fb vm)).
    { erewrite (pop_snoc _ fa (s ++ [func]));
        [by rewrite set_top_frame_twice | by eapply vm_frame_set_top | ].
      unfold fa. rewrite stack_set_stack. by rewrite <- !app_assoc. }
    assert (H3 : pop (set_top_frame fb vm)
                 = (Ok func, set_top_frame (set_stack s f) vm)).
    { erewrite (pop_snoc _ fb s);
        [by rewrite set_top_frame_twice | by eapply vm_frame_set_top | done]. }
    rewrite (bind_Ok _ _ _ _ _ H1), (bind_Ok _ _ _ _ _ H2), (bind_Ok _ _ _ _ _ H3).
    rewrite (bind_Ok _ _ _ _ _ Hinv).
    by rewrite (bind_Ok _ _ _ _ _ (push_spec _ _ _ Hf1)).
  - intros Hlen. unfold dispatch, dispatch_body.
    rewrite bytecode_fn_CALL_FUNCTION. cbn [apply_handler].
    unfold inst_CALL_FUNCTION.
    destruct (stack f) as [|x [|y [|z rest]]] eqn:Hs; [| | |simpl in Hlen; lia].
    + unfold bind at 1, pop. rewrite (bind_Ok _ _ _ _ _ (get_frame_Some _ _ _ Hf)).
      rewrite Hs. cbn [last]. rewrite <- Hs, set_stack_id.
      by rewrite (set_top_frame_id _ _ Hf).
    + rewrite (bind_Ok _ _ _ _ _ (pop_snoc _ _ [] x Hf Hs)).
      unfold bind at 1, pop.
      by rewrite (bind_Ok _ _ _ _ _
                    (get_frame_Some _ _ _ (vm_frame_set_top _ _ _ Hf))).
    + rewrite (bind_Ok _ _ _ _ _ (pop_snoc _ _ [x] y Hf Hs)).
      rewrite (bind_Ok _ _ _ _ _
                 (pop_snoc _ (set_stack [x] f) [] x (vm_frame_set_top _ _ _ Hf) eq_refl)).
      rewrite set_top_frame_twice.
      unfold bind at 1, pop.
      by rewrite (bind_Ok _ _ _ _ _
                    (get_frame_Some _ _ _ (vm_frame_set_top _ _ _ Hf))).
Qed.

Lemma CALL_FUNCTION_always_takes_two_arguments_witness :
  vm_frame call_vm = Some call_frame
  /\ vm_frame sample_vm = Some sample_frame
  /\ fst (dispatch (invoke dis38 5) "CALL_FUNCTION" [VInt 0] call_vm) = Ok None
  /\ (stack <$> vm_frame (snd (dispatch (invoke dis38 5) "CALL_FUNCTION" [VInt 0] call_vm)))
     = Some [VInt 9; VInt 1]
  /\ dispatch (invoke dis38 5) "CALL_FUNCTION" [VInt 0] sample_vm
     = (Ok (Some "exception"),
        record_exception (NewExc IndexError "pop from empty list")
          (set_top_frame (set_stack [] sample_frame) sample_vm)).
Proof.
  do 2 (split; [reflexivity|]).
  destruct (CALL_FUNCTION_always_takes_two_arguments (invoke dis38 5) call_vm
              call_frame (VInt 0) eq_refl) as [H1 _].
  destruct (CALL_FUNCTION_always_takes_two_arguments (invoke dis38 5) sample_vm
              sample_frame (VInt 0) eq_refl) as [_ H2].
  rewrite (H1 [VInt 9] (VFunction fn_g) (VInt 1) (VInt 2) (VInt 1)
              (snd (invoke dis38 5 (VFunction fn_g) [VInt 1; VInt 2] []
                      (set_top_frame (set_stack [VInt 9] call_frame) call_vm)))
              (set_stack [VInt 9] call_frame) eq_refl
              ltac:(vm_compute; reflexivity) ltac:(vm_compute; reflexivity)).
  split; [reflexivity|]. split; [vm_compute; reflexivity|].
  apply H2. vm_compute. lia.
Defined.

(** ** Instructions without a handler *)

(** X19.  The instructions that abort a frame.  A frame whose next
    instruction is one of the 49 opcodes of CPython 3.8 listed in
    [unsupported38] (among them those of [try], [raise] and [with], of
    [and] and [or], of slices, of [yield], and STORE_DEREF) is aborted
    whatever its operand and the machine: [dispatch] records a
    VirtualMachineError naming the instruction and [run_frame] pops the
    frame and raises it. *)
Theorem unsupported_instructions_abort_frame (k : nat) (frame : Frame)
    (vm : VirtualMachine) (bc : Z) (args : list Value) :
  decode dis38 (code_obj frame) (last_instruction frame)
  = Some (opname38 bc, args) ->
  bc ∈ unsupported38 ->
  let fault := NewExc VirtualMachineError
                 ("unsupported bytecode type: " +:+ opname38 bc) in
  run_frame dis38 (S (S k)) frame vm
  = (Raise (ReExc VirtualMachineError fault), record_exception fault vm).
Proof.
  intros Hd Hbc fault.
  apply (run_frame_faulting_instruction k frame vm _ _ fault Hd).
  intros inv m. unfold fault, unsupported38 in *.
  repeat (apply elem_of_cons in Hbc as [-> | Hbc]; [reflexivity|]).
  by apply elem_of_nil in Hbc.
Qed.

Lemma unsupported_instructions_abort_frame_witness :
  let fault := NewExc VirtualMachineError
                 "unsupported bytecode type: SETUP_FINALLY" in
  decode dis38 (code_obj try_frame) (last_instruction try_frame)
  = Some (opname38 122, [VInt 5])
  /\ run_frame dis38 2 try_frame idle_vm
     = (Raise (ReExc VirtualMachineError fault), record_exception fault idle_vm).
Proof.
  intros fault. split; [reflexivity|].
  apply (unsupported_instructions_abort_frame 0 try_frame idle_vm 122 [VInt 5]
           eq_refl).
  apply (bool_decide_unpack _). vm_compute. exact I.
Defined.

(** ** The handler table against the opcode table *)

Lemma bytecode_fn_angle inv (s : string) : bytecode_fn inv ("<" +:+ s) = None.
Proof. reflexivity. Qed.

(** An opcode whose name has a handler carries an operand exactly when
    the handler takes one. *)
Lemma handler_arity_fits inv (bc : Z) :
  match bytecode_fn inv (opname38 bc) with
  | Some (Nullary _) => bc < 90
  | Some (Unary _) => 90 <= bc
  | None => True
  end.
Proof.
  destruct bc as [|p|p];
    [by rewrite (bytecode_fn_angle inv (pretty 0 +:+ ">"))
    | | by rewrite (bytecode_fn_angle inv (pretty (Z.neg p) +:+ ">"))].
  do 8 (try destruct p as [p|p|]);
    lazymatch goal with
    | |- context [opname38 ?z] =>
        first
          [ change (opname38 z) with ("<" +:+ (pretty z +:+ ">"));
            rewrite bytecode_fn_angle; exact I
          | lazy [opname38 bytecode_fn bytecode_fn_in handlers String.eqb
                  Ascii.eqb Bool.eqb andb];
            first [exact I | reflexivity | discriminate] ]
    end.
Qed.

(** X20.  The handler table fits the opcode table of CPython 3.8: for
    every instruction that [parse_inst_and_args] can decode, from any
    code object at any offset, and for which [dispatch] finds a handler,
    the decoded operand list has the length the handler expects (none
    for a handler without parameter, one otherwise).  The call of
    [bytecode_fn] on the unpacked operand list therefore never fails on
    its argument count. *)
Theorem decoded_instruction_fits_handler inv (code : Code) (pc : Z)
    (name : string) (args : list Value) (h : Handler) :
  decode dis38 code pc = Some (name, args) ->
  bytecode_fn inv name = Some h ->
  match h with
  | Nullary m => args = [] /\ apply_handler h args = m
  | Unary f => exists a, args = [a] /\ apply_handler h args = f a
  end.
Proof.
  intros Hd Hh. unfold decode in Hd.
  destruct (py_index (co_code code) pc) as [bc|]; [|discriminate].
  pose proof (handler_arity_fits inv bc) as Hfit.
  change (HAVE_ARGUMENT dis38) with 90 in Hd. change (opname dis38) with opname38 in Hd.
  destruct (bool_decide (90 <= bc)) eqn:E.
  - apply bool_decide_eq_true in E.
    destruct (py_index (co_code code) (pc + 1)) as [av|]; [|discriminate].
    match type of Hd with
    | match ?arg with _ => _ end = _ => destruct arg as [a|]; [|discriminate]
    end.
    injection Hd as <- <-. rewrite Hh in Hfit.
    destruct h as [m|f]; [lia|]. by exists a.
  - apply bool_decide_eq_false in E. injection Hd as <- <-. rewrite Hh in Hfit.
    destruct h as [m|f]; [done | lia].
Qed.

Lemma decoded_instruction_fits_handler_witness :
  decode dis38 code_seven 0 = Some ("LOAD_CONST", [VInt 7])
  /\ bytecode_fn (invoke dis38 0) "LOAD_CONST" = Some (Unary inst_LOAD_CONST)
  /\ exists a, [VInt 7] = [a]
               /\ apply_handler (Unary inst_LOAD_CONST) [VInt 7] = inst_LOAD_CONST a.
Proof.
  do 2 (split; [reflexivity|]).
  exact (decoded_instruction_fits_handler (invoke dis38 0) code_seven 0 "LOAD_CONST"
           [VInt 7] (Unary inst_LOAD_CONST) eq_refl eq_refl).
Defined.

(** ** A decoder fault inside a call *)

Lemma getcallargs_exact code defaults positional vm :
  length (take (co_argcount code) (co_varnames code)) = length positional ->
  getcallargs code defaults positional [] vm
  = (Ok (zip (take (co_argcount code) (co_varnames code)) positional), vm).
Proof.
  intros Hlen. unfold getcallargs. cbv zeta. cbn [bind_named]. msimpl.
  by rewrite !bool_decide_false by lia.
Qed.

Lemma CALL_FUNCTION_body inv vm f s func a b arg :
  vm_frame vm = Some f ->
  stack f = s ++ [func; a; b] ->
  dispatch_body inv "CALL_FUNCTION" [arg] vm
  = (retval <- inv func [a; b] [] ;; push [retval] ;;; none)
      (set_top_frame (set_stack s f) vm).
Proof.
  intros Hf Hs. unfold dispatch_body.
  rewrite bytecode_fn_CALL_FUNCTION. cbn [apply_handler].
  unfold inst_CALL_FUNCTION.
  set (fa := set_stack (s ++ [func; a]) f).
  set (fb := set_stack (s ++ [func]) f).
  assert (H1 : pop vm = (Ok b, set_top_frame fa vm)).
  { apply pop_snoc; [done|]. rewrite Hs. by rewrite <- !app_assoc. }
  assert (H2 : pop (set_top_frame fa vm) = (Ok a, set_top_frame fb vm)).
  { erewrite (pop_snoc _ fa (s ++ [func]));
      [by rewrite set_top_frame_twice | by eapply vm_frame_set_top | ].
    unfold fa. rewrite stack_set_stack. by rewrite <- !app_assoc. }
  assert (H3 : pop (set_top_frame fb vm)
               = (Ok func, set_top_frame (set_stack s f) vm)).
  { erewrite (pop_snoc _ fb s);
      [by rewrite set_top_frame_twice | by eapply vm_frame_set_top | done]. }
  by rewrite (bind_Ok _ _ _ _ _ H1), (bind_Ok _ _ _ _ _ H2), (bind_Ok _ _ _ _ _ H3).
Qed.

(** X21.  A decoder fault inside a call corrupts the call stack.  When a
    frame calls a function of two parameters whose code cannot be decoded
    at offset 0, the callee's [run_frame] raises without popping its
    frame; the caller's [dispatch] records the IndexError; the caller's
    [run_frame] then pops the frame on top, which is the callee's, and
    re-raises: the caller's own frame is still on the call stack when
    its [run_frame] has ended. *)
Theorem callee_decode_fault_leaks_caller_frame (k : nat) (caller : Frame)
    (vm : VirtualMachine) (fn : Function) (s : list Value) (a b arg : Value) :
  decode dis38 (code_obj caller) (last_instruction caller)
  = Some ("CALL_FUNCTION", [arg]) ->
  stack caller = s ++ [VFunction fn; a; b] ->
  length (take (co_argcount (func_code fn)) (co_varnames (func_code fn))) = 2%nat ->
  co_cellvars (func_code fn) = [] -> co_freevars (func_code fn) = [] ->
  decode dis38 (func_code fn) 0 = None ->
  exists msg vm',
    run_frame dis38 (S (S (S k))) caller vm
    = (Raise (ReExc IndexError (NewExc IndexError msg)), vm')
    /\ frames vm'
       = frames vm
         ++ [set_stack s (set_last_instruction (last_instruction caller + 2) caller)].
Proof.
  intros Hd Hs Hlen Hcell Hfree Hdn.
  set (f2 := set_last_instruction (last_instruction caller + 2) caller).
  set (f3 := set_stack s f2).
  set (code := func_code fn) in *.
  set (vm0 := set_heap (heap vm ++ [HDict ∅]) (with_frame f3 vm)).
  assert (Hf3 : vm_frame vm0 = Some f3) by apply vm_frame_with_frame.
  destruct (make_frame_call_cases code (func_closure fn)
              (zip (take (co_argcount code) (co_varnames code)) [a; b])
              (func_globals fn) vm0 (heap vm) f3 Hf3 eq_refl)
    as [(cs & Hmf & _) | (i & Hi & _)].
  2:{ rewrite Hcell, Hfree in Hi. by apply elem_of_nil in Hi. }
  set (fr := mkFrame code (func_globals fn) (length (heap vm)) (builtin_names f3) cs [] 0)
    in Hmf.
  set (vm3 := set_heap _ vm0) in Hmf.
  destruct (parse_decode_None dis38 (with_frame fr vm3) fr
              (vm_frame_with_frame _ _) Hdn) as (msg & pc & Hp).
  rewrite set_top_with_frame in Hp.
  set (e := NewExc IndexError msg).
  set (fr' := set_last_instruction pc fr) in Hp.
  assert (Hcall : invoke_with (run_frame dis38 (S (S k))) (VFunction fn) [a; b] []
                    (with_frame f3 vm)
                  = (Raise e, with_frame fr' vm3)).
  { unfold invoke_with, Function_call. fold code.
    rewrite (bind_Ok _ _ _ _ _ (getcallargs_exact code _ [a; b] _ Hlen)).
    assert (Halloc : alloc (HDict ∅) (with_frame f3 vm) = (Ok (length (heap vm)), vm0))
      by done.
    rewrite (bind_Ok _ _ _ _ _ Halloc), (bind_Ok _ _ _ _ _ Hmf).
    rewrite run_frame_S.
    rewrite (bind_Ok _ _ _ _ _ (push_frame_spec _ _)). cbv beta.
    apply bind_Raise. rewrite run_loop_S. apply bind_Raise. unfold cycle.
    apply bind_Raise. exact Hp. }
  assert (Hc : cycle dis38 (invoke_with (run_frame dis38 (S (S k))))
                 (with_frame caller vm)
               = (Ok (Some "exception"), with_frame fr' (record_exception e vm3))).
  { rewrite (cycle_spec dis38 _ _ caller _ _ (vm_frame_with_frame _ _) Hd).
    rewrite set_top_with_frame. fold f2. unfold dispatch.
    rewrite (CALL_FUNCTION_body _ _ f2 s (VFunction fn) a b arg
               (vm_frame_with_frame _ _) Hs).
    rewrite set_top_with_frame. fold f3.
    by rewrite (bind_Raise _ _ _ _ _ Hcall). }
  exists msg, (record_exception e vm3). split.
  - rewrite run_frame_S.
    rewrite (bind_Ok _ _ _ _ _ (push_frame_spec _ _)). cbv beta.
    cbn [run_loop]. rewrite bind_assoc, (bind_Ok _ _ _ _ _ Hc). cbv beta. msimpl.
    by rewrite (bind_Ok _ _ _ _ _ (pop_frame_with_frame _ _)).
  - reflexivity.
Qed.

Lemma callee_decode_fault_leaks_caller_frame_witness :
  decode dis38 (code_obj leak_frame) (last_instruction leak_frame)
  = Some ("CALL_FUNCTION", [VInt 2])
  /\ decode dis38 (func_code fn_empty) 0 = None
  /\ exists msg vm',
       run_frame dis38 3 leak_frame idle_vm
       = (Raise (ReExc IndexError (NewExc IndexError msg)), vm')
       /\ frames vm'
          = frames idle_vm
            ++ [set_stack [] (set_last_instruction (last_instruction leak_frame + 2)
                                leak_frame)].
Proof.
  do 2 (split; [reflexivity|]).
  exact (callee_decode_fault_leaks_caller_frame 0 leak_frame idle_vm fn_empty []
           (VInt 1) (VInt 2) (VInt 2) eq_refl eq_refl eq_refl eq_refl eq_refl
           eq_refl).
Defined.

(** ** Unwinding, in general *)

Lemma run_loop_after dis inv (n : nat) :
  forall fuel vm vm',
    after_cycles dis inv n vm = Some vm' -> (n < fuel)%nat ->
    run_loop dis inv fuel vm
    = bind (cycle dis inv)
           (fun res => match res with
                       | Some r => ret r
                       | None => run_loop dis inv (fuel - S n)
                       end) vm'.
Proof.
  induction n as [|n IH]; intros fuel vm vm' H Hlt; simpl in H;
    (destruct fuel as [|fuel]; [lia|]).
  - injection H as <-. rewrite run_loop_S. by rewrite Nat.sub_succ, Nat.sub_0_r.
  - destruct (cycle dis inv vm) as [[[r|]| | |] vm1] eqn:E; try discriminate.
    rewrite run_loop_S, (bind_Ok _ _ _ _ _ E). cbv beta iota.
    rewrite (IH fuel vm1 vm' H) by lia. reflexivity.
Qed.

Lemma after_cycles_keeps dis inv (n : nat) :
  (forall func a k, keeps_stack (inv func a k)) ->
  forall vm vm',
    after_cycles dis inv n vm = Some vm' -> same_call_stack vm vm'.
Proof.
  intros Hinv. induction n as [|n IH]; intros vm vm' H; simpl in H.
  - injection H as <-. apply same_call_stack_refl.
  - destruct (cycle dis inv vm) as [[[r|]| | |] vm1] eqn:E; try discriminate.
    eapply same_call_stack_trans; [|by eapply IH].
    by eapply cycle_keeps.
Qed.

(** One level of the unwinding.  The loop of [frame] has gone on for [n]
    cycles and the handler of its next instruction raises [e], the call
    stack being then as deep as at the start of the instruction, with the
    same frames below the active one: [run_frame] pops exactly its own
    frame and raises the recorded exception, nothing else having run. *)
Lemma run_frame_unwinds (dis : DisModule) (k : nat) (frame : Frame)
    (vm0 : VirtualMachine) (n : nat) (vm1 : VirtualMachine) (f : Frame)
    (name : string) (args : list Value) (e : PyExc) (vm2 : VirtualMachine) :
  (n < k)%nat ->
  after_cycles dis (invoke dis k) n (with_frame frame vm0) = Some vm1 ->
  vm_frame vm1 = Some f ->
  decode dis (code_obj f) (last_instruction f) = Some (name, args) ->
  dispatch_body (invoke dis k) name args
    (set_top_frame (set_last_instruction (last_instruction f + 2) f) vm1)
  = (Raise e, vm2) ->
  same_call_stack vm1 vm2 ->
  run_frame dis (S k) frame vm0
  = (Raise (ReExc (exc_kind e) e),
     mkVM (frames vm0) (return_value vm2) (Some (exc_kind e, e, None))
          (heap vm2) (stdout vm2)).
Proof.
  intros Hn Ha Hf Hd He Hsame. rewrite run_frame_S.
  rewrite (bind_Ok _ _ _ _ _ (push_frame_spec _ _)). cbv beta.
  fold (invoke dis k).
  assert (Hc : cycle dis (invoke dis k) vm1
               = (Ok (Some "exception"), record_exception e vm2)).
  { rewrite (cycle_spec dis _ _ f name args Hf Hd). unfold dispatch. by rewrite He. }
  assert (Hloop : run_loop dis (invoke dis k) k (with_frame frame vm0)
                  = (Ok "exception", record_exception e vm2)).
  { rewrite (run_loop_after dis _ n k _ _ Ha Hn).
    by rewrite (bind_Ok _ _ _ _ _ Hc). }
  rewrite (bind_Ok _ _ _ _ _ Hloop). cbv beta.
  pose proof (after_cycles_keeps dis _ n (invoke_keeps_stack dis k) _ _ Ha)
    as [Hr1 Hl1].
  destruct Hsame as [Hr2 Hl2].
  assert (Hfr : removelast (frames vm2) = frames vm0).
  { rewrite Hr2, Hr1. simpl. apply removelast_snoc. }
  assert (Hne : frames vm2 <> []).
  { intros Hnil. rewrite Hnil in Hl2. rewrite Hl1 in Hl2. simpl in Hl2.
    rewrite length_app in Hl2. simpl in Hl2. lia. }
  assert (Hpop : pop_frame (record_exception e vm2)
                 = (Ok tt, mkVM (frames vm0) (return_value vm2)
                                (Some (exc_kind e, e, None)) (heap vm2) (stdout vm2))).
  { unfold pop_frame, record_exception. cbn [frames return_value last_exception
                                             heap stdout].
    destruct (frames vm2) as [|f0 fs] eqn:E; [done|]. by rewrite Hfr. }
  rewrite (bind_Ok _ _ _ _ _ Hpop). reflexivity.
Qed.

(** The call instruction whose callee raises: the exception reaches the
    [except] of the caller's [dispatch] from the machine the callee
    left. *)
Lemma call_instruction_raises (run : Frame -> M Value) (vm : VirtualMachine)
    (f : Frame) (s : list Value) (arg : Value) (fn : Function) (x y : Value)
    (frame : Frame) (vm0 : VirtualMachine) (e : PyExc) (vm3 : VirtualMachine) :
  vm_frame vm = Some f ->
  stack f = s ++ [VFunction fn; x; y] ->
  (forall run, Function_call run fn [x; y] [] (set_top_frame (calling f s) vm)
               = run frame vm0) ->
  run frame vm0 = (Raise e, vm3) ->
  dispatch_body (invoke_with run) "CALL_FUNCTION" [arg]
    (set_top_frame (set_last_instruction (last_instruction f + 2) f) vm)
  = (Raise e, vm3).
Proof.
  intros Hf Hs Hcall Hrun.
  rewrite (CALL_FUNCTION_body _ _ (set_last_instruction (last_instruction f + 2) f)
             s (VFunction fn) x y arg);
    [ | by eapply vm_frame_set_top | exact Hs ].
  rewrite set_top_frame_twice. apply bind_Raise.
  cbn [invoke_with]. fold (calling f s). by rewrite Hcall.
Qed.

(** C4 (amended).  The unwind protocol, for a fault raised by an
    instruction handler.  Frame A is about to call B; B, after [nB]
    instructions, is about to call C; C, after [nC] instructions, executes
    an instruction whose handler raises [e] while C's frame is the active
    one.  Then C's [run_frame] and B's [run_frame] each pop their own
    frame and raise once, and A observes one condition, the result
    ["exception"] of its calling instruction: the call stack is A's again
    (the function and its arguments popped), the recorded exception has
    the class of [e], wraps [e] twice and has the traceback None, and
    the heap, the output and [return_value] are as the faulting
    instruction of C left them: no instruction of C or of B ran after
    it. *)
Theorem unwind_protocol (dis : DisModule) (k : nat)
    (vmA : VirtualMachine) (fa : Frame) (sa : list Value) (argA : Value)
    (fnB : Function) (xB yB : Value) (frB : Frame) (vmB0 : VirtualMachine)
    (nB : nat) (vmB : VirtualMachine) (fb : Frame) (sb : list Value) (argB : Value)
    (fnC : Function) (xC yC : Value) (frC : Frame) (vmC0 : VirtualMachine)
    (nC : nat) (vmC : VirtualMachine) (fc : Frame) (name : string)
    (args : list Value) (e : PyExc) (vmC' : VirtualMachine) :
  let vmA1 := set_top_frame (calling fa sa) vmA in
  let vmB1 := set_top_frame (calling fb sb) vmB in
  vm_frame vmA = Some fa ->
  decode dis (code_obj fa) (last_instruction fa) = Some ("CALL_FUNCTION", [argA]) ->
  stack fa = sa ++ [VFunction fnB; xB; yB] ->
  (forall run, Function_call run fnB [xB; yB] [] vmA1 = run frB vmB0) ->
  frames vmB0 = frames vmA1 ->
  (nB < S k)%nat ->
  after_cycles dis (invoke dis (S k)) nB (with_frame frB vmB0) = Some vmB ->
  vm_frame vmB = Some fb ->
  decode dis (code_obj fb) (last_instruction fb) = Some ("CALL_FUNCTION", [argB]) ->
  stack fb = sb ++ [VFunction fnC; xC; yC] ->
  (forall run, Function_call run fnC [xC; yC] [] vmB1 = run frC vmC0) ->
  frames vmC0 = frames vmB1 ->
  (nC < k)%nat ->
  after_cycles dis (invoke dis k) nC (with_frame frC vmC0) = Some vmC ->
  vm_frame vmC = Some fc ->
  decode dis (code_obj fc) (last_instruction fc) = Some (name, args) ->
  dispatch_body (invoke dis k) name args
    (set_top_frame (set_last_instruction (last_instruction fc + 2) fc) vmC)
  = (Raise e, vmC') ->
  same_call_stack vmC vmC' ->
  let kind := exc_kind e in
  let r := cycle dis (invoke dis (S (S k))) vmA in
  fst r = Ok (Some "exception")
  /\ frames (snd r) = frames vmA1
  /\ last_exception (snd r) = Some (kind, ReExc kind (ReExc kind e), None)
  /\ heap (snd r) = heap vmC'
  /\ stdout (snd r) = stdout vmC'
  /\ return_value (snd r) = return_value vmC'
  /\ (exists vm3,
        run_frame dis (S k) frC vmC0 = (Raise (ReExc kind e), vm3)
        /\ frames vm3 = frames vmB1
        /\ last_exception vm3 = Some (kind, e, None))
  /\ (exists vm4,
        run_frame dis (S (S k)) frB vmB0
        = (Raise (ReExc kind (ReExc kind e)), vm4)
        /\ frames vm4 = frames vmA1
        /\ last_exception vm4 = Some (kind, ReExc kind e, None)).
Proof.
  intros vmA1 vmB1 HfA HdA HsA HcallB HfrB HnB HaB HfB HdB HsB HcallC HfrC
         HnC HaC HfC HdC He Hsame kind r.
  pose proof (run_frame_unwinds dis k frC vmC0 nC vmC fc name args e vmC'
                HnC HaC HfC HdC He Hsame) as HC.
  fold kind in HC. set (vm3 := mkVM _ _ _ _ _) in HC.
  assert (HeB : dispatch_body (invoke dis (S k)) "CALL_FUNCTION" [argB]
                  (set_top_frame (set_last_instruction (last_instruction fb + 2) fb)
                     vmB)
                = (Raise (ReExc kind e), vm3)).
  { by apply (call_instruction_raises (run_frame dis (S k)) vmB fb sb argB fnC xC yC
                frC vmC0). }
  assert (HsameB : same_call_stack vmB vm3).
  { destruct (same_call_stack_set_top (calling fb sb) vmB) as [H1 H2].
    unfold same_call_stack, vm3. cbn [frames]. by rewrite HfrC. }
  pose proof (run_frame_unwinds dis (S k) frB vmB0 nB vmB fb "CALL_FUNCTION" [argB]
                (ReExc kind e) vm3 HnB HaB HfB HdB HeB HsameB) as HB.
  cbn [exc_kind] in HB. set (vm4 := mkVM _ _ _ _ _) in HB.
  assert (HeA : dispatch_body (invoke dis (S (S k))) "CALL_FUNCTION" [argA]
                  (set_top_frame (set_last_instruction (last_instruction fa + 2) fa)
                     vmA)
                = (Raise (ReExc kind (ReExc kind e)), vm4)).
  { by apply (call_instruction_raises (run_frame dis (S (S k))) vmA fa sa argA fnB xB
                yB frB vmB0). }
  assert (Hr : r = (Ok (Some "exception"),
                    record_exception (ReExc kind (ReExc kind e)) vm4)).
  { unfold r. rewrite (cycle_spec dis _ _ fa "CALL_FUNCTION" [argA] HfA HdA).
    unfold dispatch. by rewrite HeA. }
  rewrite Hr. cbn [fst snd].
  split; [done|]. split; [exact HfrB|]. split; [done|].
  split; [done|]. split; [done|]. split; [done|]. split.
  - exists vm3. split; [exact HC|]. split; [exact HfrC | done].
  - exists vm4. split; [exact HB|]. split; [exact HfrB | done].
Qed.

Lemma unwind_protocol_witness :
  let fault := NewExc NameError "global name 'undefined_name' is not defined" in
  let r := cycle dis38 (invoke dis38 50) (unwind_vm [unwind_A unwind_call 22] []) in
  snd (cycles dis38 (invoke dis38 50) 11 (root_vm code_A))
  = unwind_vm [unwind_A unwind_call 22] []
  /\ after_cycles dis38 (invoke dis38 49) 3
       (unwind_vm [unwind_A [] 24; unwind_B [] 0] [HDict unwind_args])
     = Some (unwind_vm [unwind_A [] 24;
                        unwind_B [VFunction fn_C; VInt 1; VInt 2] 6]
                       [HDict unwind_args])
  /\ dispatch_body (invoke dis38 48) "LOAD_GLOBAL" [VStr "undefined_name"]
       (unwind_vm [unwind_A [] 24; unwind_B [] 8; unwind_C [] 2]
                  [HDict unwind_args; HDict unwind_args])
     = (Raise fault,
        unwind_vm [unwind_A [] 24; unwind_B [] 8; unwind_C [] 2]
                  [HDict unwind_args; HDict unwind_args])
  /\ fst r = Ok (Some "exception")
  /\ frames (snd r) = [unwind_A [] 24]
  /\ last_exception (snd r)
     = Some (NameError, ReExc NameError (ReExc NameError fault), None).
Proof.
  intros fault r.
  assert (H1 : snd (cycles dis38 (invoke dis38 50) 11 (root_vm code_A))
               = unwind_vm [unwind_A unwind_call 22] [])
    by (vm_compute; reflexivity).
  assert (H2 : after_cycles dis38 (invoke dis38 49) 3
                 (unwind_vm [unwind_A [] 24; unwind_B [] 0] [HDict unwind_args])
               = Some (unwind_vm [unwind_A [] 24;
                                  unwind_B [VFunction fn_C; VInt 1; VInt 2] 6]
                                 [HDict unwind_args]))
    by (vm_compute; reflexivity).
  assert (H3 : dispatch_body (invoke dis38 48) "LOAD_GLOBAL" [VStr "undefined_name"]
                 (unwind_vm [unwind_A [] 24; unwind_B [] 8; unwind_C [] 2]
                            [HDict unwind_args; HDict unwind_args])
               = (Raise fault,
                  unwind_vm [unwind_A [] 24; unwind_B [] 8; unwind_C [] 2]
                            [HDict unwind_args; HDict unwind_args]))
    by (vm_compute; reflexivity).
  split; [exact H1|]. split; [exact H2|]. split; [exact H3|].
  destruct (unwind_protocol dis38 48
              (unwind_vm [unwind_A unwind_call 22] []) (unwind_A unwind_call 22)
              [] (VInt 2) fn_B (VInt 1) (VInt 2)
              (unwind_B [] 0) (unwind_vm [unwind_A [] 24] [HDict unwind_args])
              3 (unwind_vm [unwind_A [] 24;
                            unwind_B [VFunction fn_C; VInt 1; VInt 2] 6]
                           [HDict unwind_args])
              (unwind_B [VFunction fn_C; VInt 1; VInt 2] 6) [] (VInt 2)
              fn_C (VInt 1) (VInt 2)
              (unwind_C [] 0)
              (unwind_vm [unwind_A [] 24; unwind_B [] 8]
                         [HDict unwind_args; HDict unwind_args])
              0 (unwind_vm [unwind_A [] 24; unwind_B [] 8; unwind_C [] 0]
                           [HDict unwind_args; HDict unwind_args])
              (unwind_C [] 0) "LOAD_GLOBAL" [VStr "undefined_name"] fault
              (unwind_vm [unwind_A [] 24; unwind_B [] 8; unwind_C [] 2]
                         [HDict unwind_args; HDict unwind_args]))
    as (R1 & R2 & R3 & _).
  - reflexivity.
  - reflexivity.
  - reflexivity.
  - intros run. vm_compute. reflexivity.
  - reflexivity.
  - lia.
  - exact H2.
  - reflexivity.
  - reflexivity.
  - reflexivity.
  - intros run. vm_compute. reflexivity.
  - reflexivity.
  - lia.
  - reflexivity.
  - reflexivity.
  - reflexivity.
  - exact H3.
  - split; reflexivity.
  - split; [exact R1|]. split; [exact R2 | exact R3].
Defined.

(** ** Function definition, in general *)

Lemma alist_set_fresh k v d :
  alist_get k d = None -> alist_set k v d = d ++ [(k, v)].
Proof.
  induction d as [|[k' v'] d IH]; simpl; [done|].
  destruct (String.eqb k k'); [discriminate|]. intros H. by rewrite IH.
Qed.

Lemma alist_get_app_None k d1 d2 :
  alist_get k d1 = None -> alist_get k (d1 ++ d2) = alist_get k d2.
Proof.
  induction d1 as [|[k' v'] d1 IH]; simpl; [done|].
  by destruct (String.eqb k k').
Qed.

Lemma bind_closure_tuple (fv : list string) (cl : list Value) :
  forall (i : nat) (acc : list (string * Value)) vm,
    NoDup fv -> (forall n, n ∈ fv -> alist_get n acc = None) ->
    (length fv <= length (drop i cl))%nat ->
    bind_closure fv (VTuple cl) i acc vm = (Ok (acc ++ zip fv (drop i cl)), vm).
Proof.
  induction fv as [|n fv IH]; intros i acc vm Hnd Hacc Hlen; simpl.
  - by rewrite app_nil_r.
  - apply NoDup_cons in Hnd as [Hn Hnd].
    destruct (drop i cl) as [|v rest] eqn:Ed; [simpl in Hlen; lia|].
    assert (Hi : cl !! i = Some v).
    { rewrite <- (Nat.add_0_r i), <- lookup_drop, Ed. done. }
    assert (Hrest : drop (S i) cl = rest).
    { replace (S i) with (i + 1)%nat by lia. by rewrite <- drop_drop, Ed. }
    rewrite Hi. msimpl.
    rewrite alist_set_fresh by (apply Hacc; by left).
    rewrite IH; [ | done | | rewrite Hrest; simpl in Hlen; lia].
    + by rewrite Hrest, <- app_assoc.
    + intros m Hm. rewrite alist_get_app_None by (apply Hacc; by right).
      simpl. rewrite eqb_ne; [done|]. intros ->. done.
Qed.

Lemma Function_init_spec (name : string) (code : Code) (ds cl : list Value)
    (vm : VirtualMachine) (f : Frame) :
  vm_frame vm = Some f ->
  NoDup (co_freevars code) ->
  length cl = length (co_freevars code) ->
  Function_init (VStr name) (VCode code) (VTuple ds)
                (if bool_decide (cl = []) then VNone else VTuple cl) vm
  = (Ok (mkFunction (function_name name code) code ds (f_globals f) (f_locals f)
                    (zip (co_freevars code) cl)), vm).
Proof.
  intros Hf Hnd Hlen. unfold Function_init.
  unfold bind at 1. cbn [py_truth]. unfold ret at 1.
  assert (Hname : forall k : Value -> M Function,
    bind (if negb (String.eqb name "") then ret (VStr name)
          else c <- as_code (VCode code) "co_name";; ret (VStr (co_name c))) k vm
    = k (function_name name code) vm).
  { intros k. unfold function_name. by destruct (negb (String.eqb name "")). }
  rewrite Hname. clear Hname.
  cbn [py_tuple]. msimpl.
  rewrite (bind_Ok _ _ _ _ _ (get_frame_Some _ _ _ Hf)).
  destruct cl as [|v cl].
  - rewrite bool_decide_true by done. cbn [py_truth]. msimpl.
    symmetry in Hlen. apply nil_length_inv in Hlen. rewrite Hlen.
    by rewrite bool_decide_true.
  - rewrite bool_decide_false by done. cbn [py_truth]. msimpl.
    rewrite bool_decide_false by done. cbn [negb as_code closure_length]. msimpl.
    rewrite (bind_Ok _ _ _ _ _
               (bind_closure_tuple (co_freevars code) (v :: cl) 0 [] vm Hnd
                  ltac:(done) ltac:(rewrite drop_0; lia))).
    msimpl. rewrite bool_decide_true by done. by rewrite drop_0.
Qed.

(** X22.  What [MAKE_FUNCTION] builds.  The instruction pops the name and
    the code object, then, by its flags, nothing (flags 0), one tuple of
    captured values (flags exactly 8) or one tuple of defaults (any other
    flags); it pushes a function named [name or co_name] that carries the
    code object, the defaults, the globals and locals of the defining
    frame, and the captured values bound to the code's free variables in
    order. *)
Theorem MAKE_FUNCTION_builds_function inv (vm : VirtualMachine) (f : Frame)
    (s : list Value) (name : string) (code : Code) :
  vm_frame vm = Some f ->
  NoDup (co_freevars code) ->
  let built ds cl :=
    (Ok None,
     set_top_frame
       (set_stack
          (s ++ [VFunction (mkFunction (function_name name code) code ds
                              (f_globals f) (f_locals f)
                              (zip (co_freevars code) cl))]) f) vm) in
  (stack f = s ++ [VCode code; VStr name] -> co_freevars code = [] ->
   dispatch inv "MAKE_FUNCTION" [VInt 0] vm = built [] [])
  /\ (forall cl,
        stack f = s ++ [VTuple cl; VCode code; VStr name] ->
        cl <> [] -> length cl = length (co_freevars code) ->
        dispatch inv "MAKE_FUNCTION" [VInt 8] vm = built [] cl)
  /\ (forall flags ds,
        stack f = s ++ [VTuple ds; VCode code; VStr name] ->
        flags <> 0 -> flags <> 8 -> co_freevars code = [] ->
        dispatch inv "MAKE_FUNCTION" [VInt flags] vm = built ds []).
Proof.
  intros Hf Hnd built.
  assert (Hpop2 : forall below,
    stack f = below ++ [VCode code; VStr name] ->
    pop vm = (Ok (VStr name), set_top_frame (set_stack (below ++ [VCode code]) f) vm)
    /\ pop (set_top_frame (set_stack (below ++ [VCode code]) f) vm)
       = (Ok (VCode code), set_top_frame (set_stack below f) vm)).
  { intros below Hs. split.
    - apply pop_snoc; [done|]. rewrite Hs. by rewrite <- app_assoc.
    - rewrite (pop_snoc _ _ below (VCode code)
                 (vm_frame_set_top _ _ (set_stack (below ++ [VCode code]) f) Hf)
                 eq_refl).
      by rewrite set_top_frame_twice. }
  assert (Hfin : forall below ds cl,
    length cl = length (co_freevars code) ->
    (fn <- Function_init (VStr name) (VCode code) (VTuple ds)
             (if bool_decide (cl = []) then VNone else VTuple cl) ;;
     push [VFunction fn] ;;; none) (set_top_frame (set_stack below f) vm)
    = (Ok None,
       set_top_frame
         (set_stack
            (below ++ [VFunction (mkFunction (function_name name code) code ds
                                    (f_globals f) (f_locals f)
                                    (zip (co_freevars code) cl))]) f) vm)).
  { intros below ds cl Hlen.
    rewrite (bind_Ok _ _ _ _ _
               (Function_init_spec name code ds cl _ (set_stack below f)
                  (vm_frame_set_top _ _ _ Hf) Hnd Hlen)).
    rewrite (bind_Ok _ _ _ _ _ (push_spec _ _ _ (vm_frame_set_top _ _ _ Hf))).
    by rewrite set_top_frame_twice. }
  split; [|split].
  - intros Hs Hfree. destruct (Hpop2 s Hs) as [H1 H2].
    unfold dispatch, dispatch_body. rewrite bytecode_fn_MAKE_FUNCTION.
    cbn [apply_handler]. unfold inst_MAKE_FUNCTION.
    rewrite (bind_Ok _ _ _ _ _ H1), (bind_Ok _ _ _ _ _ H2).
    cbn [is_host is_closure_flag Z.eqb py_truth]. msimpl. cbn [negb]. msimpl.
    cbn [fst snd].
    pose proof (Hfin s [] [] ltac:(by rewrite Hfree)) as Hfin'.
    rewrite bool_decide_true in Hfin' by done. by rewrite Hfin'.
  - intros cl Hs Hne Hlen.
    destruct (Hpop2 (s ++ [VTuple cl])) as [H1 H2]; [by rewrite Hs, <- app_assoc|].
    unfold dispatch, dispatch_body. rewrite bytecode_fn_MAKE_FUNCTION.
    cbn [apply_handler]. unfold inst_MAKE_FUNCTION.
    rewrite (bind_Ok _ _ _ _ _ H1), (bind_Ok _ _ _ _ _ H2).
    cbn [is_host is_closure_flag Z.eqb Pos.eqb]. msimpl.
    rewrite (bind_Ok _ _ _ _ _
               (pop_snoc _ (set_stack (s ++ [VTuple cl]) f) s (VTuple cl)
                  (vm_frame_set_top _ _ _ Hf) eq_refl)).
    rewrite set_top_frame_twice. msimpl. cbn [fst snd].
    pose proof (Hfin s [] cl Hlen) as Hfin'.
    rewrite bool_decide_false in Hfin' by done.
    rewrite set_stack_twice. by rewrite Hfin'.
  - intros flags ds Hs Hn0 Hn8 Hfree.
    destruct (Hpop2 (s ++ [VTuple ds])) as [H1 H2]; [by rewrite Hs, <- app_assoc|].
    unfold dispatch, dispatch_body. rewrite bytecode_fn_MAKE_FUNCTION.
    cbn [apply_handler]. unfold inst_MAKE_FUNCTION.
    rewrite (bind_Ok _ _ _ _ _ H1), (bind_Ok _ _ _ _ _ H2).
    cbn [is_host is_closure_flag].
    assert (E8 : Z.eqb flags 8 = false) by (by apply Z.eqb_neq).
    assert (E0 : Z.eqb flags 0 = false) by (by apply Z.eqb_neq).
    rewrite E8. cbn [py_truth]. msimpl. rewrite E0. cbn [negb]. msimpl.
    rewrite (bind_Ok _ _ _ _ _
               (pop_snoc _ (set_stack (s ++ [VTuple ds]) f) s (VTuple ds)
                  (vm_frame_set_top _ _ _ Hf) eq_refl)).
    rewrite set_top_frame_twice. msimpl. cbn [fst snd].
    pose proof (Hfin s ds [] ltac:(by rewrite Hfree)) as Hfin'.
    rewrite bool_decide_true in Hfin' by done.
    rewrite set_stack_twice. by rewrite Hfin'.
Qed.

Lemma MAKE_FUNCTION_builds_function_witness :
  let plain := [VCode two_params; VStr "g"] in
  let defaulted := [VTuple [VInt 5]; VCode three_params; VStr "h"] in
  vm_frame closure_vm = Some closure_frame
  /\ NoDup (co_freevars reader_inner)
  /\ dispatch (invoke dis38 0) "MAKE_FUNCTION" [VInt 8] closure_vm
     = (Ok None,
        set_top_frame
          (set_stack
             [VFunction (mkFunction (VStr "outer.<locals>.inner") reader_inner []
                                    1 2 [("count", VInt 0)])]
             closure_frame) closure_vm)
  /\ dispatch (invoke dis38 0) "MAKE_FUNCTION" [VInt 0] (stack_vm plain)
     = (Ok None,
        set_top_frame
          (set_stack [VFunction (mkFunction (VStr "g") two_params [] 1 1 [])]
                     (stack_frame plain)) (stack_vm plain))
  /\ dispatch (invoke dis38 0) "MAKE_FUNCTION" [VInt 1] (stack_vm defaulted)
     = (Ok None,
        set_top_frame
          (set_stack [VFunction (mkFunction (VStr "h") three_params [VInt 5] 1 1 [])]
                     (stack_frame defaulted)) (stack_vm defaulted)).
Proof.
  intros plain defaulted. split; [reflexivity|].
  assert (Hnd : NoDup (co_freevars reader_inner)).
  { apply (bool_decide_unpack _). vm_compute. exact I. }
  assert (Hnil : NoDup (@nil string)) by constructor.
  split; [exact Hnd|]. split; [|split].
  - exact (proj1 (proj2 (MAKE_FUNCTION_builds_function (invoke dis38 0) closure_vm
                           closure_frame [] "outer.<locals>.inner" reader_inner
                           eq_refl Hnd))
                 [VInt 0] eq_refl ltac:(discriminate) eq_refl).
  - exact (proj1 (MAKE_FUNCTION_builds_function (invoke dis38 0) (stack_vm plain)
                    (stack_frame plain) [] "g" two_params eq_refl Hnil)
                 eq_refl eq_refl).
  - exact (proj2 (proj2 (MAKE_FUNCTION_builds_function (invoke dis38 0)
                           (stack_vm defaulted) (stack_frame defaulted) [] "h"
                           three_params eq_refl Hnil))
                 1 [VInt 5] eq_refl ltac:(discriminate) ltac:(discriminate) eq_refl).
Defined.

(** ** Keyword arguments *)

Lemma pop_kwargs_spec (rns : list string) :
  forall (rvals : list Value) (acc : list (string * Value)) vm f s,
    vm_frame vm = Some f -> stack f = s ++ reverse rvals ->
    length rvals = length rns -> NoDup rns ->
    (forall n, n ∈ rns -> alist_get n acc = None) ->
    pop_kwargs (VStr <$> rns) acc vm
    = (Ok (acc ++ zip rns rvals), set_top_frame (set_stack s f) vm).
Proof.
  induction rns as [|n rns IH]; intros rvals acc vm f s Hf Hs Hlen Hnd Hacc.
  - destruct rvals; [|discriminate]. simpl in *.
    rewrite app_nil_r in *. by rewrite <- Hs, set_stack_id, (set_top_frame_id _ _ Hf).
  - destruct rvals as [|v rvals]; [discriminate|].
    apply NoDup_cons in Hnd as [Hn Hnd].
    rewrite reverse_cons, app_assoc in Hs.
    cbn [fmap list_fmap pop_kwargs].
    rewrite (bind_Ok _ _ _ _ _ (pop_snoc _ _ _ _ Hf Hs)). cbn [as_name]. msimpl.
    rewrite alist_set_fresh by (apply Hacc; by left).
    rewrite (IH rvals _ _ (set_stack (s ++ reverse rvals) f) s
               (vm_frame_set_top _ _ _ Hf) eq_refl); [ | by injection Hlen | done | ].
    + by rewrite set_top_frame_twice, set_stack_twice, <- app_assoc.
    + intros m Hm. rewrite alist_get_app_None by (apply Hacc; by right).
      simpl. rewrite eqb_ne; [done|]. by intros ->.
Qed.

(** X23.  How [CALL_FUNCTION_KW] reads the stack.  With, from the
    bottom, the callee, the positional arguments, the keyword values and
    the tuple of keyword names on top, and an operand counting both
    kinds of arguments, the callee is invoked with the positional
    arguments in stack order and each keyword name bound to the value at
    the same position (the names are read last to first, one value
    popped for each); its result replaces all of them. *)
Theorem CALL_FUNCTION_KW_binds_names_to_values inv (vm : VirtualMachine)
    (f : Frame) (s : list Value) (func : Value) (pos kwvals : list Value)
    (names : list string) (r : Value) (vm1 : VirtualMachine) (f1 : Frame) :
  vm_frame vm = Some f ->
  stack f = s ++ [func] ++ pos ++ kwvals ++ [VTuple (VStr <$> names)] ->
  length kwvals = length names -> NoDup names ->
  inv func pos (zip (reverse names) (reverse kwvals))
      (set_top_frame (set_stack s f) vm) = (Ok r, vm1) ->
  vm_frame vm1 = Some f1 ->
  dispatch inv "CALL_FUNCTION_KW" [VInt (Z.of_nat (length pos + length names))] vm
  = (Ok None, set_top_frame (set_stack (stack f1 ++ [r]) f1) vm1).
Proof.
  intros Hf Hs Hlen Hnd Hinv Hf1. unfold dispatch, dispatch_body.
  change (bytecode_fn inv "CALL_FUNCTION_KW")
    with (Some (Unary (inst_CALL_FUNCTION_KW inv))).
  cbn [apply_handler]. unfold inst_CALL_FUNCTION_KW.
  set (fk := set_stack (s ++ [func] ++ pos ++ kwvals) f).
  set (fp := set_stack (s ++ [func] ++ pos) f).
  set (ff := set_stack (s ++ [func]) f).
  assert (H1 : pop vm = (Ok (VTuple (VStr <$> names)), set_top_frame fk vm)).
  { apply pop_snoc; [done|]. rewrite Hs. by rewrite !app_assoc. }
  rewrite (bind_Ok _ _ _ _ _ H1). cbn [py_reverse_slice]. msimpl.
  rewrite <- fmap_reverse.
  assert (H2 : pop_kwargs (VStr <$> reverse names) [] (set_top_frame fk vm)
               = (Ok (zip (reverse names) (reverse kwvals)), set_top_frame fp vm)).
  { rewrite (pop_kwargs_spec (reverse names) (reverse kwvals) [] _ fk
               (s ++ [func] ++ pos) (vm_frame_set_top _ _ _ Hf)).
    - by rewrite set_top_frame_twice.
    - unfold fk. rewrite stack_set_stack, reverse_involutive. by rewrite !app_assoc.
    - by rewrite !length_reverse.
    - by rewrite reverse_Permutation.
    - done. }
  rewrite (bind_Ok _ _ _ _ _ H2). cbn [as_int]. msimpl.
  assert (Hn : Z.of_nat (length pos + length names)
               - Z.of_nat (length (zip (reverse names) (reverse kwvals)))
               = Z.of_nat (length pos)).
  { rewrite length_zip, !length_reverse. lia. }
  rewrite Hn.
  assert (H3 : popn (Z.of_nat (length pos)) (set_top_frame fp vm)
               = (Ok pos, set_top_frame ff vm)).
  { destruct pos as [|p pos].
    - unfold popn. rewrite bool_decide_true by done. unfold ret, fp, ff.
      by rewrite app_nil_r.
    - rewrite (popn_suffix _ fp (s ++ [func]) (p :: pos)
                 (vm_frame_set_top _ _ _ Hf)); [ | | done].
      + by rewrite set_top_frame_twice.
      + unfold fp. rewrite stack_set_stack. by rewrite !app_assoc. }
  rewrite (bind_Ok _ _ _ _ _ H3).
  rewrite (bind_Ok _ _ _ _ _
             (pop_snoc _ ff s func (vm_frame_set_top _ _ _ Hf) eq_refl)).
  rewrite set_top_frame_twice. change (set_stack s ff) with (set_stack s f).
  rewrite (bind_Ok _ _ _ _ _ Hinv).
  by rewrite (bind_Ok _ _ _ _ _ (push_spec _ _ _ Hf1)).
Qed.

Lemma CALL_FUNCTION_KW_binds_names_to_values_witness :
  let r := dispatch (invoke dis38 5) "CALL_FUNCTION_KW"
                    [VInt (Z.of_nat (length [VInt 1; VInt 2] + length ["r"]))]
                    kw_vm in
  vm_frame kw_vm = Some kw_frame
  /\ stack kw_frame
     = [] ++ [VFunction fn_h] ++ [VInt 1; VInt 2] ++ [VInt 9] ++ [VTuple (VStr <$> ["r"])]
  /\ fst r = Ok None
  /\ (stack <$> vm_frame (snd r)) = Some [VInt 9].
Proof.
  intros r. do 2 (split; [reflexivity|]).
  assert (Hnd : NoDup ["r"]) by (apply (bool_decide_unpack _); vm_compute; exact I).
  unfold r.
  rewrite (CALL_FUNCTION_KW_binds_names_to_values (invoke dis38 5) kw_vm kw_frame []
             (VFunction fn_h) [VInt 1; VInt 2] [VInt 9] ["r"] (VInt 9)
             (snd (invoke dis38 5 (VFunction fn_h) [VInt 1; VInt 2] [("r", VInt 9)]
                     (set_top_frame (set_stack [] kw_frame) kw_vm)))
             (set_stack [] kw_frame) eq_refl eq_refl eq_refl Hnd
             ltac:(vm_compute; reflexivity) ltac:(vm_compute; reflexivity)).
  split; [reflexivity | vm_compute; reflexivity].
Defined.

(** ** Handlers that no instruction reaches *)

Lemma opname38_not_legacy (bc : Z) :
  opname38 bc <> "PRINT_ITEM" /\ opname38 bc <> "PRINT_NEWLINE"
  /\ opname38 bc <> "STORE_MAP".
Proof.
  destruct bc as [|p|p]; [by repeat split | | by repeat split].
  do 8 (try destruct p as [p|p|]);
    lazymatch goal with
    | |- context [opname38 ?z] =>
        first
          [ change (opname38 z) with (String "<"%char (pretty z +:+ ">"));
            by repeat split
          | lazy [opname38]; by repeat split ]
    end.
Qed.

(** X24.  Three handlers of the table are dead under CPython 3.8: no
    opcode byte is named PRINT_ITEM, PRINT_NEWLINE or STORE_MAP, so no
    instruction that [parse_inst_and_args] decodes from a code object, at
    any offset, is ever dispatched to [inst_PRINT_ITEM],
    [inst_PRINT_NEWLINE] or [inst_STORE_MAP]. *)
Theorem legacy_handlers_are_unreachable (code : Code) (pc : Z)
    (name : string) (args : list Value) :
  decode dis38 code pc = Some (name, args) ->
  name ∉ ["PRINT_ITEM"; "PRINT_NEWLINE"; "STORE_MAP"].
Proof.
  intros Hd. unfold decode in Hd.
  destruct (py_index (co_code code) pc) as [bc|]; [|discriminate].
  assert (Hname : name = opname38 bc).
  { change (opname dis38) with opname38 in Hd.
    destruct (bool_decide (HAVE_ARGUMENT dis38 <= bc)).
    - destruct (py_index (co_code code) (pc + 1)) as [av|]; [|discriminate].
      match type of Hd with
      | match ?arg with _ => _ end = _ => destruct arg as [a|]; [|discriminate]
      end.
      by injection Hd as <- <-.
    - by injection Hd as <- <-. }
  destruct (opname38_not_legacy bc) as (H1 & H2 & H3). rewrite <- Hname in *.
  rewrite !not_elem_of_cons. split; [done|]. split; [done|]. split; [done|].
  apply not_elem_of_nil.
Qed.

Lemma legacy_handlers_are_unreachable_witness :
  decode dis38 code_seven 0 = Some ("LOAD_CONST", [VInt 7])
  /\ "LOAD_CONST" ∉ ["PRINT_ITEM"; "PRINT_NEWLINE"; "STORE_MAP"].
Proof.
  split; [reflexivity|].
  exact (legacy_handlers_are_unreachable code_seven 0 "LOAD_CONST" [VInt 7] eq_refl).
Defined.

(** ** Absolute jumps *)

Lemma dispatch_JUMP_ABSOLUTE inv vm f t :
  vm_frame vm = Some f ->
  dispatch inv "JUMP_ABSOLUTE" [VInt t] vm
  = (Ok None, set_top_frame (set_last_instruction t f) vm).
Proof.
  intros Hf. unfold dispatch, dispatch_body.
  change (bytecode_fn inv "JUMP_ABSOLUTE") with (Some (Unary inst_JUMP_ABSOLUTE)).
  cbn [apply_handler]. unfold inst_JUMP_ABSOLUTE, jump. msimpl.
  rewrite (bind_Ok _ _ _ _ _ (get_frame_Some _ _ _ Hf)).
  cbn [as_int]. msimpl. reflexivity.
Qed.

Lemma jump_spec vm f t :
  vm_frame vm = Some f ->
  jump (VInt t) vm = (Ok tt, set_top_frame (set_last_instruction t f) vm).
Proof.
  intros Hf. unfold jump.
  rewrite (bind_Ok _ _ _ _ _ (get_frame_Some _ _ _ Hf)). cbn [as_int]. by msimpl.
Qed.

(** X25.  The absolute jumps land on their operand.  With the operand
    byte [t] at offset [pc + 1]: [JUMP_ABSOLUTE] at offset [pc] sets the
    program counter to [t]; [POP_JUMP_IF_FALSE] and [POP_JUMP_IF_TRUE]
    pop the top of the stack and, by its truth value, set the counter
    to [t] or let it advance to [pc + 2], one of them jumping exactly
    when the other does not. *)
Theorem absolute_jumps_land_on_operand inv (vm : VirtualMachine) (f : Frame)
    (t : Z) :
  vm_frame vm = Some f ->
  let pc := last_instruction f in
  let code := co_code (code_obj f) in
  py_index code (pc + 1) = Some t ->
  (py_index code pc = Some 113 ->
   cycle dis38 inv vm = (Ok None, set_top_frame (set_last_instruction t f) vm))
  /\ (forall s v b,
        stack f = s ++ [v] -> (forall m, py_truth v m = (Ok b, m)) ->
        (py_index code pc = Some 114 ->
         cycle dis38 inv vm
         = (Ok None,
            set_top_frame
              (set_last_instruction (if b : bool then pc + 2 else t) (set_stack s f))
              vm))
        /\ (py_index code pc = Some 115 ->
            cycle dis38 inv vm
            = (Ok None,
               set_top_frame
                 (set_last_instruction (if b : bool then t else pc + 2) (set_stack s f))
                 vm))).
Proof.
  intros Hf pc code Ht.
  set (f2 := set_last_instruction (pc + 2) f).
  assert (Hf2 : vm_frame (set_top_frame f2 vm) = Some f2) by (by eapply vm_frame_set_top).
  split.
  - intros Hop.
    assert (Hdec : decode dis38 (code_obj f) (last_instruction f)
                   = Some ("JUMP_ABSOLUTE", [VInt t])).
    { unfold decode. fold pc code. by rewrite Hop, Ht. }
    rewrite (cycle_spec dis38 inv vm f _ _ Hf Hdec).
    rewrite (dispatch_JUMP_ABSOLUTE inv _ _ _ Hf2).
    by rewrite set_top_frame_twice.
  - intros s v b Hs Hv.
    assert (Hpop : pop (set_top_frame f2 vm)
                   = (Ok v, set_top_frame (set_stack s f2) vm)).
    { rewrite (pop_snoc _ f2 s v Hf2 Hs). by rewrite set_top_frame_twice. }
    assert (Hj : jump (VInt t) (set_top_frame (set_stack s f2) vm)
                 = (Ok tt, set_top_frame (set_last_instruction t (set_stack s f)) vm)).
    { rewrite (jump_spec _ (set_stack s f2) t (vm_frame_set_top _ _ _ Hf)).
      by rewrite set_top_frame_twice. }
    split; intros Hop.
    + assert (Hdec : decode dis38 (code_obj f) (last_instruction f)
                     = Some ("POP_JUMP_IF_FALSE", [VInt t])).
      { unfold decode. fold pc code. by rewrite Hop, Ht. }
      rewrite (cycle_spec dis38 inv vm f _ _ Hf Hdec). fold pc f2.
      unfold dispatch, dispatch_body.
      change (bytecode_fn inv "POP_JUMP_IF_FALSE")
        with (Some (Unary inst_POP_JUMP_IF_FALSE)).
      cbn [apply_handler]. unfold inst_POP_JUMP_IF_FALSE.
      rewrite (bind_Ok _ _ _ _ _ Hpop), (bind_Ok _ _ _ _ _ (Hv _)).
      destruct b; [reflexivity|]. by rewrite (bind_Ok _ _ _ _ _ Hj).
    + assert (Hdec : decode dis38 (code_obj f) (last_instruction f)
                     = Some ("POP_JUMP_IF_TRUE", [VInt t])).
      { unfold decode. fold pc code. by rewrite Hop, Ht. }
      rewrite (cycle_spec dis38 inv vm f _ _ Hf Hdec). fold pc f2.
      unfold dispatch, dispatch_body.
      change (bytecode_fn inv "POP_JUMP_IF_TRUE")
        with (Some (Unary inst_POP_JUMP_IF_TRUE)).
      cbn [apply_handler]. unfold inst_POP_JUMP_IF_TRUE.
      rewrite (bind_Ok _ _ _ _ _ Hpop), (bind_Ok _ _ _ _ _ (Hv _)).
      destruct b; [|reflexivity]. by rewrite (bind_Ok _ _ _ _ _ Hj).
Qed.

Lemma absolute_jumps_land_on_operand_witness :
  let vm0 := while_vm 0 [VInt 0] in
  let vm2 := while_vm 2 [] in
  let vm4 := while_vm 4 [VInt 1] in
  vm_frame vm0 = Some (while_frame 0 [VInt 0])
  /\ vm_frame vm2 = Some (while_frame 2 [])
  /\ vm_frame vm4 = Some (while_frame 4 [VInt 1])
  /\ cycle dis38 (invoke dis38 0) vm2
     = (Ok None, set_top_frame (set_last_instruction 0 (while_frame 2 [])) vm2)
  /\ cycle dis38 (invoke dis38 0) vm0
     = (Ok None,
        set_top_frame (set_last_instruction 6 (set_stack [] (while_frame 0 [VInt 0])))
          vm0)
  /\ cycle dis38 (invoke dis38 0) vm4
     = (Ok None,
        set_top_frame (set_last_instruction 6 (set_stack [] (while_frame 4 [VInt 1])))
          vm4).
Proof.
  intros vm0 vm2 vm4. do 3 (split; [reflexivity|]). split; [|split].
  - exact (proj1 (absolute_jumps_land_on_operand (invoke dis38 0) vm2
                    (while_frame 2 []) 0 eq_refl eq_refl) eq_refl).
  - exact (proj1 (proj2 (absolute_jumps_land_on_operand (invoke dis38 0) vm0
                           (while_frame 0 [VInt 0]) 6 eq_refl eq_refl)
                        [] (VInt 0) false eq_refl (fun m => eq_refl))
                 eq_refl).
  - exact (proj2 (proj2 (absolute_jumps_land_on_operand (invoke dis38 0) vm4
                           (while_frame 4 [VInt 1]) 6 eq_refl eq_refl)
                        [] (VInt 1) true eq_refl (fun m => eq_refl))
                 eq_refl).
Defined.

(** ** Calling a function from outside a run *)

(** X26.  A [Function] cannot be called once the run that defined it has
    ended.  On a machine whose call stack is empty, a call whose
    arguments fit the parameters gets as far as [Frame.__init__], which,
    having no previous frame to inherit from, looks [__builtins__] up in
    the new locals; these hold the arguments and the captured values
    only, so the call raises KeyError (unless a parameter or a captured
    variable bears that name) and no frame is pushed. *)
Theorem call_outside_a_run_faults (fn : Function) (args : list Value)
    (kwargs call_args : list (string * Value)) (vm : VirtualMachine) :
  frames vm = [] ->
  let code := func_code fn in
  getcallargs code (func_defaults fn) args kwargs vm = (Ok call_args, vm) ->
  "__builtins__" ∉ take (co_argcount code) (co_varnames code) ->
  alist_get "__builtins__" (func_closure fn) = None ->
  forall run,
    Function_call run fn args kwargs vm
    = (Raise (NewExc KeyError "'__builtins__'"),
       set_heap (heap vm ++ [HDict (call_locals call_args (func_closure fn))]) vm).
Proof.
  intros Hfr code Hca Hnp Hncl run.
  destruct (getcallargs_cases code (func_defaults fn) args kwargs vm)
    as [(ca & Hca' & Hp) | [e He]]; [|congruence].
  assert (ca = call_args) as -> by congruence.
  unfold Function_call. fold code.
  rewrite (bind_Ok _ _ _ _ _ Hca).
  set (vm0 := set_heap (heap vm ++ [HDict ∅]) vm).
  assert (Halloc : alloc (HDict ∅) vm = (Ok (length (heap vm)), vm0)) by done.
  rewrite (bind_Ok _ _ _ _ _ Halloc). apply bind_Raise.
  unfold make_frame. unfold bind at 1, get_vm. unfold bind at 1, ret.
  cbn [fst snd]. unfold bind at 1.
  rewrite (dict_update_last call_args vm0 (heap vm) ∅ eq_refl).
  unfold bind at 1.
  rewrite (dict_update_last (func_closure fn) (set_heap _ vm0) (heap vm) _ eq_refl).
  rewrite set_heap_twice. unfold bind at 1, get_vm.
  fold (call_locals call_args (func_closure fn)).
  set (vm1 := set_heap _ vm0).
  assert (Hnone : vm_frame vm1 = None).
  { unfold vm_frame, vm1, vm0. simpl. by rewrite Hfr. }
  rewrite Hnone. unfold Frame_init.
  assert (Hd : heap vm1 !! length (heap vm)
               = Some (HDict (call_locals call_args (func_closure fn)))).
  { unfold vm1. simpl. rewrite lookup_app_r by lia. by rewrite Nat.sub_diag. }
  msimpl. rewrite (bind_Ok _ _ _ _ _ (dict_at_spec _ _ _ Hd)).
  assert (Hb : call_locals call_args (func_closure fn) !! "__builtins__" = None).
  { apply eq_None_not_Some. intros [H | H]%call_locals_lookup.
    - by apply Hp in H.
    - rewrite Hncl in H. by destruct H. }
  by rewrite Hb.
Qed.

Lemma call_outside_a_run_faults_witness :
  frames idle_vm = []
  /\ getcallargs two_params [] [VInt 1; VInt 2] [] idle_vm
     = (Ok [("p", VInt 1); ("q", VInt 2)], idle_vm)
  /\ forall run,
       Function_call run fn_g [VInt 1; VInt 2] [] idle_vm
       = (Raise (NewExc KeyError "'__builtins__'"),
          set_heap (heap idle_vm
                    ++ [HDict (call_locals [("p", VInt 1); ("q", VInt 2)] [])])
                   idle_vm).
Proof.
  do 2 (split; [reflexivity|]).
  apply (call_outside_a_run_faults fn_g [VInt 1; VInt 2] []
           [("p", VInt 1); ("q", VInt 2)] idle_vm eq_refl eq_refl).
  - apply (bool_decide_unpack _). vm_compute. exact I.
  - reflexivity.
Defined.

(** ** The recorded exception, on every run

    [dispatch] is the only writer of [last_exception], and what it
    writes is the class of the exception, the exception, and None: this
    shape is an invariant of every computation of the engine, whatever
    its outcome. *)

Lemma wf_same_exception {A} (m : M A) :
  (forall vm r vm', m vm = (r, vm') -> last_exception vm' = last_exception vm) ->
  keeps_wf m.
Proof. intros H vm r vm' Hwf E. unfold exc_wf. by rewrite (H _ _ _ E). Qed.

Lemma wf_ret {A} (a : A) : keeps_wf (ret a).
Proof. apply wf_same_exception. by intros vm r vm' [= <- <-]. Qed.
Lemma wf_raise {A} k msg : keeps_wf (@raise A k msg).
Proof. apply wf_same_exception. by intros vm r vm' [= <- <-]. Qed.
Lemma wf_unmodelled {A} w : keeps_wf (@unmodelled A w).
Proof. apply wf_same_exception. by intros vm r vm' [= <- <-]. Qed.
Lemma wf_out_of_fuel {A} : keeps_wf (@out_of_fuel A).
Proof. apply wf_same_exception. by intros vm r vm' [= <- <-]. Qed.
Lemma wf_bind {A B} (m : M A) (k : A -> M B) :
  keeps_wf m -> (forall a, keeps_wf (k a)) -> keeps_wf (bind m k).
Proof.
  intros Hm Hk vm r vm' Hwf H. unfold bind in H.
  destruct (m vm) as [[a| | |] vm1] eqn:E.
  - eapply Hk; [|exact H]. by eapply Hm.
  - injection H as <- <-. by eapply Hm.
  - injection H as <- <-. by eapply Hm.
  - injection H as <- <-. by eapply Hm.
Qed.
Lemma wf_of_option {A} (o : option A) k msg : keeps_wf (of_option o k msg).
Proof. destruct o; [apply wf_ret | apply wf_raise]. Qed.
Lemma wf_get_vm : keeps_wf get_vm.
Proof. apply wf_same_exception. by intros vm r vm' [= <- <-]. Qed.
Lemma wf_get_frame attr : keeps_wf (get_frame attr).
Proof.
  apply wf_same_exception. intros vm r vm' H. unfold get_frame in H.
  by destruct (vm_frame vm); injection H as <- <-.
Qed.
Lemma wf_put_frame f : keeps_wf (put_frame f).
Proof. apply wf_same_exception. by intros vm r vm' [= <- <-]. Qed.
Lemma wf_alloc o : keeps_wf (alloc o).
Proof. apply wf_same_exception. by intros vm r vm' [= <- <-]. Qed.
Lemma wf_heap_get l : keeps_wf (heap_get l).
Proof.
  apply wf_same_exception. intros vm r vm' H. unfold heap_get in H.
  by destruct (heap vm !! l); injection H as <- <-.
Qed.
Lemma wf_heap_set l o : keeps_wf (heap_set l o).
Proof. apply wf_same_exception. by intros vm r vm' [= <- <-]. Qed.
Lemma wf_set_return_value v : keeps_wf (set_return_value v).
Proof. apply wf_same_exception. by intros vm r vm' [= <- <-]. Qed.
Lemma wf_write_stdout s : keeps_wf (write_stdout s).
Proof. apply wf_same_exception. by intros vm r vm' [= <- <-]. Qed.
Lemma wf_push_frame f : keeps_wf (push_frame f).
Proof. apply wf_same_exception. by intros vm r vm' [= <- <-]. Qed.
Lemma wf_pop_frame : keeps_wf pop_frame.
Proof.
  apply wf_same_exception. intros vm r vm' H. unfold pop_frame in H.
  by destruct (frames vm); injection H as <- <-.
Qed.

Create HintDb wf.
#[local] Hint Resolve wf_ret wf_raise wf_unmodelled wf_out_of_fuel
  wf_of_option wf_get_vm wf_get_frame wf_put_frame wf_alloc
  wf_heap_get wf_heap_set wf_set_return_value wf_write_stdout : wf.

Ltac wf_step :=
  match goal with
  | |- keeps_wf (bind _ _) => apply wf_bind; [|intros ?]
  | |- keeps_wf (match ?x with _ => _ end) => destruct x
  | |- keeps_wf _ => solve [eauto with wf]
  end.
Ltac wf_tac := intros; repeat wf_step.

Lemma wf_dict_at l : keeps_wf (dict_at l).
Proof. unfold dict_at. wf_tac. Qed.
Lemma wf_list_at l : keeps_wf (list_at l).
Proof. unfold list_at. wf_tac. Qed.
#[local] Hint Resolve wf_dict_at wf_list_at : wf.
Lemma wf_dict_store l k v : keeps_wf (dict_store l k v).
Proof. unfold dict_store. wf_tac. Qed.
#[local] Hint Resolve wf_dict_store : wf.
Lemma wf_dict_update l pairs : keeps_wf (dict_update l pairs).
Proof. induction pairs as [|[k v] pairs IH]; simpl; wf_tac. Qed.
Lemma wf_top : keeps_wf top.
Proof. unfold top. wf_tac. Qed.
Lemma wf_pop : keeps_wf pop.
Proof. unfold pop. wf_tac. Qed.
Lemma wf_push vals : keeps_wf (push vals).
Proof. unfold push. wf_tac. Qed.
Lemma wf_popn n : keeps_wf (popn n).
Proof. unfold popn. wf_tac. Qed.
Lemma wf_unpack2 vals : keeps_wf (unpack2 vals).
Proof. unfold unpack2. wf_tac. Qed.
Lemma wf_unpack3 vals : keeps_wf (unpack3 vals).
Proof. unfold unpack3. wf_tac. Qed.
#[local] Hint Resolve wf_dict_update wf_top wf_pop wf_push wf_popn
  wf_unpack2 wf_unpack3 : wf.

Lemma wf_not_iterable {A} v : keeps_wf (@not_iterable A v).
Proof. unfold not_iterable. wf_tac. Qed.
Lemma wf_unsupported_operands {A} sym x y :
  keeps_wf (@unsupported_operands A sym x y).
Proof. unfold unsupported_operands. wf_tac. Qed.
#[local] Hint Resolve wf_not_iterable wf_unsupported_operands : wf.
Lemma wf_operand_fault {A} ip op x y : keeps_wf (@operand_fault A ip op x y).
Proof. unfold operand_fault. wf_tac. Qed.
#[local] Hint Resolve wf_operand_fault : wf.
Lemma wf_py_truth v : keeps_wf (py_truth v).
Proof. unfold py_truth. wf_tac. Qed.
Lemma wf_py_iter v : keeps_wf (py_iter v).
Proof. unfold py_iter. wf_tac. Qed.
Lemma wf_py_next v : keeps_wf (py_next v).
Proof. unfold py_next. wf_tac. Qed.
Lemma wf_py_tuple v : keeps_wf (py_tuple v).
Proof. unfold py_tuple. wf_tac. Qed.
Lemma wf_py_str v : keeps_wf (py_str v).
Proof. unfold py_str. wf_tac. Qed.
Lemma wf_int_binop op a b : keeps_wf (int_binop op a b).
Proof. unfold int_binop. wf_tac. Qed.
#[local] Hint Resolve wf_py_truth wf_py_iter wf_py_next wf_py_tuple
  wf_py_str wf_int_binop : wf.
Lemma wf_py_operator ip op x y : keeps_wf (py_operator ip op x y).
Proof. unfold py_operator. wf_tac. Qed.
#[local] Hint Resolve wf_py_operator : wf.
Lemma wf_py_binop op x y : keeps_wf (py_binop op x y).
Proof. apply wf_py_operator. Qed.
#[local] Hint Resolve wf_py_binop : wf.
Lemma wf_py_iop op x y : keeps_wf (py_iop op x y).
Proof. unfold py_iop. wf_tac. Qed.
Lemma wf_py_imatmul x y : keeps_wf (py_imatmul x y).
Proof. unfold py_imatmul. wf_tac. Qed.
#[local] Hint Resolve wf_py_iop wf_py_imatmul : wf.
Lemma wf_inplace_statement op f x y :
  inplace_statement op = Some f -> keeps_wf (f x y).
Proof.
  unfold inplace_statement.
  repeat match goal with
  | |- context [if ?b then _ else _] => destruct b
  end; intros [= <-]; eauto with wf.
Qed.
Lemma wf_py_ordering op x y : keeps_wf (py_ordering op x y).
Proof. unfold py_ordering. wf_tac. Qed.
Lemma wf_py_equal n x y : keeps_wf (py_equal n x y).
Proof. unfold py_equal. wf_tac. Qed.
Lemma wf_py_membership x y : keeps_wf (py_membership x y).
Proof. unfold py_membership. wf_tac. Qed.
Lemma wf_py_identity n x y : keeps_wf (py_identity n x y).
Proof. unfold py_identity. wf_tac. Qed.
#[local] Hint Resolve wf_py_ordering wf_py_equal wf_py_membership
  wf_py_identity : wf.
Lemma wf_py_compare op x y : keeps_wf (py_compare op x y).
Proof. unfold py_compare. wf_tac. Qed.
#[local] Hint Resolve wf_py_compare : wf.

Lemma wf_bind_named f args named acc : keeps_wf (bind_named f args named acc).
Proof.
  revert acc. induction named as [|[k v] named IH]; intros acc; simpl; wf_tac.
Qed.
Lemma wf_missing_arguments {A} f req acc :
  keeps_wf (@missing_arguments A f req acc).
Proof. unfold missing_arguments. cbv zeta. wf_tac. Qed.
Lemma wf_too_many {A} f n d g : keeps_wf (@too_many A f n d g).
Proof. unfold too_many. cbv zeta. wf_tac. Qed.
#[local] Hint Resolve wf_missing_arguments wf_too_many : wf.
Lemma wf_check_required f req acc : keeps_wf (check_required f req acc).
Proof.
  unfold check_required. generalize req at 2. intros rest.
  induction rest as [|a rest IH]; simpl; wf_tac.
Qed.
Lemma wf_fill_defaults args : forall ds acc, keeps_wf (fill_defaults args ds acc).
Proof. induction args as [|a args IH]; intros ds acc; simpl; wf_tac. Qed.
#[local] Hint Resolve wf_bind_named wf_check_required wf_fill_defaults : wf.
Lemma wf_getcallargs code ds pos named : keeps_wf (getcallargs code ds pos named).
Proof. unfold getcallargs. cbv zeta. wf_tac. Qed.
Lemma wf_as_code v attr : keeps_wf (as_code v attr).
Proof. unfold as_code. wf_tac. Qed.
Lemma wf_closure_getitem c i : keeps_wf (closure_getitem c i).
Proof. unfold closure_getitem. wf_tac. Qed.
Lemma wf_closure_length c : keeps_wf (closure_length c).
Proof. unfold closure_length. wf_tac. Qed.
#[local] Hint Resolve wf_getcallargs wf_as_code wf_closure_getitem
  wf_closure_length : wf.
Lemma wf_bind_closure fv c : forall i acc, keeps_wf (bind_closure fv c i acc).
Proof. induction fv as [|a fv IH]; intros i acc; simpl; wf_tac. Qed.
#[local] Hint Resolve wf_bind_closure : wf.
Lemma wf_Function_init n c d cl : keeps_wf (Function_init n c d cl).
Proof. unfold Function_init. cbv zeta. wf_tac. Qed.
Lemma wf_bind_cells names d : forall acc, keeps_wf (bind_cells names d acc).
Proof. induction names as [|a names IH]; intros acc; simpl; wf_tac. Qed.
#[local] Hint Resolve wf_Function_init wf_bind_cells : wf.
Lemma wf_Frame_init code g l prev : keeps_wf (Frame_init code g l prev).
Proof. unfold Frame_init. wf_tac. Qed.
#[local] Hint Resolve wf_Frame_init : wf.
Lemma wf_make_frame code cl ca g l : keeps_wf (make_frame code cl ca g l).
Proof. unfold make_frame. cbv zeta. wf_tac. Qed.
#[local] Hint Resolve wf_make_frame : wf.

Lemma wf_as_name v : keeps_wf (as_name v).
Proof. unfold as_name. wf_tac. Qed.
Lemma wf_as_int v : keeps_wf (as_int v).
Proof. unfold as_int. wf_tac. Qed.
Lemma wf_builtin_lookup bn n : keeps_wf (builtin_lookup bn n).
Proof. unfold builtin_lookup. wf_tac. Qed.
Lemma wf_dict_pop l n : keeps_wf (dict_pop l n).
Proof. unfold dict_pop. wf_tac. Qed.
#[local] Hint Resolve wf_as_name wf_as_int wf_builtin_lookup wf_dict_pop : wf.
Lemma wf_jump t : keeps_wf (jump t).
Proof. unfold jump. wf_tac. Qed.
Lemma wf_py_reversed v : keeps_wf (py_reversed v).
Proof. unfold py_reversed. wf_tac. Qed.
Lemma wf_push_each vals : keeps_wf (push_each vals).
Proof. induction vals as [|a vals IH]; simpl; wf_tac. Qed.
Lemma wf_py_setitem o k v : keeps_wf (py_setitem o k v).
Proof. unfold py_setitem. wf_tac. Qed.
Lemma wf_py_reverse_slice v : keeps_wf (py_reverse_slice v).
Proof. unfold py_reverse_slice. wf_tac. Qed.
Lemma wf_set_pc pc : keeps_wf (set_pc pc).
Proof. unfold set_pc. wf_tac. Qed.
#[local] Hint Resolve wf_jump wf_py_reversed wf_push_each wf_py_setitem
  wf_py_reverse_slice wf_set_pc : wf.
Lemma wf_binaryOperator op : keeps_wf (binaryOperator op).
Proof. unfold binaryOperator. wf_tac. Qed.
Lemma wf_inplaceOperator op : keeps_wf (inplaceOperator op).
Proof.
  unfold inplaceOperator.
  apply wf_bind; [eauto with wf|intros vals].
  apply wf_bind; [eauto with wf|intros xy].
  destruct (inplace_statement op) as [f|] eqn:E; [|eauto with wf].
  apply wf_bind; [by eapply wf_inplace_statement|intros x].
  eauto with wf.
Qed.
Lemma wf_pop_kwargs names : forall kw, keeps_wf (pop_kwargs names kw).
Proof. induction names as [|a names IH]; intros kw; simpl; wf_tac. Qed.
#[local] Hint Resolve wf_binaryOperator wf_inplaceOperator wf_pop_kwargs : wf.
Lemma wf_parse dis : keeps_wf (parse_inst_and_args dis).
Proof. unfold parse_inst_and_args. cbv zeta. wf_tac. Qed.


Section HandlersRecord.
Variable inv : Value -> list Value -> list (string * Value) -> M Value.
Hypothesis Hinv : forall func args kwargs, keeps_wf (inv func args kwargs).
#[local] Hint Resolve Hinv : wf.

Lemma handlers_wf : Forall (fun nh => handler_wf (snd nh)) (handlers inv).
Proof.
  unfold handlers.
  repeat (constructor;
          [ cbn [handler_wf snd]; intros;
            unfold inst_LOAD_CONST, inst_POP_TOP, inst_DUP_TOP, inst_DUP_TOP_TWO,
              inst_LOAD_NAME, inst_STORE_NAME, inst_DELETE_NAME, inst_LOAD_FAST,
              inst_STORE_FAST, inst_GET_ITER, inst_FOR_ITER, inst_LOAD_GLOBAL,
              inst_UNPACK_SEQUENCE, inst_STORE_GLOBAL, inst_DELETE_GLOBAL,
              inst_LOAD_METHOD, inst_CALL_METHOD, inst_STORE_SUBSCR, inst_LOAD_ATTR,
              inst_STORE_ATTR, inst_DELETE_ATTR, inst_BUILD_LIST, inst_BUILD_TUPLE,
              inst_BUILD_SET, inst_BUILD_MAP, inst_LOAD_BUILD_CLASS, inst_STORE_MAP,
              inst_LIST_APPEND, inst_IMPORT_NAME, inst_IMPORT_FROM, inst_COMPARE_OP,
              inst_JUMP_FORWARD, inst_JUMP_ABSOLUTE, inst_POP_JUMP_IF_TRUE,
              inst_POP_JUMP_IF_FALSE, inst_MAKE_FUNCTION, inst_CALL_FUNCTION,
              inst_CALL_FUNCTION_KW, inst_LOAD_CLOSURE, inst_LOAD_DEREF,
              inst_RETURN_VALUE, inst_PRINT_ITEM, inst_PRINT_NEWLINE, none;
            cbv zeta; solve [wf_tac]
          | ]).
  constructor.
Qed.

Lemma bytecode_fn_in_wf table name h :
  Forall (fun nh => handler_wf (snd nh)) table ->
  bytecode_fn_in table name = Some h -> handler_wf h.
Proof.
  induction 1 as [|[n h'] table Hh Ht IH]; simpl; [done|].
  destruct (String.eqb name n); [by intros [= <-] | done].
Qed.

Lemma dispatch_body_wf name args : keeps_wf (dispatch_body inv name args).
Proof.
  unfold dispatch_body.
  destruct (bytecode_fn inv name) as [h|] eqn:E.
  - pose proof (bytecode_fn_in_wf _ _ _ handlers_wf E) as Hh.
    destruct h as [m|f]; simpl in Hh; unfold apply_handler;
      destruct args as [|a [|b args]]; eauto with wf.
  - unfold none. wf_tac.
Qed.

Lemma dispatch_wf name args : keeps_wf (dispatch inv name args).
Proof.
  intros vm r vm' Hwf H. unfold dispatch in H.
  destruct (dispatch_body inv name args vm) as [[r0|e|w|] vm0] eqn:E;
    pose proof (dispatch_body_wf name args _ _ _ Hwf E) as Hwf0.
  - by injection H as <- <-.
  - injection H as <- <-. by unfold exc_wf, record_exception.
  - by injection H as <- <-.
  - by injection H as <- <-.
Qed.

Lemma run_loop_wf dis (fuel : nat) : keeps_wf (run_loop dis inv fuel).
Proof.
  induction fuel as [|k IH]; [apply wf_out_of_fuel|].
  cbn [run_loop]. apply wf_bind.
  - unfold cycle. apply wf_bind; [apply wf_parse|intros ia]. apply dispatch_wf.
  - intros [r|]; [apply wf_ret | exact IH].
Qed.

End HandlersRecord.

Lemma run_frame_wf (dis : DisModule) (fuel : nat) :
  forall frame, keeps_wf (run_frame dis fuel frame).
Proof.
  induction fuel as [|k IH]; intros frame; [apply wf_out_of_fuel|].
  assert (Hinv : forall func a kw, keeps_wf (invoke_with (run_frame dis k) func a kw)).
  { intros func a kw. unfold invoke_with. destruct func; try solve [wf_tac].
    unfold Function_call. wf_tac. }
  cbn [run_frame].
  apply wf_bind; [apply wf_push_frame|intros _].
  apply wf_bind; [by apply run_loop_wf|intros res].
  apply wf_bind; [apply wf_pop_frame|intros _].
  destruct (String.eqb res "exception"); [|wf_tac].
  apply wf_bind; [apply wf_get_vm|intros vm0].
  destruct (last_exception vm0) as [[[exc val] tb]|]; [|apply wf_raise].
  apply wf_same_exception. by intros vm r vm' [= <- <-].
Qed.

(** X27.  The recorded exception keeps its shape on every run.  From a
    machine whose [last_exception] is empty or holds a class, an instance
    of that class and the traceback None, [run_frame] reaches, however it
    ends and whatever the program and the depth of its calls, a machine
    of which the same is true: no traceback is ever recorded.  The
    exception that [run_frame] re-raises is then built from the class of
    the recorded instance, and is recorded with the traceback None. *)
Theorem recorded_exception_never_has_traceback (dis : DisModule) (fuel : nat)
    (frame : Frame) (vm vm' : VirtualMachine) (r : Res Value) :
  exc_wf vm ->
  run_frame dis fuel frame vm = (r, vm') ->
  exc_wf vm'
  /\ forall exc val,
       r = Raise (ReExc exc val) ->
       exc = exc_kind val /\ last_exception vm' = Some (exc, val, None).
Proof.
  intros Hwf H.
  pose proof (run_frame_wf dis fuel frame vm r vm' Hwf H) as Hwf'.
  split; [exact Hwf'|]. intros exc val ->.
  assert (Hl : exists tb, last_exception vm' = Some (exc, val, tb)).
  { destruct fuel as [|k]; [discriminate|]. rewrite run_frame_S in H.
    apply bind_Raise_inv in H as [H | ([] & vm1 & _ & H)]; [discriminate|].
    apply bind_Raise_inv in H as [H | (res & vm2 & _ & H)].
    { apply run_loop_raises in H as [msg [H | H]]; discriminate. }
    apply bind_Raise_inv in H as [H | ([] & vm3 & _ & H)].
    { unfold pop_frame in H. by destruct (frames vm2). }
    destruct (String.eqb res "exception").
    - apply bind_Raise_inv in H as [H | (vm4 & vm5 & Hget & H)]; [discriminate|].
      injection Hget as <- <-.
      destruct (last_exception vm3) as [[[exc' val'] tb]|] eqn:El; [|discriminate].
      injection H as <- <- <-. by exists tb.
    - apply bind_Raise_inv in H as [H | (vm4 & vm5 & _ & H)]; discriminate. }
  destruct Hl as [tb Hl].
  unfold exc_wf in Hwf'. rewrite Hl in Hwf'. by destruct Hwf' as [-> ->].
Qed.

Lemma recorded_exception_never_has_traceback_witness :
  let r := run_frame dis38 50 (root_frame code_A) idle_vm in
  let fault := NewExc NameError "global name 'undefined_name' is not defined" in
  exc_wf idle_vm
  /\ exc_wf (snd r)
  /\ last_exception (snd r)
     = Some (NameError, ReExc NameError (ReExc NameError fault), None).
Proof.
  intros r fault.
  assert (Hwf : exc_wf idle_vm) by exact I.
  assert (H : r = (Raise (ReExc NameError (ReExc NameError (ReExc NameError fault))),
                   snd r)) by (vm_compute; reflexivity).
  destruct (recorded_exception_never_has_traceback dis38 50 (root_frame code_A)
              idle_vm (snd r) _ Hwf H) as [H1 H2].
  split; [exact Hwf|]. split; [exact H1|].
  exact (proj2 (H2 _ _ eq_refl)).
Defined.

(** ** Subscripts *)

(** X28.  An item stored by [STORE_SUBSCR] is the one that
    [BINARY_SUBSCR] reads back.  With the container and the key on the
    stack below the value, the container and the key again,
    [STORE_SUBSCR] takes the three topmost values as value, container and
    key, in this order from below, and updates the container object in
    the heap; [BINARY_SUBSCR] then takes the container and the key and
    pushes the value just stored: for a dict and a string key, and for
    a list and an index within its bounds. *)
Theorem STORE_SUBSCR_then_BINARY_SUBSCR inv (vm : VirtualMachine) (f : Frame)
    (s : list Value) (v : Value) :
  vm_frame vm = Some f ->
  (forall l k d,
      stack f = s ++ [VDict l; VStr k; v; VDict l; VStr k] ->
      heap vm !! l = Some (HDict d) ->
      (dispatch inv "STORE_SUBSCR" [] ;;; dispatch inv "BINARY_SUBSCR" []) vm
      = (Ok None, bound l k v d (set_top_frame (set_stack (s ++ [v]) f) vm)))
  /\ (forall l i vs,
        stack f = s ++ [VList l; VInt i; v; VList l; VInt i] ->
        heap vm !! l = Some (HList vs) ->
        0 <= i < Z.of_nat (length vs) ->
        (dispatch inv "STORE_SUBSCR" [] ;;; dispatch inv "BINARY_SUBSCR" []) vm
        = (Ok None,
           set_heap (<[l := HList (<[Z.to_nat i := v]> vs)]> (heap vm))
                    (set_top_frame (set_stack (s ++ [v]) f) vm))).
Proof.
  intros Hf.
  assert (Hstore : forall obj key,
    stack f = s ++ [obj; key; v; obj; key] ->
    dispatch_body inv "STORE_SUBSCR" [] vm
    = (py_setitem obj key v ;;; none) (set_top_frame (set_stack (s ++ [obj; key]) f) vm)).
  { intros obj key Hs. unfold dispatch_body.
    change (bytecode_fn inv "STORE_SUBSCR") with (Some (Nullary inst_STORE_SUBSCR)).
    cbn [apply_handler]. unfold inst_STORE_SUBSCR.
    assert (Hpop : popn 3 vm
                   = (Ok [v; obj; key],
                      set_top_frame (set_stack (s ++ [obj; key]) f) vm)).
    { apply (popn_suffix vm f (s ++ [obj; key]) [v; obj; key]); [done| |done].
      by rewrite Hs, <- app_assoc. }
    by rewrite (bind_Ok _ _ _ _ _ Hpop). }
  assert (Hload : forall obj key vm1 f1,
    vm_frame vm1 = Some f1 -> stack f1 = s ++ [obj; key] ->
    dispatch_body inv "BINARY_SUBSCR" [] vm1
    = (x <- py_binop SUBSCR obj key ;; push [x] ;;; none)
        (set_top_frame (set_stack s f1) vm1)).
  { intros obj key vm1 f1 Hf1 Hs1. rewrite (dispatch_BINARY inv "SUBSCR").
    unfold binaryOperator. msimpl.
    assert (Hpop : popn 2 vm1 = (Ok [obj; key], set_top_frame (set_stack s f1) vm1)).
    { by apply (popn_suffix vm1 f1 s [obj; key]). }
    rewrite (bind_Ok _ _ _ _ _ Hpop). cbn [unpack2]. msimpl.
    change (BINARY_OPERATORS "SUBSCR") with (Some SUBSCR). cbn [fst snd].
    by msimpl. }
  split.
  - intros l k d Hs Hl.
    set (f1 := set_stack (s ++ [VDict l; VStr k]) f).
    assert (H1 : dispatch inv "STORE_SUBSCR" [] vm
                 = (Ok None, bound l k v d (set_top_frame f1 vm))).
    { unfold dispatch. rewrite (Hstore _ _ Hs). cbn [py_setitem].
      by rewrite (bind_Ok _ _ _ _ _ (dict_store_spec (set_top_frame f1 vm) l k v d Hl)). }
    rewrite (bind_Ok _ _ _ _ _ H1). cbv beta.
    unfold dispatch.
    rewrite (Hload (VDict l) (VStr k) _ f1);
      [ | rewrite vm_frame_bound; by eapply vm_frame_set_top | done].
    unfold py_binop. cbn [py_operator].
    assert (Hd : heap (set_top_frame (set_stack s f1)
                         (bound l k v d (set_top_frame f1 vm))) !! l
                 = Some (HDict (<[k := v]> d))).
    { apply (heap_bound_same (set_top_frame f1 vm) l k v d Hl). }
    msimpl.
    rewrite (bind_Ok _ _ _ _ _ (dict_at_spec _ _ _ Hd)).
    rewrite lookup_insert_eq. msimpl.
    assert (HfA : vm_frame (set_top_frame (set_stack s f1)
                              (bound l k v d (set_top_frame f1 vm)))
                  = Some (set_stack s f1)).
    { apply (vm_frame_set_top _ f1). rewrite vm_frame_bound.
      by eapply vm_frame_set_top. }
    rewrite (bind_Ok _ _ _ _ _ (push_spec _ _ [v] HfA)).
    rewrite !set_top_frame_bound, !set_top_frame_twice. reflexivity.
  - intros l i vs Hs Hl Hi.
    set (f1 := set_stack (s ++ [VList l; VInt i]) f).
    set (vm1 := set_heap (<[l := HList (<[Z.to_nat i := v]> vs)]> (heap vm))
                         (set_top_frame f1 vm)).
    assert (H1 : dispatch inv "STORE_SUBSCR" [] vm = (Ok None, vm1)).
    { unfold dispatch. rewrite (Hstore _ _ Hs). cbn [py_setitem]. msimpl.
      assert (Hla : list_at l (set_top_frame f1 vm) = (Ok vs, set_top_frame f1 vm)).
      { unfold list_at, bind, heap_get. simpl. by rewrite Hl. }
      rewrite (bind_Ok _ _ _ _ _ Hla). cbv zeta.
      rewrite bool_decide_true by lia. rewrite bool_decide_false by lia.
      reflexivity. }
    rewrite (bind_Ok _ _ _ _ _ H1). cbv beta.
    assert (Hf1 : vm_frame vm1 = Some f1) by (by eapply vm_frame_set_top).
    unfold dispatch. rewrite (Hload (VList l) (VInt i) vm1 f1 Hf1 eq_refl).
    unfold py_binop. cbn [py_operator].
    assert (Hla : list_at l (set_top_frame (set_stack s f1) vm1)
                  = (Ok (<[Z.to_nat i := v]> vs), set_top_frame (set_stack s f1) vm1)).
    { unfold list_at, bind, heap_get. simpl.
      rewrite list_lookup_insert_eq by (by eapply lookup_lt_Some). done. }
    msimpl. rewrite (bind_Ok _ _ _ _ _ Hla).
    assert (Hidx : py_index (<[Z.to_nat i := v]> vs) i = Some v).
    { unfold py_index. rewrite bool_decide_true by lia.
      apply list_lookup_insert_eq. lia. }
    rewrite Hidx. msimpl.
    rewrite (bind_Ok _ _ _ _ _
               (push_spec _ (set_stack s f1) _ (vm_frame_set_top _ _ _ Hf1))).
    rewrite set_top_frame_twice. unfold vm1.
    change (set_top_frame ?g (set_heap ?h ?m)) with (set_heap h (set_top_frame g m)).
    by rewrite set_top_frame_twice.
Qed.

Lemma STORE_SUBSCR_then_BINARY_SUBSCR_witness :
  let sd := [VDict 1; VStr "k"; VInt 7; VDict 1; VStr "k"] in
  vm_frame (stack_vm sd) = Some (stack_frame sd)
  /\ vm_frame list_vm = Some (stack_frame subscr_stack)
  /\ heap (stack_vm sd) !! 1%nat = Some (HDict seed_names)
  /\ heap list_vm !! 2%nat = Some (HList [VInt 0; VInt 0])
  /\ (dispatch (invoke dis38 0) "STORE_SUBSCR" [] ;;;
      dispatch (invoke dis38 0) "BINARY_SUBSCR" []) (stack_vm sd)
     = (Ok None,
        bound 1 "k" (VInt 7) seed_names
          (set_top_frame (set_stack ([] ++ [VInt 7]) (stack_frame sd)) (stack_vm sd)))
  /\ (dispatch (invoke dis38 0) "STORE_SUBSCR" [] ;;;
      dispatch (invoke dis38 0) "BINARY_SUBSCR" []) list_vm
     = (Ok None,
        set_heap (<[2%nat := HList (<[Z.to_nat 1 := VInt 7]> [VInt 0; VInt 0])]>
                    (heap list_vm))
          (set_top_frame (set_stack ([] ++ [VInt 7]) (stack_frame subscr_stack))
             list_vm)).
Proof.
  intros sd. do 4 (split; [reflexivity|]). split.
  - exact (proj1 (STORE_SUBSCR_then_BINARY_SUBSCR (invoke dis38 0) (stack_vm sd)
                    (stack_frame sd) [] (VInt 7) eq_refl)
                 1%nat "k" seed_names eq_refl eq_refl).
  - exact (proj2 (STORE_SUBSCR_then_BINARY_SUBSCR (invoke dis38 0) list_vm
                    (stack_frame subscr_stack) [] (VInt 7) eq_refl)
                 2%nat 1 [VInt 0; VInt 0] eq_refl eq_refl
                 ltac:(simpl; lia)).
Defined.
